(** * Verification of the interview session component

    Shallow embedding of [src/components/InterviewSession.tsx] (the live
    voice session: capture, transport callbacks, playback scheduling,
    proctoring timer and focus-loss counter, single-shot termination and
    the shutdown sequence), together with the two sibling variants of the
    same component kept in the repository ([src/unnamed/part_000] and
    [src/unnamed/part_001]) where they differ on a point that matters.

    Conventions.
    - A [useRef] cell is a record field holding the cell's current value;
      a [useState] cell is a field holding the last value handed to its
      setter.
    - JavaScript numbers that only ever hold integers here (the countdown,
      the tab-switch counter, timer delays, animation-frame ids) are [Z].
      Clock values and buffer durations of the output device are exact
      rationals [Q]. The voice-activity test is arithmetic on IEEE doubles
      near a threshold, so it is modelled with binary64 floats ([float])
      and their correctly rounded operations.
    - Calls into the browser and into the SDK are recorded, in program
      order, as a list of [Effect]s returned next to the new state.
    - A handler is a computation in the monad [M]: it reads and updates the
      component [State], emits effects and may throw; [tryCatch] is the
      source's [try { ... } catch (e) { ... }]. *)

From Stdlib Require Import List Bool ZArith QArith Qminmax Qround String Ascii Lia.
From Stdlib Require Import DecimalString.
From Stdlib Require Import Floats.
From Stdlib Require Uint63 Lqa.
Import ListNotations.

Local Open Scope string_scope.
Local Open Scope list_scope.
Local Open Scope Z_scope.

(** ** Data model *)

(** [useState<'connecting' | 'connected' | 'error'>] *)
Inductive Status : Type := connecting | connected | error.

(** [speaker: 'user' | 'ai'] of a displayed transcript line. *)
Inductive Speaker : Type := user | ai.

Record TranscriptLine : Type := { speaker : Speaker; text : string }.

(** The [state] attribute of a Web Audio context. *)
Inductive AudioContextState : Type := suspended | running | closed.

(** An [AudioContext] as the component sees it. [close()] marks the context
    as closing at once; the [state] attribute reads ['closed'] only once the
    browser has settled the returned promise. *)
Record AudioContext : Type :=
  { ctx_state : AudioContextState; ctx_closing : bool }.

(** The script processor node with its per-frame callback slot. *)
Record ScriptProcessorNode : Type :=
  { has_onaudioprocess : bool; node_connected : bool }.

(** [initSession] creates one script processor node (line 231) and names
    it twice: in the ref cell [scriptProcessorRef] and in the closure
    variable [scriptProcessor] that [onopen] assigns through. A reference
    is therefore the node's name; the node itself is held in [Env]. *)
Inductive NodeRef : Type := TheScriptProcessor.

(** A scheduled [AudioBufferSourceNode]. [stop_throws] says whether the
    browser raises on [stop()] for this node. *)
Record SourceNode : Type :=
  { src_id : Z; stop_throws : bool }.

(** The handle returned by [ai.live.connect]. [close_throws] says whether
    the SDK raises when [close()] is called on it. *)
Record LiveSession : Type :=
  { close_throws : bool }.

(** A media stream is the list of its tracks, by id. *)
Record MediaStream : Type := { tracks : list Z }.

(** The two audio contexts of the component. *)
Inductive Which : Type := Output | Input.

(** The one callback the component hands to [setTimeout]:
    [() => { disconnect(); onComplete(history.join('\n'), reason); }]. *)
Inductive Callback : Type := ShutdownThenComplete (reason : string).

Record Timeout : Type := { callback : Callback; delay : Z }.

(** Calls that leave the component, in the order they are made. *)
Inductive Effect : Type :=
| EClearOnAudioProcess                    (* scriptProcessor.onaudioprocess = null *)
| ENodeDisconnect                         (* scriptProcessor.disconnect() *)
| ESessionClose                           (* session.close() *)
| EConsoleError                           (* console.error(e) *)
| ETrackStop (id : Z)                     (* track.stop() *)
| EContextClose (w : Which)               (* context.close() *)
| EPromiseRejected (w : Which)            (* close() on a closing context *)
| ECancelAnimationFrame (id : Z)
| ESourceStop (id : Z)                    (* source.stop() *)
| ESourcesClear                           (* sourcesRef.current.clear() *)
| ESourceStart (when_ duration : Q)       (* src.start(when) *)
| ESendRealtimeInput (samples : nat)      (* session.sendRealtimeInput *)
| ESetSystemMessage (msg : string)        (* setSystemMessageStatus(msg) *)
| EOnComplete (transcript reason : string).

(** The [useState] cells. *)
Record Hooks : Type :=
  { status : Status;
    transcriptLines : list TranscriptLine;
    isUserSpeaking : bool;
    systemMessageStatus : option string;
    timeLeft : Z }.

(** The [useRef] cells that hold browser or SDK objects. *)
Record Handles : Type :=
  { audioContextRef : option AudioContext;
    inputAudioContextRef : option AudioContext;
    scriptProcessorRef : option NodeRef;
    sourcesRef : list SourceNode;
    sessionRef : option LiveSession;
    streamRef : option MediaStream;
    animationRef : Z }.

(** The [useRef] cells that hold plain values. *)
Record Refs : Type :=
  { isMountedRef : bool;
    nextAudioStartTimeRef : Q;
    terminationTriggeredRef : bool;
    isConnectedRef : bool;
    isAiSpeakingRef : bool;
    lastUserSpeechTimeRef : Z;
    fullTranscriptHistory : list string;
    isWaitingForResponseRef : bool;
    tabSwitchCountRef : Z }.

(** What the browser holds on behalf of the component: the pending
    [setTimeout] callbacks (oldest first), the pending animation frame,
    whether the one-second interval and the visibility listener are still
    registered, and the script processor node (before [initSession] creates
    it, a node with no callback and no connection). *)
Record Env : Type :=
  { timeouts : list Timeout;
    pendingFrame : option Z;
    intervalActive : bool;
    listenerActive : bool;
    scriptProcessor : ScriptProcessorNode }.

Record State : Type :=
  { hooks : Hooks; handles : Handles; refs : Refs; env : Env }.

(** *** Field updates *)

Definition set_status (v : Status) (h : Hooks) : Hooks :=
  {| status := v; transcriptLines := transcriptLines h;
     isUserSpeaking := isUserSpeaking h;
     systemMessageStatus := systemMessageStatus h; timeLeft := timeLeft h |}.

Definition set_transcriptLines (v : list TranscriptLine) (h : Hooks) : Hooks :=
  {| status := status h; transcriptLines := v;
     isUserSpeaking := isUserSpeaking h;
     systemMessageStatus := systemMessageStatus h; timeLeft := timeLeft h |}.

Definition set_isUserSpeaking (v : bool) (h : Hooks) : Hooks :=
  {| status := status h; transcriptLines := transcriptLines h;
     isUserSpeaking := v; systemMessageStatus := systemMessageStatus h;
     timeLeft := timeLeft h |}.

Definition set_systemMessageStatus (v : option string) (h : Hooks) : Hooks :=
  {| status := status h; transcriptLines := transcriptLines h;
     isUserSpeaking := isUserSpeaking h; systemMessageStatus := v;
     timeLeft := timeLeft h |}.

Definition set_timeLeft (v : Z) (h : Hooks) : Hooks :=
  {| status := status h; transcriptLines := transcriptLines h;
     isUserSpeaking := isUserSpeaking h;
     systemMessageStatus := systemMessageStatus h; timeLeft := v |}.

Definition set_audioContextRef (v : option AudioContext) (r : Handles) : Handles :=
  {| audioContextRef := v; inputAudioContextRef := inputAudioContextRef r;
     scriptProcessorRef := scriptProcessorRef r;
     sourcesRef := sourcesRef r; sessionRef := sessionRef r;
     streamRef := streamRef r; animationRef := animationRef r |}.

Definition set_inputAudioContextRef (v : option AudioContext) (r : Handles) : Handles :=
  {| audioContextRef := audioContextRef r; inputAudioContextRef := v;
     scriptProcessorRef := scriptProcessorRef r;
     sourcesRef := sourcesRef r; sessionRef := sessionRef r;
     streamRef := streamRef r; animationRef := animationRef r |}.

Definition set_scriptProcessorRef (v : option NodeRef) (r : Handles) : Handles :=
  {| audioContextRef := audioContextRef r;
     inputAudioContextRef := inputAudioContextRef r;
     scriptProcessorRef := v; sourcesRef := sourcesRef r;
     sessionRef := sessionRef r; streamRef := streamRef r;
     animationRef := animationRef r |}.

Definition set_sourcesRef (v : list SourceNode) (r : Handles) : Handles :=
  {| audioContextRef := audioContextRef r;
     inputAudioContextRef := inputAudioContextRef r;
     scriptProcessorRef := scriptProcessorRef r; sourcesRef := v;
     sessionRef := sessionRef r; streamRef := streamRef r;
     animationRef := animationRef r |}.

Definition set_sessionRef (v : option LiveSession) (r : Handles) : Handles :=
  {| audioContextRef := audioContextRef r;
     inputAudioContextRef := inputAudioContextRef r;
     scriptProcessorRef := scriptProcessorRef r;
     sourcesRef := sourcesRef r; sessionRef := v;
     streamRef := streamRef r; animationRef := animationRef r |}.

Definition set_streamRef (v : option MediaStream) (r : Handles) : Handles :=
  {| audioContextRef := audioContextRef r;
     inputAudioContextRef := inputAudioContextRef r;
     scriptProcessorRef := scriptProcessorRef r;
     sourcesRef := sourcesRef r; sessionRef := sessionRef r;
     streamRef := v; animationRef := animationRef r |}.

Definition set_animationRef (v : Z) (r : Handles) : Handles :=
  {| audioContextRef := audioContextRef r;
     inputAudioContextRef := inputAudioContextRef r;
     scriptProcessorRef := scriptProcessorRef r;
     sourcesRef := sourcesRef r; sessionRef := sessionRef r;
     streamRef := streamRef r; animationRef := v |}.

Definition set_isMountedRef (v : bool) (r : Refs) : Refs :=
  {| isMountedRef := v; nextAudioStartTimeRef := nextAudioStartTimeRef r;
     terminationTriggeredRef := terminationTriggeredRef r;
     isConnectedRef := isConnectedRef r;
     isAiSpeakingRef := isAiSpeakingRef r;
     lastUserSpeechTimeRef := lastUserSpeechTimeRef r;
     fullTranscriptHistory := fullTranscriptHistory r;
     isWaitingForResponseRef := isWaitingForResponseRef r;
     tabSwitchCountRef := tabSwitchCountRef r |}.

Definition set_nextAudioStartTimeRef (v : Q) (r : Refs) : Refs :=
  {| isMountedRef := isMountedRef r; nextAudioStartTimeRef := v;
     terminationTriggeredRef := terminationTriggeredRef r;
     isConnectedRef := isConnectedRef r;
     isAiSpeakingRef := isAiSpeakingRef r;
     lastUserSpeechTimeRef := lastUserSpeechTimeRef r;
     fullTranscriptHistory := fullTranscriptHistory r;
     isWaitingForResponseRef := isWaitingForResponseRef r;
     tabSwitchCountRef := tabSwitchCountRef r |}.

Definition set_terminationTriggeredRef (v : bool) (r : Refs) : Refs :=
  {| isMountedRef := isMountedRef r;
     nextAudioStartTimeRef := nextAudioStartTimeRef r;
     terminationTriggeredRef := v; isConnectedRef := isConnectedRef r;
     isAiSpeakingRef := isAiSpeakingRef r;
     lastUserSpeechTimeRef := lastUserSpeechTimeRef r;
     fullTranscriptHistory := fullTranscriptHistory r;
     isWaitingForResponseRef := isWaitingForResponseRef r;
     tabSwitchCountRef := tabSwitchCountRef r |}.

Definition set_isConnectedRef (v : bool) (r : Refs) : Refs :=
  {| isMountedRef := isMountedRef r;
     nextAudioStartTimeRef := nextAudioStartTimeRef r;
     terminationTriggeredRef := terminationTriggeredRef r;
     isConnectedRef := v; isAiSpeakingRef := isAiSpeakingRef r;
     lastUserSpeechTimeRef := lastUserSpeechTimeRef r;
     fullTranscriptHistory := fullTranscriptHistory r;
     isWaitingForResponseRef := isWaitingForResponseRef r;
     tabSwitchCountRef := tabSwitchCountRef r |}.

Definition set_isAiSpeakingRef (v : bool) (r : Refs) : Refs :=
  {| isMountedRef := isMountedRef r;
     nextAudioStartTimeRef := nextAudioStartTimeRef r;
     terminationTriggeredRef := terminationTriggeredRef r;
     isConnectedRef := isConnectedRef r; isAiSpeakingRef := v;
     lastUserSpeechTimeRef := lastUserSpeechTimeRef r;
     fullTranscriptHistory := fullTranscriptHistory r;
     isWaitingForResponseRef := isWaitingForResponseRef r;
     tabSwitchCountRef := tabSwitchCountRef r |}.

Definition set_lastUserSpeechTimeRef (v : Z) (r : Refs) : Refs :=
  {| isMountedRef := isMountedRef r;
     nextAudioStartTimeRef := nextAudioStartTimeRef r;
     terminationTriggeredRef := terminationTriggeredRef r;
     isConnectedRef := isConnectedRef r;
     isAiSpeakingRef := isAiSpeakingRef r; lastUserSpeechTimeRef := v;
     fullTranscriptHistory := fullTranscriptHistory r;
     isWaitingForResponseRef := isWaitingForResponseRef r;
     tabSwitchCountRef := tabSwitchCountRef r |}.

Definition set_fullTranscriptHistory (v : list string) (r : Refs) : Refs :=
  {| isMountedRef := isMountedRef r;
     nextAudioStartTimeRef := nextAudioStartTimeRef r;
     terminationTriggeredRef := terminationTriggeredRef r;
     isConnectedRef := isConnectedRef r;
     isAiSpeakingRef := isAiSpeakingRef r;
     lastUserSpeechTimeRef := lastUserSpeechTimeRef r;
     fullTranscriptHistory := v;
     isWaitingForResponseRef := isWaitingForResponseRef r;
     tabSwitchCountRef := tabSwitchCountRef r |}.

Definition set_isWaitingForResponseRef (v : bool) (r : Refs) : Refs :=
  {| isMountedRef := isMountedRef r;
     nextAudioStartTimeRef := nextAudioStartTimeRef r;
     terminationTriggeredRef := terminationTriggeredRef r;
     isConnectedRef := isConnectedRef r;
     isAiSpeakingRef := isAiSpeakingRef r;
     lastUserSpeechTimeRef := lastUserSpeechTimeRef r;
     fullTranscriptHistory := fullTranscriptHistory r;
     isWaitingForResponseRef := v;
     tabSwitchCountRef := tabSwitchCountRef r |}.

Definition set_tabSwitchCountRef (v : Z) (r : Refs) : Refs :=
  {| isMountedRef := isMountedRef r;
     nextAudioStartTimeRef := nextAudioStartTimeRef r;
     terminationTriggeredRef := terminationTriggeredRef r;
     isConnectedRef := isConnectedRef r;
     isAiSpeakingRef := isAiSpeakingRef r;
     lastUserSpeechTimeRef := lastUserSpeechTimeRef r;
     fullTranscriptHistory := fullTranscriptHistory r;
     isWaitingForResponseRef := isWaitingForResponseRef r;
     tabSwitchCountRef := v |}.

Definition set_timeouts (v : list Timeout) (e : Env) : Env :=
  {| timeouts := v; pendingFrame := pendingFrame e;
     intervalActive := intervalActive e;
     listenerActive := listenerActive e;
     scriptProcessor := scriptProcessor e |}.

Definition set_pendingFrame (v : option Z) (e : Env) : Env :=
  {| timeouts := timeouts e; pendingFrame := v;
     intervalActive := intervalActive e;
     listenerActive := listenerActive e;
     scriptProcessor := scriptProcessor e |}.

Definition set_intervalActive (v : bool) (e : Env) : Env :=
  {| timeouts := timeouts e; pendingFrame := pendingFrame e;
     intervalActive := v; listenerActive := listenerActive e;
     scriptProcessor := scriptProcessor e |}.

Definition set_listenerActive (v : bool) (e : Env) : Env :=
  {| timeouts := timeouts e; pendingFrame := pendingFrame e;
     intervalActive := intervalActive e; listenerActive := v;
     scriptProcessor := scriptProcessor e |}.

Definition set_scriptProcessor (v : ScriptProcessorNode) (e : Env) : Env :=
  {| timeouts := timeouts e; pendingFrame := pendingFrame e;
     intervalActive := intervalActive e; listenerActive := listenerActive e;
     scriptProcessor := v |}.

(** [node.onaudioprocess = ...] and [node.disconnect()] on the node. *)
Definition set_has_onaudioprocess (v : bool) (n : ScriptProcessorNode)
    : ScriptProcessorNode :=
  {| has_onaudioprocess := v; node_connected := node_connected n |}.

Definition set_node_connected (v : bool) (n : ScriptProcessorNode)
    : ScriptProcessorNode :=
  {| has_onaudioprocess := has_onaudioprocess n; node_connected := v |}.

Definition upd_hooks (f : Hooks -> Hooks) (s : State) : State :=
  {| hooks := f (hooks s); handles := handles s; refs := refs s; env := env s |}.

Definition upd_handles (f : Handles -> Handles) (s : State) : State :=
  {| hooks := hooks s; handles := f (handles s); refs := refs s; env := env s |}.

Definition upd_refs (f : Refs -> Refs) (s : State) : State :=
  {| hooks := hooks s; handles := handles s; refs := f (refs s); env := env s |}.

Definition upd_env (f : Env -> Env) (s : State) : State :=
  {| hooks := hooks s; handles := handles s; refs := refs s; env := f (env s) |}.

(** ** The handler monad *)

Inductive Outcome (A : Type) : Type :=
| Returned (a : A)
| Thrown (e : string).

Arguments Returned {A} a.
Arguments Thrown {A} e.

Definition M (A : Type) : Type := State -> Outcome A * State * list Effect.

Definition ret {A : Type} (a : A) : M A := fun s => (Returned a, s, []).

Definition bind {A B : Type} (m : M A) (k : A -> M B) : M B :=
  fun s =>
    match m s with
    | (Returned a, s1, l1) =>
        match k a s1 with
        | (o, s2, l2) => (o, s2, l1 ++ l2)
        end
    | (Thrown e, s1, l1) => (Thrown e, s1, l1)
    end.

Definition throw {A : Type} (e : string) : M A := fun s => (Thrown e, s, []).

(** [try { m } catch (e) { h e }] *)
Definition tryCatch {A : Type} (m : M A) (h : string -> M A) : M A :=
  fun s =>
    match m s with
    | (Returned a, s1, l1) => (Returned a, s1, l1)
    | (Thrown e, s1, l1) =>
        match h e s1 with
        | (o, s2, l2) => (o, s2, l1 ++ l2)
        end
    end.

Definition gets {A : Type} (f : State -> A) : M A := fun s => (Returned (f s), s, []).

Definition modify (f : State -> State) : M unit := fun s => (Returned tt, f s, []).

Definition emit (e : Effect) : M unit := fun s => (Returned tt, s, [e]).

Notation "x <- m ;; k" := (bind m (fun x => k))
  (at level 61, m at next level, right associativity).
Notation "m ;; k" := (bind m (fun _ => k))
  (at level 61, right associativity).

(** [if (c) { m }] *)
Definition when (c : bool) (m : M unit) : M unit := if c then m else ret tt.

(** [xs.forEach(f)] *)
Fixpoint forEach {A : Type} (xs : list A) (f : A -> M unit) : M unit :=
  match xs with
  | [] => ret tt
  | x :: xs' => f x ;; forEach xs' f
  end.

Definition stateOf {A : Type} (r : Outcome A * State * list Effect) : State :=
  snd (fst r).

Definition effectsOf {A : Type} (r : Outcome A * State * list Effect) : list Effect :=
  snd r.

Definition outcomeOf {A : Type} (r : Outcome A * State * list Effect) : Outcome A :=
  fst (fst r).

(** JavaScript truthiness of a number known to be an integer. *)
Definition truthy (z : Z) : bool := negb (z =? 0).

(** ** Browser and SDK calls *)

(** [session.close()] *)
Definition session_close (sess : LiveSession) : M unit :=
  emit ESessionClose ;;
  if close_throws sess then throw "close" else ret tt.

(** [source.stop()] *)
Definition source_stop (src : SourceNode) : M unit :=
  emit (ESourceStop (src_id src)) ;;
  if stop_throws src then throw "InvalidStateError" else ret tt.

(** [context.close()]: the first call starts closing the context; a call on
    a context that is already closing or closed returns a rejected promise
    and changes nothing. It never throws. *)
Definition context_close (w : Which) (c : AudioContext) : AudioContext * list Effect :=
  if ctx_closing c
  then (c, [EContextClose w; EPromiseRejected w])
  else ({| ctx_state := ctx_state c; ctx_closing := true |}, [EContextClose w]).

(** The browser settles a closing context: its [state] now reads ['closed']. *)
Definition context_settle (c : AudioContext) : AudioContext :=
  if ctx_closing c then {| ctx_state := closed; ctx_closing := true |} else c.

Definition is_closed (st : AudioContextState) : bool :=
  match st with closed => true | _ => false end.

(** The browser's side of [cancelAnimationFrame(id)]: the pending frame is
    dropped when it has this id. *)
Definition dropFrame (id : Z) (e : Env) : Env :=
  match pendingFrame e with
  | Some p => if p =? id then set_pendingFrame None e else e
  | None => e
  end.

(** [cancelAnimationFrame(id)] *)
Definition cancelAnimationFrame (id : Z) : M unit :=
  emit (ECancelAnimationFrame id) ;;
  modify (upd_env (dropFrame id)).

(** [setTimeout(cb, ms)] *)
Definition setTimeout (cb : Callback) (ms : Z) : M unit :=
  modify (upd_env (fun e =>
    set_timeouts (timeouts e ++ [{| callback := cb; delay := ms |}]) e)).

(** [setSystemMessageStatus(msg)] *)
Definition setSystemMessageStatus (msg : string) : M unit :=
  emit (ESetSystemMessage msg) ;;
  modify (upd_hooks (set_systemMessageStatus (Some msg))).

(** [setStatus(st)] *)
Definition setStatus (st : Status) : M unit :=
  modify (upd_hooks (set_status st)).

Definition newline : string := String (ascii_of_nat 10) EmptyString.

(** [lines.join('\n')] *)
Definition join (lines : list string) : string := String.concat newline lines.

(** ** 1. Cleanup and termination *)

(** [disconnect], lines 62-98. *)
Definition disconnect : M unit :=
  modify (upd_refs (set_isConnectedRef false)) ;;
  (sp <- gets (fun s => scriptProcessorRef (handles s)) ;;
   match sp with
   | Some TheScriptProcessor =>
       emit EClearOnAudioProcess ;;
       modify (upd_env (fun e =>
         set_scriptProcessor (set_has_onaudioprocess false (scriptProcessor e)) e)) ;;
       emit ENodeDisconnect ;;
       modify (upd_env (fun e =>
         set_scriptProcessor (set_node_connected false (scriptProcessor e)) e)) ;;
       modify (upd_handles (set_scriptProcessorRef None))
   | None => ret tt
   end) ;;
  (se <- gets (fun s => sessionRef (handles s)) ;;
   match se with
   | Some sess =>
       tryCatch (session_close sess) (fun _ => emit EConsoleError) ;;
       modify (upd_handles (set_sessionRef None))
   | None => ret tt
   end) ;;
  (st <- gets (fun s => streamRef (handles s)) ;;
   match st with
   | Some stream =>
       forEach (tracks stream) (fun t => emit (ETrackStop t)) ;;
       modify (upd_handles (set_streamRef None))
   | None => ret tt
   end) ;;
  (ac <- gets (fun s => audioContextRef (handles s)) ;;
   match ac with
   | Some c =>
       if is_closed (ctx_state c) then ret tt
       else
         forEach (snd (context_close Output c)) emit ;;
         modify (upd_handles (set_audioContextRef (Some (fst (context_close Output c)))))
   | None => ret tt
   end) ;;
  (ic <- gets (fun s => inputAudioContextRef (handles s)) ;;
   match ic with
   | Some c =>
       if is_closed (ctx_state c) then ret tt
       else
         forEach (snd (context_close Input c)) emit ;;
         modify (upd_handles (set_inputAudioContextRef (Some (fst (context_close Input c)))))
   | None => ret tt
   end) ;;
  (an <- gets (fun s => animationRef (handles s)) ;;
   when (truthy an) (cancelAnimationFrame an)) ;;
  (srcs <- gets (fun s => sourcesRef (handles s)) ;;
   forEach srcs (fun src => tryCatch (source_stop src) (fun _ => ret tt))) ;;
  emit ESourcesClear ;;
  modify (upd_handles (set_sourcesRef [])).

(** The callback scheduled by [handleTermination], lines 107-110. *)
Definition runCallback (cb : Callback) : M unit :=
  match cb with
  | ShutdownThenComplete reason =>
      disconnect ;;
      h <- gets (fun s => fullTranscriptHistory (refs s)) ;;
      emit (EOnComplete (join h) reason)
  end.

(** [handleTermination], lines 100-111. *)
Definition handleTermination (reason : string) : M unit :=
  t <- gets (fun s => terminationTriggeredRef (refs s)) ;;
  if t then ret tt
  else
    modify (upd_refs (set_terminationTriggeredRef true)) ;;
    setSystemMessageStatus ("Ending: " ++ reason)%string ;;
    setTimeout (ShutdownThenComplete reason) 2000.

(** ** Capture: voice activity and resampling *)

Section VoiceActivity.
Local Open Scope float_scope.

(** A frame is the [Float32Array] returned by [getChannelData(0)]; reading
    a sample gives a double, and the arithmetic on it is double
    arithmetic. *)
Definition Frame : Type := list float.

(** [let sum = 0; for (...) sum += inputData[i] * inputData[i];] *)
Definition sumSquares (inputData : Frame) : float :=
  fold_left (fun sum x => sum + x * x) inputData 0.

(** [inputData.length] as a number. *)
Definition lengthOf (inputData : Frame) : float :=
  PrimFloat.of_uint63 (Uint63.of_Z (Z.of_nat (List.length inputData))).

(** [Math.sqrt(sum / inputData.length)]; [Math.sqrt] is taken as the
    correctly rounded square root, which is what engines compute. *)
Definition rms (inputData : Frame) : float :=
  PrimFloat.sqrt (sumSquares inputData / lengthOf inputData).

(** The literal [0.02] of the test [rms > 0.02]: the double nearest to
    2/100. *)
Definition vadThreshold : float := 0x1.47ae147ae147bp-6.

(** The test [rms > 0.02]. *)
Definition speaking (inputData : Frame) : bool :=
  vadThreshold <? rms inputData.
End VoiceActivity.

Section Resampling.

(** Modelled from the spec: [downsampleBuffer] is imported from
    [../utils/audio], which is not among the sources; only its call site
    [downsampleBuffer(inputData, inputAudioContext.sampleRate, 16000)] is.
    The output has [floor(inputLen * targetRate / sourceRate)] samples. *)
Definition resampledLength (inputLen : nat) (sourceRate targetRate : Z) : nat :=
  Z.to_nat (Z.of_nat inputLen * targetRate / sourceRate).

(** Modelled from the spec: the fractional source index of output sample
    [k], that is [k * sourceRate / targetRate]. *)
Definition sourceIndex (sourceRate targetRate : Z) (k : nat) : Q :=
  Qmake (Z.of_nat k * sourceRate) (Z.to_pos targetRate).

(** Modelled from the spec: linear interpolation between the two input
    samples next to the fractional source index. A neighbour past the end
    of the frame reads as [0]. *)
Definition interpolate (frame : list Q) (sourceRate targetRate : Z) (k : nat) : Q :=
  let pos := sourceIndex sourceRate targetRate k in
  let idx := Qfloor pos in
  let frac := (pos - inject_Z idx)%Q in
  (nth (Z.to_nat idx) frame 0 * (1 - frac)
   + nth (Z.to_nat idx + 1) frame 0 * frac)%Q.

(** Modelled from the spec: [downsampleBuffer(frame, sourceRate, targetRate)]. *)
Definition downsampleBuffer (frame : list Q) (sourceRate targetRate : Z) : list Q :=
  map (interpolate frame sourceRate targetRate)
      (seq 0 (resampledLength (List.length frame) sourceRate targetRate)).
End Resampling.

(** ** Inbound messages *)

(** One entry of [message.toolCall.functionCalls]; [args_reason] is
    [(call.args as any)?.reason] when it is present. *)
Record FunctionCall : Type :=
  { fc_name : string; args_reason : option string }.

(** One entry of [serverContent.modelTurn.parts]. An inline audio payload
    is represented by the duration, in seconds, of the buffer it decodes
    to ([buffer.duration]). *)
Record Part : Type :=
  { part_text : option string; inlineData : option Q }.

(** A [LiveServerMessage]: [toolCall] is the list of function calls when
    the message carries a tool call, [parts] is
    [serverContent?.modelTurn?.parts] when that chain is defined. *)
Record LiveServerMessage : Type :=
  { toolCall : option (list FunctionCall);
    parts : option (list Part);
    turnComplete : bool }.

(** [message.serverContent?.modelTurn?.parts?.[0]] *)
Definition firstPart (message : LiveServerMessage) : option Part :=
  match parts message with
  | Some (p :: _) => Some p
  | _ => None
  end.

(** [parts?.[0]?.text] when it is truthy (defined and not empty). *)
Definition firstText (message : LiveServerMessage) : option string :=
  match firstPart message with
  | Some p =>
      match part_text p with
      | Some EmptyString => None
      | Some t => Some t
      | None => None
      end
  | None => None
  end.

(** [parts?.[0]?.inlineData] when it is defined. *)
Definition firstInlineData (message : LiveServerMessage) : option Q :=
  match firstPart message with
  | Some p => inlineData p
  | None => None
  end.

(** [(call.args as any)?.reason || "Completed"] *)
Definition reasonOf (call : FunctionCall) : string :=
  match args_reason call with
  | Some EmptyString => "Completed"
  | Some r => r
  | None => "Completed"
  end.

(** ** 3. Connection callbacks *)

(** [scriptProcessor.onaudioprocess], lines 248-271. [dateNow] is
    [Date.now()], [sampleRate] is [inputAudioContext.sampleRate]. *)
Definition onaudioprocess (inputData : Frame) (sampleRate : Z) (dateNow : Z) : M unit :=
  c <- gets (fun s => isConnectedRef (refs s)) ;;
  if negb c then ret tt
  else
    (if speaking inputData
     then
       modify (upd_refs (set_lastUserSpeechTimeRef dateNow)) ;;
       modify (upd_hooks (set_isUserSpeaking true)) ;;
       modify (upd_refs (set_isWaitingForResponseRef false))
     else
       modify (upd_hooks (set_isUserSpeaking false))) ;;
    let downsampled := resampledLength (List.length inputData) sampleRate 16000 in
    when (0 <? Z.of_nat downsampled) (emit (ESendRealtimeInput downsampled)).

(** [onopen], lines 242-272. The callback is assigned through the closure
    variable [scriptProcessor], not through the ref cell: it is installed
    on the node whether or not [scriptProcessorRef] still holds it. *)
Definition onopen : M unit :=
  m <- gets (fun s => isMountedRef (refs s)) ;;
  if negb m then ret tt
  else
    setStatus connected ;;
    modify (upd_refs (set_isConnectedRef true)) ;;
    modify (upd_env (fun e =>
      set_scriptProcessor (set_has_onaudioprocess true (scriptProcessor e)) e)).

(** The audio branch of [onmessage], lines 300-319: the decoded buffer is
    started at the cursor and the cursor advances by its duration. *)
Definition playAudio (currentTime duration : Q) : M unit :=
  next <- gets (fun s => nextAudioStartTimeRef (refs s)) ;;
  emit (ESourceStart next duration) ;;
  modify (upd_refs (set_nextAudioStartTimeRef (next + duration)%Q)) ;;
  modify (upd_refs (set_isAiSpeakingRef true)).

(** The audio branch of [onmessage] in the variant [part_001], lines
    259-278: the start time is clamped to the output clock. *)
Definition playAudio_part_001 (currentTime duration : Q) : M unit :=
  next <- gets (fun s => nextAudioStartTimeRef (refs s)) ;;
  let startTime := Qmax currentTime next in
  emit (ESourceStart startTime duration) ;;
  modify (upd_refs (set_nextAudioStartTimeRef (startTime + duration)%Q)) ;;
  modify (upd_refs (set_isAiSpeakingRef true)).

(** [onmessage], lines 273-320, over the audio branch [play].
    [currentTime] is [audioContext.currentTime] when the buffer is ready. *)
Definition onmessage_with (play : Q -> Q -> M unit)
    (message : LiveServerMessage) (currentTime : Q) : M unit :=
  m <- gets (fun s => isMountedRef (refs s)) ;;
  if negb m then ret tt
  else
    match toolCall message with
    | Some functionCalls =>
        match find (fun f => String.eqb (fc_name f) "endInterview") functionCalls with
        | Some call => handleTermination (reasonOf call)
        | None => ret tt
        end
    | None => ret tt
    end ;;
    match firstText message with
    | Some t =>
        modify (upd_hooks (fun h =>
          set_transcriptLines (transcriptLines h ++ [{| speaker := ai; text := t |}]) h)) ;;
        modify (upd_refs (fun r =>
          set_fullTranscriptHistory (fullTranscriptHistory r ++ [("AI: " ++ t)%string]) r)) ;;
        modify (upd_refs (set_isAiSpeakingRef true))
    | None => ret tt
    end ;;
    when (turnComplete message)
      (modify (upd_refs (set_isAiSpeakingRef false)) ;;
       modify (upd_refs (set_isWaitingForResponseRef true))) ;;
    match firstInlineData message with
    | Some duration => play currentTime duration
    | None => ret tt
    end.

Definition onmessage : LiveServerMessage -> Q -> M unit :=
  onmessage_with playAudio.

Definition onmessage_part_001 : LiveServerMessage -> Q -> M unit :=
  onmessage_with playAudio_part_001.

(** [src.onended], lines 314-318. *)
Definition onended (currentTime : Q) : M unit :=
  next <- gets (fun s => nextAudioStartTimeRef (refs s)) ;;
  when (Qle_bool next currentTime) (modify (upd_refs (set_isAiSpeakingRef false))).

(** [onerror], lines 321-324. *)
Definition onerror : M unit :=
  emit EConsoleError ;;
  setStatus error.

(** [onclose], lines 325-327. *)
Definition onclose : M unit :=
  setStatus error.

(** ** Proctoring: timer and tab switching *)

(** The updater run by [timerInterval] once per second, lines 369-377. *)
Definition timerTick : M unit :=
  prev <- gets (fun s => timeLeft (hooks s)) ;;
  if prev <=? 1
  then
    handleTermination "Time Limit Exceeded" ;;
    modify (upd_hooks (set_timeLeft 0))
  else
    modify (upd_hooks (set_timeLeft (prev - 1))).

(** Decimal rendering of a counter inside a template literal. *)
Definition showNumber (z : Z) : string := NilZero.string_of_int (Z.to_int z).

(** [handleVisibilityChange], lines 379-387; [hidden] is [document.hidden]. *)
Definition handleVisibilityChange (hidden : bool) : M unit :=
  when hidden
    (modify (upd_refs (fun r => set_tabSwitchCountRef (tabSwitchCountRef r + 1) r)) ;;
     n <- gets (fun s => tabSwitchCountRef (refs s)) ;;
     setSystemMessageStatus
       ("Warning: Tab switch detected (" ++ showNumber n ++ "/3)")%string ;;
     when (3 <=? n) (handleTermination "Disqualified: Excessive Tab Switching")).

(** The [onClick] of the End Interview button, line 422. *)
Definition endInterviewClick : M unit :=
  handleTermination "User ended session".

(** One animation frame of [draw], lines 125-128; [nextId] is the id
    returned by the nested [requestAnimationFrame]. *)
Definition draw (nextId : Z) : M unit :=
  m <- gets (fun s => isMountedRef (refs s)) ;;
  if negb m then ret tt
  else
    modify (upd_handles (set_animationRef nextId)) ;;
    modify (upd_env (set_pendingFrame (Some nextId))).

(** The effect cleanup, lines 390-395. *)
Definition unmount : M unit :=
  modify (upd_refs (set_isMountedRef false)) ;;
  modify (upd_env (set_intervalActive false)) ;;
  modify (upd_env (set_listenerActive false)) ;;
  disconnect.

(** ** The component as an event-driven machine *)

(** Everything the browser, the SDK or the user can make the component
    run. [TimeoutFires] runs the oldest pending [setTimeout] callback,
    [ContextsSettle] is the browser settling closing audio contexts. *)
Inductive Event : Type :=
| Open
| Message (message : LiveServerMessage) (currentTime : Q)
| TransportError
| TransportClose
| AudioProcess (inputData : Frame) (sampleRate dateNow : Z)
| SourceEnded (currentTime : Q)
| TimerTick
| VisibilityChange (hidden : bool)
| EndInterviewClick
| AnimationFrame (nextId : Z)
| TimeoutFires
| ContextsSettle
| Unmount.

(** The code run for an event. An event whose registration is gone (the
    interval after [clearInterval], the listener after
    [removeEventListener], a frame that was cancelled, a capture callback
    that was cleared) runs nothing. *)
Definition handler (ev : Event) : M unit :=
  match ev with
  | Open => onopen
  | Message message currentTime => onmessage message currentTime
  | TransportError => onerror
  | TransportClose => onclose
  | AudioProcess inputData sampleRate dateNow =>
      n <- gets (fun s => scriptProcessor (env s)) ;;
      if has_onaudioprocess n then onaudioprocess inputData sampleRate dateNow
      else ret tt
  | SourceEnded currentTime => onended currentTime
  | TimerTick =>
      a <- gets (fun s => intervalActive (env s)) ;;
      when a timerTick
  | VisibilityChange hidden =>
      a <- gets (fun s => listenerActive (env s)) ;;
      when a (handleVisibilityChange hidden)
  | EndInterviewClick => endInterviewClick
  | AnimationFrame nextId =>
      p <- gets (fun s => pendingFrame (env s)) ;;
      match p with
      | Some _ => modify (upd_env (set_pendingFrame None)) ;; draw nextId
      | None => ret tt
      end
  | TimeoutFires =>
      ts <- gets (fun s => timeouts (env s)) ;;
      match ts with
      | t :: rest =>
          modify (upd_env (set_timeouts rest)) ;;
          runCallback (callback t)
      | [] => ret tt
      end
  | ContextsSettle =>
      modify (upd_handles (fun h =>
        set_audioContextRef (option_map context_settle (audioContextRef h))
          (set_inputAudioContextRef
             (option_map context_settle (inputAudioContextRef h)) h)))
  | Unmount => unmount
  end.

Definition step (s : State) (ev : Event) : State * list Effect :=
  let r := handler ev s in (stateOf r, effectsOf r).

(** Running a sequence of events; the effects accumulate in order. *)
Fixpoint run (evs : list Event) (s : State) : State * list Effect :=
  match evs with
  | [] => (s, [])
  | ev :: evs' =>
      let (s1, l1) := step s ev in
      let (s2, l2) := run evs' s1 in
      (s2, l1 ++ l2)
  end.

(** *** Reference states *)

(** The cells as the component function creates them. *)
Definition initialState : State :=
  {| hooks := {| status := connecting; transcriptLines := [];
                 isUserSpeaking := false; systemMessageStatus := None;
                 timeLeft := 600 |};
     handles := {| audioContextRef := None; inputAudioContextRef := None;
                   scriptProcessorRef := None; sourcesRef := [];
                   sessionRef := None; streamRef := None; animationRef := 0 |};
     refs := {| isMountedRef := false; nextAudioStartTimeRef := 0;
                terminationTriggeredRef := false; isConnectedRef := false;
                isAiSpeakingRef := false; lastUserSpeechTimeRef := 0;
                fullTranscriptHistory := []; isWaitingForResponseRef := false;
                tabSwitchCountRef := 0 |};
     env := {| timeouts := []; pendingFrame := None;
               intervalActive := false; listenerActive := false;
               scriptProcessor :=
                 {| has_onaudioprocess := false; node_connected := false |} |} |}.

(** A session in full flight: the effect has run, both contexts, the
    stream (one audio and one video track), the script processor and the
    session handle are held, the transport is open, the draw loop has a
    frame pending. *)
Definition liveState : State :=
  {| hooks := {| status := connected; transcriptLines := [];
                 isUserSpeaking := false; systemMessageStatus := None;
                 timeLeft := 600 |};
     handles := {| audioContextRef := Some {| ctx_state := running; ctx_closing := false |};
                   inputAudioContextRef := Some {| ctx_state := running; ctx_closing := false |};
                   scriptProcessorRef := Some TheScriptProcessor;
                   sourcesRef := [];
                   sessionRef := Some {| close_throws := false |};
                   streamRef := Some {| tracks := [1; 2] |};
                   animationRef := 1 |};
     refs := {| isMountedRef := true; nextAudioStartTimeRef := 0;
                terminationTriggeredRef := false; isConnectedRef := true;
                isAiSpeakingRef := false; lastUserSpeechTimeRef := 0;
                fullTranscriptHistory := []; isWaitingForResponseRef := false;
                tabSwitchCountRef := 0 |};
     env := {| timeouts := []; pendingFrame := Some 1;
               intervalActive := true; listenerActive := true;
               scriptProcessor :=
                 {| has_onaudioprocess := true; node_connected := true |} |} |}.

(** * The rest of the application *)

(** ** The header's clock *)

(** [str.padStart(targetLength, pad)] for a one-character [pad]. *)
Definition padStart (targetLength : nat) (pad : ascii) (str : string) : string :=
  (String.concat "" (repeat (String pad "") (targetLength - String.length str)) ++ str)%string.

(** The timer shown in the header, line 418:
    [{Math.floor(timeLeft / 60)}:{String(timeLeft % 60).padStart(2, '0')}]. *)
Definition timerText (timeLeft : Z) : string :=
  (showNumber (timeLeft / 60) ++ ":" ++ padStart 2 "0" (showNumber (Z.rem timeLeft 60)))%string.

(** ** The candidate form *)

(** Text typed into the form, as UTF-16 code units. *)
Definition Text : Type := list N.

(** The code units [String.prototype.trim] strips: the ECMAScript white
    space and line terminator code points. *)
Definition isWhiteSpace (c : N) : bool :=
  existsb (N.eqb c)
    [9; 10; 11; 12; 13; 32; 160; 5760; 8192; 8193; 8194; 8195; 8196; 8197; 8198;
     8199; 8200; 8201; 8202; 8232; 8233; 8239; 8287; 12288; 65279]%N.

(** [str.trimStart()] *)
Fixpoint trimStart (str : Text) : Text :=
  match str with
  | c :: rest => if isWhiteSpace c then trimStart rest else str
  | [] => []
  end.

(** [str.trimEnd()] *)
Definition trimEnd (str : Text) : Text := rev (trimStart (rev str)).

(** [str.trim()] *)
Definition trim (str : Text) : Text := trimEnd (trimStart str).

(** Truthiness of a string: it is not empty. *)
Definition nonEmpty (str : Text) : bool :=
  match str with [] => false | _ => true end.

(** [CandidateInfo], as the form builds it. *)
Record CandidateInfo : Type :=
  { name : Text; jobDescription : Text; field : Text; language : Text }.

(** What [handleSubmit] does besides reading the form state. *)
Inductive FormEffect : Type :=
| PreventDefault
| ConsoleLog
| OnSubmit (info : CandidateInfo)
| Alert (message : string).

(** [handleSubmit] of [CandidateForm.tsx], lines 33-44; the form state is
    the four [useState] cells. *)
Definition handleSubmit (form : CandidateInfo) : list FormEffect :=
  [PreventDefault; ConsoleLog]
  ++ (if nonEmpty (trim (name form)) && nonEmpty (trim (jobDescription form))
         && nonEmpty (field form) && nonEmpty (language form)
      then [OnSubmit {| name := name form; jobDescription := jobDescription form;
                        field := field form; language := language form |}]
      else [Alert ("Please fill in all fields:" ++ newline ++ "- Name" ++ newline
                   ++ "- Role" ++ newline ++ "- Job Description")%string]).

(** [handleSubmit] of the variant [part_002], lines 34-41: no trimming. *)
Definition handleSubmit_part_002 (form : CandidateInfo) : list FormEffect :=
  [PreventDefault]
  ++ (if nonEmpty (name form) && nonEmpty (jobDescription form)
         && nonEmpty (field form) && nonEmpty (language form)
      then [OnSubmit {| name := name form; jobDescription := jobDescription form;
                        field := field form; language := language form |}]
      else [Alert "Please fill in all fields (Name, Role, Language, and Job Description)."]).

(** ** The application shell, [App.tsx] *)

(** [AppStep] of [types.ts], as [App.tsx] uses it. *)
Inductive AppStep : Type := FORM | INSTRUCTIONS | INTERVIEW | EVALUATING | RESULT.

(** One entry of [InterviewResult.questions]. *)
Record QuestionResult : Type :=
  { question : string; question_rating : Z; question_feedback : string;
    candidateAnswerSummary : string }.

(** [InterviewResult] of [types.ts], as [App.tsx] builds it. *)
Record InterviewResult : Type :=
  { rating : Z; feedback : string; passed : bool;
    questions : list QuestionResult; terminationReason : option string }.

(** The [useState] cells of [App]. *)
Record AppState : Type :=
  { appStep : AppStep; candidate : option CandidateInfo;
    result : option InterviewResult }.

(** The object [JSON.parse(response.text || '{}')] yields: each field is
    present or not. *)
Record EvaluationData : Type :=
  { data_rating : option Z; data_feedback : option string;
    data_questions : option (list QuestionResult) }.

(** How the [try] block of [handleInterviewComplete] goes once the request
    is made: [generateContent] or [JSON.parse] throws, or the response
    parses to an object. *)
Inductive EvaluationOutcome : Type :=
| EvaluationThrows
| EvaluationParsed (data : EvaluationData).

(** What [handleInterviewComplete] leaves to happen later: a [setTimeout]
    that will show a result already decided, or the awaited evaluation. *)
Inductive Pending : Type :=
| ShowAfter (ms : Z) (r : InterviewResult)
| AwaitEvaluation.

(** [handleFormSubmit], lines 14-18. *)
Definition handleFormSubmit (info : CandidateInfo) (st : AppState) : AppState :=
  {| appStep := INSTRUCTIONS; candidate := Some info; result := result st |}.

(** [startInterview], lines 20-22. *)
Definition startInterview (st : AppState) : AppState :=
  {| appStep := INTERVIEW; candidate := candidate st; result := result st |}.

(** [resetApp], lines 89-94. *)
Definition resetApp (st : AppState) : AppState :=
  {| appStep := FORM; candidate := None; result := None |}.

(** [terminationReason && terminationReason !== "Completed"] *)
Definition disqualifies (terminationReason : option string) : bool :=
  match terminationReason with
  | Some r => negb (String.eqb r "") && negb (String.eqb r "Completed")
  | None => false
  end.

(** [handleInterviewComplete] up to its first suspension, lines 24-53;
    [apiKey] is [process.env.API_KEY]. *)
Definition handleInterviewComplete (transcript : string)
    (terminationReason : option string) (apiKey : option string)
    (st : AppState) : AppState * Pending :=
  let st1 := {| appStep := EVALUATING; candidate := candidate st; result := result st |} in
  if disqualifies terminationReason
  then (st1, ShowAfter 1500
               {| rating := 0;
                  feedback := "Interview terminated early by proctoring system.";
                  passed := false; questions := [];
                  terminationReason := terminationReason |})
  else
    match apiKey with
    | None | Some EmptyString =>
        (st1, ShowAfter 2000
                {| rating := 7; feedback := "Great interview (Demo Mode).";
                   passed := true; questions := []; terminationReason := None |})
    | Some _ => (st1, AwaitEvaluation)
    end.

(** [data.rating || 0] *)
Definition ratingOrZero (data : EvaluationData) : Z :=
  match data_rating data with Some r => r | None => 0 end.

(** The result built from the evaluation, lines 74-86. *)
Definition evaluationResult (outcome : EvaluationOutcome) : InterviewResult :=
  match outcome with
  | EvaluationParsed data =>
      {| rating := ratingOrZero data;
         feedback := match data_feedback data with
                     | Some EmptyString | None => "Evaluation complete."
                     | Some f => f
                     end;
         passed := 6 <? ratingOrZero data;
         questions := match data_questions data with Some q => q | None => [] end;
         terminationReason := None |}
  | EvaluationThrows =>
      {| rating := 0; feedback := "Evaluation failed."; passed := false;
         questions := []; terminationReason := None |}
  end.

(** The continuation of [handleInterviewComplete]: the timer fires, or the
    awaited evaluation settles; either way [setResult] then
    [setStep(AppStep.RESULT)]. *)
Definition settle (p : Pending) (outcome : EvaluationOutcome) (st : AppState) : AppState :=
  {| appStep := RESULT; candidate := candidate st;
     result := Some match p with
                    | ShowAfter _ r => r
                    | AwaitEvaluation => evaluationResult outcome
                    end |}.

(** The screen [App] renders in its main area, lines 118-139; [None] when
    no branch of the JSX applies. *)
Inductive Screen : Type :=
| CandidateFormScreen
| InstructionsScreen
| InterviewSessionScreen (c : CandidateInfo)
| EvaluatingScreen
| ResultScreen (r : InterviewResult) (c : CandidateInfo).

Definition screen (st : AppState) : option Screen :=
  match appStep st with
  | FORM => Some CandidateFormScreen
  | INSTRUCTIONS => Some InstructionsScreen
  | INTERVIEW =>
      match candidate st with Some c => Some (InterviewSessionScreen c) | None => None end
  | EVALUATING => Some EvaluatingScreen
  | RESULT =>
      match result st, candidate st with
      | Some r, Some c => Some (ResultScreen r c)
      | _, _ => None
      end
  end.

(** What can happen to [App]: the callbacks of the screen it shows, and the
    pending continuation of [handleInterviewComplete]. *)
Inductive AppEvent : Type :=
| FormSubmitted (info : CandidateInfo)
| StartClicked
| SessionCompleted (transcript : string) (terminationReason apiKey : option string)
| PendingSettles (outcome : EvaluationOutcome)
| ResetClicked.

(** One step of [App] with its pending continuation. A callback runs only
    when the screen that owns it is shown. *)
Definition appStepOn (a : AppState * option Pending) (ev : AppEvent)
    : AppState * option Pending :=
  let (st, p) := a in
  match ev, screen st, p with
  | FormSubmitted info, Some CandidateFormScreen, _ => (handleFormSubmit info st, p)
  | StartClicked, Some InstructionsScreen, _ => (startInterview st, p)
  | SessionCompleted transcript reason apiKey, Some (InterviewSessionScreen _), _ =>
      let r := handleInterviewComplete transcript reason apiKey st in
      (fst r, Some (snd r))
  | PendingSettles outcome, _, Some pending => (settle pending outcome st, None)
  | ResetClicked, Some (ResultScreen _ _), _ => (resetApp st, p)
  | _, _, _ => a
  end.

Definition appRun (evs : list AppEvent) (a : AppState * option Pending)
    : AppState * option Pending :=
  fold_left appStepOn evs a.

(** [App] as it mounts. *)
Definition appStart : AppState * option Pending :=
  ({| appStep := FORM; candidate := None; result := None |}, None).

(** ** The mute button of the variant [part_001] *)

(** The [isMuted] cell and the [enabled] flags of the audio tracks of
    [streamRef.current], when there is a stream. *)
Record MuteState : Type :=
  { isMuted : bool; audioTracksEnabled : option (list bool) }.

(** [toggleMute] of [part_001], lines 325-331. *)
Definition toggleMute (m : MuteState) : MuteState :=
  match audioTracksEnabled m with
  | Some tracks =>
      {| isMuted := negb (isMuted m);
         audioTracksEnabled := Some (map (fun _ => negb (isMuted m)) tracks) |}
  | None => m
  end.

(** * Vocabulary of the properties *)

(** ** The outcome of [disconnect] *)

(** What [disconnect] leaves in an audio context cell. *)
Definition closedContext (w : Which) (c : option AudioContext) : option AudioContext :=
  match c with
  | Some c => if is_closed (ctx_state c) then Some c else Some (fst (context_close w c))
  | None => None
  end.

(** The calls [disconnect] makes on an audio context cell. *)
Definition closeEffects (w : Which) (c : option AudioContext) : list Effect :=
  match c with
  | Some c => if is_closed (ctx_state c) then [] else snd (context_close w c)
  | None => []
  end.

(** What [disconnect] leaves of the script processor node: when the ref
    cell holds it, its callback is cleared and it is disconnected;
    otherwise it is not touched. *)
Definition detachedCapture (s : State) : Env :=
  match scriptProcessorRef (handles s) with
  | Some _ =>
      set_scriptProcessor
        {| has_onaudioprocess := false; node_connected := false |} (env s)
  | None => env s
  end.

(** The state [disconnect] ends in. *)
Definition disconnected (s : State) : State :=
  {| hooks := hooks s;
     handles :=
       {| audioContextRef := closedContext Output (audioContextRef (handles s));
          inputAudioContextRef := closedContext Input (inputAudioContextRef (handles s));
          scriptProcessorRef := None;
          sourcesRef := [];
          sessionRef := None;
          streamRef := None;
          animationRef := animationRef (handles s) |};
     refs := set_isConnectedRef false (refs s);
     env := if truthy (animationRef (handles s))
            then dropFrame (animationRef (handles s)) (detachedCapture s)
            else detachedCapture s |}.

(** The calls [disconnect] makes, in order. *)
Definition disconnectEffects (s : State) : list Effect :=
  match scriptProcessorRef (handles s) with
  | Some _ => [EClearOnAudioProcess; ENodeDisconnect]
  | None => []
  end
  ++ match sessionRef (handles s) with
     | Some sess => ESessionClose :: (if close_throws sess then [EConsoleError] else [])
     | None => []
     end
  ++ match streamRef (handles s) with
     | Some stream => map ETrackStop (tracks stream)
     | None => []
     end
  ++ closeEffects Output (audioContextRef (handles s))
  ++ closeEffects Input (inputAudioContextRef (handles s))
  ++ (if truthy (animationRef (handles s))
      then [ECancelAnimationFrame (animationRef (handles s))] else [])
  ++ map (fun src => ESourceStop (src_id src)) (sourcesRef (handles s))
  ++ [ESourcesClear].

(** ** Transition relations respected by handlers *)

(** A handler respects the relation [R] when every run of it, from any
    state, is related by [R]. *)
Definition obeys (R : State -> State -> list Effect -> Prop) {A : Type} (m : M A) : Prop :=
  forall s, R s (stateOf (m s)) (effectsOf (m s)).

(** ** Single-shot termination *)

(** The reasons handed to [onComplete] so far. *)
Definition completed (l : list Effect) : list string :=
  flat_map (fun e => match e with EOnComplete _ reason => [reason] | _ => [] end) l.

(** The pending callback that [handleTermination reason] schedules. *)
Definition shutdownOf (reason : string) : Timeout :=
  {| callback := ShutdownThenComplete reason; delay := 2000 |}.

(** The state after the first [handleTermination reason]. *)
Definition terminating (reason : string) (s : State) : State :=
  upd_env (fun e => set_timeouts (timeouts e ++ [shutdownOf reason]) e)
    (upd_hooks (set_systemMessageStatus (Some ("Ending: " ++ reason)%string))
       (upd_refs (set_terminationTriggeredRef true) s)).

(** What a handler other than the scheduled callback may do to the
    termination flag and to the pending callbacks: nothing, or set the flag
    for the first time and schedule one shutdown. It never calls
    [onComplete] itself. *)
Definition mayTerminate (s s' : State) (l : list Effect) : Prop :=
  completed l = []
  /\ ((terminationTriggeredRef (refs s') = terminationTriggeredRef (refs s)
       /\ timeouts (env s') = timeouts (env s))
      \/ (terminationTriggeredRef (refs s) = false
          /\ terminationTriggeredRef (refs s') = true
          /\ exists reason,
               timeouts (env s') = timeouts (env s) ++ [shutdownOf reason])).

(** Any call but [onComplete]. *)
Definition notComplete (e : Effect) : Prop :=
  match e with EOnComplete _ _ => False | _ => True end.

(** The single-shot invariant: while the flag is clear nothing is pending
    and nothing was completed; once it is set there is exactly one recorded
    reason, whose shutdown is either still pending or has run once. *)
Definition singleShot (s : State) (done : list string) : Prop :=
  if terminationTriggeredRef (refs s)
  then exists reason,
         (timeouts (env s) = [shutdownOf reason] /\ done = [])
         \/ (timeouts (env s) = [] /\ done = [reason])
  else timeouts (env s) = [] /\ done = [].

(** Every run of [disconnect] ends with one [clear()] of the sources, and
    nothing else calls it. *)
Definition isSourcesClear (e : Effect) : bool :=
  match e with ESourcesClear => true | _ => false end.

(** The number of shutdown sequences executed among the calls [l]. *)
Definition shutdownRuns (l : list Effect) : nat :=
  List.length (filter isSourcesClear l).

(** What a handler that is neither the scheduled callback nor the unmount
    cleanup does: no shutdown sequence. *)
Definition noShutdown (s s' : State) (l : list Effect) : Prop :=
  shutdownRuns l = 0%nat.

(** A message that carries one [endInterview] tool call. *)
Definition endInterviewMessage (reason : option string) : LiveServerMessage :=
  {| toolCall := Some [{| fc_name := "endInterview"; args_reason := reason |}];
     parts := None; turnComplete := false |}.

(** ** The shutdown sequence *)

(** The six shutdown steps the design names. *)
Inductive ShutdownStep : Type :=
| DetachCapture
| CloseTransport
| StopPlayback
| ReleaseCaptureDevice
| CancelTimers
| ReleaseOutputDevice.

(** The step a call belongs to, if any. *)
Definition stepOf (e : Effect) : option ShutdownStep :=
  match e with
  | EClearOnAudioProcess | ENodeDisconnect => Some DetachCapture
  | ESessionClose => Some CloseTransport
  | ESourceStop _ | ESourcesClear => Some StopPlayback
  | ETrackStop _ => Some ReleaseCaptureDevice
  | ECancelAnimationFrame _ => Some CancelTimers
  | EContextClose Output => Some ReleaseOutputDevice
  | _ => None
  end.

(** The shutdown steps behind the calls [l], in the order of the calls. *)
Definition steps (l : list Effect) : list ShutdownStep :=
  flat_map (fun e => match stepOf e with Some st => [st] | None => [] end) l.

(** Position of a step in the order the design document gives:
    detach capture, close transport, stop playback, release capture
    device, cancel timers, release output device. *)
Definition specRank (st : ShutdownStep) : nat :=
  match st with
  | DetachCapture => 0
  | CloseTransport => 1
  | StopPlayback => 2
  | ReleaseCaptureDevice => 3
  | CancelTimers => 4
  | ReleaseOutputDevice => 5
  end.

(** Position of a step in the order [disconnect] is written in:
    detach capture, close transport, release capture device, release
    output device, cancel the animation frame, stop playback. *)
Definition codeRank (st : ShutdownStep) : nat :=
  match st with
  | DetachCapture => 0
  | CloseTransport => 1
  | ReleaseCaptureDevice => 2
  | ReleaseOutputDevice => 3
  | CancelTimers => 4
  | StopPlayback => 5
  end.

(** Each number is at most the next one. *)
Fixpoint nondecreasing (l : list nat) : bool :=
  match l with
  | a :: (b :: _) as t => (a <=? b)%nat && nondecreasing t
  | _ => true
  end.

(** The calls in [l] occur in the order given by [rank]. *)
Definition inOrder (rank : ShutdownStep -> nat) (l : list Effect) : bool :=
  nondecreasing (map rank (steps l)).

(** ** Defensive cleanup *)

(** No release call: what a repeated [disconnect] may still emit are calls
    that find nothing to do. *)
Definition releasesNothing (e : Effect) : Prop :=
  match e with
  | EClearOnAudioProcess | ENodeDisconnect | ESessionClose
  | ETrackStop _ | ESourceStop _ => False
  | _ => True
  end.

(** Any call but the [console.error] of a caught failure. *)
Definition isRelease (e : Effect) : bool :=
  match e with EConsoleError => false | _ => true end.

(** The same state with handles that do not fail: a session whose
    [close()] returns and sources whose [stop()] returns. *)
Definition withoutFailures (s : State) : State :=
  upd_handles
    (fun h =>
       set_sessionRef
         (option_map (fun _ => {| close_throws := false |}) (sessionRef h))
         (set_sourcesRef
            (map (fun src => {| src_id := src_id src; stop_throws := false |})
               (sourcesRef h)) h))
    s.

(** A session whose transport handle throws on [close()] and which holds
    two scheduled sources, the first of which throws on [stop()]. *)
Definition faultyState : State :=
  upd_handles
    (fun h =>
       set_sessionRef (Some {| close_throws := true |})
         (set_sourcesRef [{| src_id := 7; stop_throws := true |};
                          {| src_id := 8; stop_throws := false |}] h))
    liveState.

(** ** Transport failure *)

(** A shutdown has been triggered: a shutdown callback is pending, or
    shutdown calls were made. *)
Definition shutdownTriggered (r : State * list Effect) : Prop :=
  timeouts (env (fst r)) <> [] \/ steps (snd r) <> [].

(** ** Proctoring *)

(** The warning shown for the [n]-th tab switch. *)
Definition tabSwitchWarning (n : Z) : Effect :=
  ESetSystemMessage ("Warning: Tab switch detected (" ++ showNumber n ++ "/3)")%string.

(** The reason given when the tab-switch threshold is reached. *)
Definition tabSwitchReason : string := "Disqualified: Excessive Tab Switching".

(** *** Countdown *)

(** The reason given when the countdown runs out. *)
Definition timeLimitReason : string := "Time Limit Exceeded".

(** [n] one-second ticks. *)
Definition ticks (n : nat) (s : State) : State * list Effect :=
  run (repeat TimerTick n) s.

(** ** Voice activity *)

(** A frame of four [Float32] samples whose RMS, as [onaudioprocess]
    computes it, is the double [0.02] itself. *)
Definition boundaryFrame : Frame :=
  [0x1.cf2cfap-6; 0x1.cf2cfap-6; 0x1.4d0cd4p-10; 0x1.0d9d08p-22]%float.

(** ** The transcript *)

(** An entry of the history written by the agent-text branch. *)
Definition agentEntry (e : string) : Prop := exists t, e = ("AI: " ++ t)%string.

(** A history made of agent entries only. *)
Definition agentOnly (h : list string) : Prop := Forall agentEntry h.

(** What a handler other than the scheduled callback may do to the
    history: append agent entries. It never calls [onComplete]. *)
Definition appendsAgent (s s' : State) (l : list Effect) : Prop :=
  (exists added,
      fullTranscriptHistory (refs s') = fullTranscriptHistory (refs s) ++ added
      /\ agentOnly added)
  /\ Forall notComplete l.

(** ** Playback scheduling *)

Section PlaybackSchedule.
Local Open Scope Q_scope.

(** [src.start(when)]: playback begins at [when], or at once when [when]
    is already past on the output clock. *)
Definition actualStart (currentTime when_ : Q) : Q := Qmax currentTime when_.

(** A message that carries one audio delta of the given duration. *)
Definition audioMessage (duration : Q) : LiveServerMessage :=
  {| toolCall := None;
     parts := Some [{| part_text := None; inlineData := Some duration |}];
     turnComplete := false |}.

(** The [start] calls among the effects: start time and duration. *)
Definition starts (l : list Effect) : list (Q * Q) :=
  flat_map (fun e => match e with ESourceStart w d => [(w, d)] | _ => [] end) l.

(** The schedule the design describes, for deltas given as (clock on
    arrival, duration): [startTime = max(clock, cursor)], then
    [cursor = startTime + duration]. *)
Fixpoint scheduleSpec (cursor : Q) (deltas : list (Q * Q)) : list (Q * Q) :=
  match deltas with
  | [] => []
  | (currentTime, duration) :: rest =>
      let startTime := Qmax currentTime cursor in
      (startTime, duration) :: scheduleSpec (startTime + duration) rest
  end.

(** No unit starts before the previous one has ended. *)
Fixpoint gapless (cursor : Q) (units : list (Q * Q)) : Prop :=
  match units with
  | [] => True
  | (startTime, duration) :: rest =>
      cursor <= startTime /\ gapless (startTime + duration) rest
  end.

(** The sum of the durations of the units. *)
Definition totalDuration (units : list (Q * Q)) : Q :=
  fold_right (fun u acc => snd u + acc) 0 units.

(** The audio branch of [part_001] on a run of deltas. *)
Definition playAll_part_001 (deltas : list (Q * Q)) : M unit :=
  forEach deltas (fun nd => playAudio_part_001 (fst nd) (snd nd)).

End PlaybackSchedule.

(** ** Tool calls *)

(** [functionCalls?.find(f => f.name === 'endInterview')] *)
Definition endInterviewCall (message : LiveServerMessage) : option FunctionCall :=
  match toolCall message with
  | Some functionCalls =>
      find (fun f => String.eqb (fc_name f) "endInterview") functionCalls
  | None => None
  end.

(** ** After the unmount *)

(** The events whose handler looks at [isMountedRef], or whose registration
    the cleanup removes. *)
Definition stoppedByUnmount (ev : Event) : bool :=
  match ev with
  | Open | Message _ _ | TimerTick | VisibilityChange _ | AudioProcess _ _ _ => true
  | _ => false
  end.

(** What the cleanup leaves behind. *)
Definition unmounted (s : State) : Prop :=
  isMountedRef (refs s) = false
  /\ intervalActive (env s) = false
  /\ listenerActive (env s) = false
  /\ isConnectedRef (refs s) = false.

(** ** After the shutdown *)

(** Any call but sending an audio chunk. *)
Definition notSend (e : Effect) : Prop :=
  match e with ESendRealtimeInput _ => False | _ => True end.

(** A handler that, run with the connection flag clear, leaves it clear
    and sends nothing. *)
Definition staysDisconnected (s s' : State) (l : list Effect) : Prop :=
  isConnectedRef (refs s) = false ->
  isConnectedRef (refs s') = false /\ Forall notSend l.

(** ** The playback cursor of [onmessage] *)

(** The messages that deliver the audio deltas, given as (clock on arrival,
    duration). *)
Definition audioEvents (deltas : list (Q * Q)) : list Event :=
  map (fun nd => Message (audioMessage (snd nd)) (fst nd)) deltas.

(** ** The two transcripts *)

(** The history entry written for a displayed line. *)
Definition historyEntry (l : TranscriptLine) : string := ("AI: " ++ text l)%string.

(** The history handed to [onComplete] lists the displayed lines, and every
    displayed line is the agent's. *)
Definition transcriptInSync (s : State) : Prop :=
  fullTranscriptHistory (refs s) = map historyEntry (transcriptLines (hooks s))
  /\ Forall (fun l => speaker l = ai) (transcriptLines (hooks s)).

(** A handler that touches neither transcript. *)
Definition keepsTranscripts (s s' : State) (l : list Effect) : Prop :=
  fullTranscriptHistory (refs s') = fullTranscriptHistory (refs s)
  /\ transcriptLines (hooks s') = transcriptLines (hooks s).

(** ** The header's clock *)

(** The character of a decimal digit. *)
Definition digitChar (d : Z) : ascii := ascii_of_nat (48 + Z.to_nat d).

(** ** The candidate form *)

(** The text holds a code unit that [trim] would keep. *)
Definition hasVisible (str : Text) : Prop :=
  exists c, In c str /\ isWhiteSpace c = false.

(** A form whose name is only blanks: three spaces. *)
Definition blankNameForm : CandidateInfo :=
  {| name := [32; 32; 32]%N; jobDescription := [82; 101; 97; 99; 116]%N;
     field := [81; 65]%N; language := [69; 110]%N |}.

(** ** The application shell *)

(** The result [App] ends up showing for a completed session. *)
Definition shownResult (transcript : string) (terminationReason : option string)
    (apiKey : option string) (outcome : EvaluationOutcome) (st : AppState)
    : option InterviewResult :=
  result (settle (snd (handleInterviewComplete transcript terminationReason apiKey st))
            outcome
            (fst (handleInterviewComplete transcript terminationReason apiKey st))).

(** *** The screens *)

(** The cells agree with the step: a candidate from the interview on, a
    result on the result step, something pending exactly while evaluating. *)
Definition appConsistent (a : AppState * option Pending) : Prop :=
  match appStep (fst a) with
  | FORM | INSTRUCTIONS => snd a = None
  | INTERVIEW => candidate (fst a) <> None /\ snd a = None
  | EVALUATING => candidate (fst a) <> None /\ snd a <> None
  | RESULT => candidate (fst a) <> None /\ result (fst a) <> None /\ snd a = None
  end.

(** ** Where a termination reason comes from *)

(** The reasons written in the component itself. *)
Definition builtinReason (r : string) : Prop :=
  r = timeLimitReason \/ r = tabSwitchReason \/ r = "User ended session".

(** The reason is that of an [endInterview] call carried by the event. *)
Definition toolReasonOf (ev : Event) (r : string) : Prop :=
  match ev with
  | Message message _ =>
      exists calls call,
        toolCall message = Some calls /\ In call calls
        /\ fc_name call = "endInterview" /\ reasonOf call = r
  | _ => False
  end.

(** The reason a pending callback was created with. *)
Definition reasonOfTimeout (t : Timeout) : string :=
  match callback t with ShutdownThenComplete r => r end.

(** A handler that calls no [onComplete] and schedules only callbacks whose
    reason satisfies [P]. *)
Definition schedulesOnly (P : string -> Prop) (s s' : State) (l : list Effect) : Prop :=
  completed l = []
  /\ exists added,
       timeouts (env s') = timeouts (env s) ++ added
       /\ Forall (fun t => P (reasonOfTimeout t)) added.

(** * Properties *)

(** ** Running handlers symbolically *)

Lemma forEach_emit {A : Type} (f : A -> Effect) (g : A -> M unit) (xs : list A) :
  (forall x s, g x s = (Returned tt, s, [f x])) ->
  forall s, forEach xs g s = (Returned tt, s, map f xs).
Proof.
  intros Hg. induction xs as [|x xs IH]; intro s; simpl.
  - reflexivity.
  - unfold bind. rewrite Hg, IH. reflexivity.
Qed.

Lemma source_stop_caught (src : SourceNode) (s : State) :
  tryCatch (source_stop src) (fun _ => ret tt) s
  = (Returned tt, s, [ESourceStop (src_id src)]).
Proof.
  unfold tryCatch, source_stop, bind, emit, throw, ret.
  destruct (stop_throws src); reflexivity.
Qed.

Ltac run_handler :=
  cbv [bind gets modify emit when ret throw tryCatch handles hooks refs env
       scriptProcessorRef sessionRef streamRef audioContextRef
       inputAudioContextRef animationRef sourcesRef upd_refs upd_handles
       upd_env upd_hooks
       set_scriptProcessorRef set_sessionRef set_streamRef set_audioContextRef
       set_inputAudioContextRef set_sourcesRef close_throws tracks
       closedContext closeEffects context_close
       scriptProcessor set_scriptProcessor set_has_onaudioprocess
       set_node_connected has_onaudioprocess node_connected detachedCapture
       fst snd].

Ltac rewrite_tests :=
  repeat match goal with
         | H : _ = true |- _ => rewrite H
         | H : _ = false |- _ => rewrite H
         end.

Lemma disconnect_run (s : State) :
  disconnect s = (Returned tt, disconnected s, disconnectEffects s).
Proof.
  destruct s as [h [ac ic sp srcs se st an] r e].
  unfold disconnect, disconnected, disconnectEffects, cancelAnimationFrame, session_close.
  destruct sp as [[]|]; destruct se as [[ct]|]; try destruct ct;
    destruct st as [[ts]|];
    run_handler.
  all: try (rewrite (forEach_emit ETrackStop) by reflexivity).
  all: destruct ac as [ac|];
    [destruct (is_closed (ctx_state ac)) eqn:Hac; [|destruct (ctx_closing ac) eqn:Hac']|].
  all: destruct ic as [ic|];
    [destruct (is_closed (ctx_state ic)) eqn:Hic; [|destruct (ctx_closing ic) eqn:Hic']|].
  all: destruct (truthy an) eqn:Han.
  all: repeat (progress (run_handler; simpl forEach; rewrite_tests)).
  all: rewrite (forEach_emit (fun src => ESourceStop (src_id src)))
    by (intros x s0; exact (source_stop_caught x s0)).
  all: simpl; rewrite_tests; rewrite ?app_nil_r, <- ?app_assoc; reflexivity.
Qed.

(** ** Transition relations respected by handlers

    A relation between the state before, the state after and the effects
    made, closed under doing nothing and under sequencing, is respected by
    a handler as soon as it is respected by the handler's primitive steps. *)

Section Transitions.
Variable R : State -> State -> list Effect -> Prop.
Hypothesis R_refl : forall s, R s s [].
Hypothesis R_trans :
  forall s1 s2 s3 l1 l2, R s1 s2 l1 -> R s2 s3 l2 -> R s1 s3 (l1 ++ l2).

Lemma obeys_ret {A : Type} (a : A) : obeys R (ret a).
Proof. intro s. apply R_refl. Qed.

Lemma obeys_throw {A : Type} (e : string) : obeys R (@throw A e).
Proof. intro s. apply R_refl. Qed.

Lemma obeys_gets {A : Type} (f : State -> A) : obeys R (gets f).
Proof. intro s. apply R_refl. Qed.

Lemma obeys_bind {A B : Type} (m : M A) (k : A -> M B) :
  obeys R m -> (forall a, obeys R (k a)) -> obeys R (bind m k).
Proof.
  intros Hm Hk s. specialize (Hm s). unfold bind.
  destruct (m s) as [[[a|e] s1] l1]; unfold stateOf, effectsOf in *; simpl in *.
  - specialize (Hk a s1). unfold stateOf, effectsOf in Hk.
    destruct (k a s1) as [[o s2] l2]; simpl in *. eapply R_trans; eassumption.
  - exact Hm.
Qed.

Lemma obeys_tryCatch {A : Type} (m : M A) (h : string -> M A) :
  obeys R m -> (forall e, obeys R (h e)) -> obeys R (tryCatch m h).
Proof.
  intros Hm Hh s. specialize (Hm s). unfold tryCatch.
  destruct (m s) as [[[a|e] s1] l1]; unfold stateOf, effectsOf in *; simpl in *.
  - exact Hm.
  - specialize (Hh e s1). unfold stateOf, effectsOf in Hh.
    destruct (h e s1) as [[o s2] l2]; simpl in *. eapply R_trans; eassumption.
Qed.

Lemma obeys_modify (f : State -> State) :
  (forall s, R s (f s) []) -> obeys R (modify f).
Proof. intros Hf s. apply Hf. Qed.

Lemma obeys_emit (e : Effect) : (forall s, R s s [e]) -> obeys R (emit e).
Proof. intros He s. apply He. Qed.

Lemma obeys_when (c : bool) (m : M unit) : obeys R m -> obeys R (when c m).
Proof. intro Hm. destruct c; simpl; [exact Hm | apply obeys_ret]. Qed.

Lemma obeys_forEach {A : Type} (xs : list A) (f : A -> M unit) :
  (forall x, obeys R (f x)) -> obeys R (forEach xs f).
Proof.
  intro Hf. induction xs as [|x xs IH]; simpl.
  - apply obeys_ret.
  - apply obeys_bind; [apply Hf | intros _; exact IH].
Qed.
End Transitions.

(** ** Single-shot termination *)

Lemma handleTermination_first (reason : string) (s : State) :
  terminationTriggeredRef (refs s) = false ->
  handleTermination reason s
  = (Returned tt, terminating reason s, [ESetSystemMessage ("Ending: " ++ reason)%string]).
Proof.
  intro H. unfold handleTermination, bind, gets. rewrite H. reflexivity.
Qed.

Lemma handleTermination_later (reason : string) (s : State) :
  terminationTriggeredRef (refs s) = true ->
  handleTermination reason s = (Returned tt, s, []).
Proof.
  intro H. unfold handleTermination, bind, gets. rewrite H. reflexivity.
Qed.

Lemma completed_app (l1 l2 : list Effect) :
  completed (l1 ++ l2) = completed l1 ++ completed l2.
Proof. unfold completed. apply flat_map_app. Qed.

Lemma mayTerminate_refl (s : State) : mayTerminate s s [].
Proof. split; [reflexivity | left; split; reflexivity]. Qed.

Lemma mayTerminate_trans (s1 s2 s3 : State) (l1 l2 : list Effect) :
  mayTerminate s1 s2 l1 -> mayTerminate s2 s3 l2 -> mayTerminate s1 s3 (l1 ++ l2).
Proof.
  intros [C1 H1] [C2 H2]. split.
  - rewrite completed_app, C1, C2. reflexivity.
  - destruct H1 as [[F1 T1]|[F1 [F1' [r1 T1]]]];
      destruct H2 as [[F2 T2]|[F2 [F2' [r2 T2]]]].
    + left. split; congruence.
    + right. split; [congruence|]. split; [assumption|].
      exists r2. congruence.
    + right. split; [assumption|]. split; [congruence|].
      exists r1. congruence.
    + congruence.
Qed.

Lemma handleTermination_mayTerminate (reason : string) :
  obeys mayTerminate (handleTermination reason).
Proof.
  intro s. destruct (terminationTriggeredRef (refs s)) eqn:H.
  - rewrite handleTermination_later by assumption. apply mayTerminate_refl.
  - rewrite handleTermination_first by assumption.
    split; [reflexivity|]. right. split; [assumption|]. split; [reflexivity|].
    exists reason. reflexivity.
Qed.

Ltac obeys_with rfl trs base :=
  repeat first
    [ base
    | apply (obeys_ret _ rfl)
    | apply (obeys_gets _ rfl)
    | apply (obeys_throw _ rfl)
    | apply (obeys_when _ rfl)
    | apply (obeys_bind _ trs); [|intro]
    | apply (obeys_tryCatch _ trs); [|intro]
    | apply (obeys_forEach _ rfl trs); intro
    | match goal with
      | |- obeys _ (match ?x with _ => _ end) => destruct x
      end ].

Lemma completed_none (l : list Effect) : Forall notComplete l -> completed l = [].
Proof.
  induction 1 as [|e l He _ IH]; [reflexivity|].
  unfold completed in *; simpl. rewrite IH.
  destruct e; simpl in *; try reflexivity. contradiction.
Qed.

Lemma disconnectEffects_notComplete (s : State) :
  Forall notComplete (disconnectEffects s).
Proof.
  unfold disconnectEffects, closeEffects, context_close.
  repeat (apply Forall_app; split);
    repeat match goal with
           | |- context [match ?x with _ => _ end] => destruct x
           end;
    try (apply Forall_map, Forall_forall; intros; exact I);
    repeat constructor.
Qed.

Lemma timeouts_dropFrame (id : Z) (e : Env) : timeouts (dropFrame id e) = timeouts e.
Proof.
  unfold dropFrame. destruct (pendingFrame e) as [p|]; [|reflexivity].
  destruct (p =? id); reflexivity.
Qed.

Lemma timeouts_detachedCapture (s : State) :
  timeouts (detachedCapture s) = timeouts (env s).
Proof. unfold detachedCapture. destruct (scriptProcessorRef (handles s)); reflexivity. Qed.

Lemma disconnect_mayTerminate : obeys mayTerminate disconnect.
Proof.
  intro s. rewrite disconnect_run. unfold stateOf, effectsOf; cbn [fst snd].
  split.
  - apply completed_none, disconnectEffects_notComplete.
  - left. split; [reflexivity|].
    unfold disconnected; cbn [env].
    destruct (truthy (animationRef (handles s)));
      rewrite ?timeouts_dropFrame; apply timeouts_detachedCapture.
Qed.

Ltac quiet_step R_handle R_disconnect :=
  first
    [ apply R_handle
    | apply R_disconnect
    | apply obeys_modify; intro; split; [reflexivity | left; split; reflexivity]
    | apply obeys_emit; intro; split; [reflexivity | left; split; reflexivity] ].

Lemma handler_mayTerminate (ev : Event) :
  ev <> TimeoutFires -> obeys mayTerminate (handler ev).
Proof.
  intro Hev. destruct ev; try congruence; clear Hev;
    unfold handler, onopen, onmessage, onmessage_with, playAudio, onerror, onclose,
      onaudioprocess, onended, timerTick, handleVisibilityChange, endInterviewClick,
      draw, unmount, setStatus, setSystemMessageStatus;
    obeys_with mayTerminate_refl mayTerminate_trans
      ltac:(quiet_step handleTermination_mayTerminate disconnect_mayTerminate).
Qed.

Lemma bind_run {A B : Type} (m : M A) (k : A -> M B) (s s1 : State) (a : A)
    (l1 : list Effect) :
  m s = (Returned a, s1, l1) ->
  bind m k s = (outcomeOf (k a s1), stateOf (k a s1), l1 ++ effectsOf (k a s1)).
Proof.
  intro H. unfold bind. rewrite H.
  destruct (k a s1) as [[o s2] l2]. reflexivity.
Qed.

(** The scheduled callback: the whole of [disconnect], then [onComplete]
    with the newline-joined history and the reason it was created with. *)
Lemma runCallback_run (reason : string) (s : State) :
  runCallback (ShutdownThenComplete reason) s
  = (Returned tt, disconnected s,
     disconnectEffects s ++ [EOnComplete (join (fullTranscriptHistory (refs s))) reason]).
Proof.
  unfold runCallback. rewrite (bind_run _ _ _ _ _ _ (disconnect_run s)).
  reflexivity.
Qed.

Lemma mayTerminate_singleShot (s s' : State) (l : list Effect) (done : list string) :
  mayTerminate s s' l -> singleShot s done -> singleShot s' (done ++ completed l).
Proof.
  intros [C H] I. rewrite C, app_nil_r. unfold singleShot in *.
  destruct H as [[F T]|[F [F' [r T]]]].
  - rewrite F, T. exact I.
  - rewrite F in I. rewrite F', T. destruct I as [I1 I2].
    exists r. left. rewrite I1. split; [reflexivity | assumption].
Qed.

Lemma timeout_singleShot (s : State) (done : list string) :
  singleShot s done ->
  singleShot (fst (step s TimeoutFires)) (done ++ completed (snd (step s TimeoutFires))).
Proof.
  intro I. unfold step, handler.
  rewrite (bind_run _ _ s s (timeouts (env s)) []) by reflexivity.
  destruct (timeouts (env s)) as [|t rest] eqn:T.
  - unfold stateOf, effectsOf; simpl. rewrite app_nil_r. exact I.
  - rewrite (bind_run _ _ s (upd_env (set_timeouts rest) s) tt []) by reflexivity.
    destruct t as [[reason] d]. cbn [callback]. rewrite runCallback_run.
    unfold stateOf, effectsOf, outcomeOf; cbn [fst snd app].
    rewrite completed_app, (completed_none _ (disconnectEffects_notComplete _)).
    unfold singleShot in *. cbn [disconnected refs upd_env set_isConnectedRef
      terminationTriggeredRef env].
    replace (terminationTriggeredRef (refs (upd_env (set_timeouts rest) s)))
      with (terminationTriggeredRef (refs s)) by reflexivity.
    destruct (terminationTriggeredRef (refs s)).
    + destruct I as [r [[I1 I2]|[I1 I2]]]; [|congruence].
      rewrite T in I1. inversion I1; subst.
      exists r. right. split; [|reflexivity].
      match goal with |- context [truthy ?x] => destruct (truthy x) end;
        rewrite ?timeouts_dropFrame, timeouts_detachedCapture; reflexivity.
    + destruct I as [I1 _]. congruence.
Qed.

Lemma step_singleShot (s : State) (ev : Event) (done : list string) :
  singleShot s done ->
  singleShot (fst (step s ev)) (done ++ completed (snd (step s ev))).
Proof.
  intro I. destruct ev; try (apply timeout_singleShot; exact I);
    (eapply mayTerminate_singleShot; [|exact I]);
    unfold step; cbn [fst snd];
    match goal with
    | |- mayTerminate _ (stateOf (handler ?ev _)) _ =>
        apply (handler_mayTerminate ev); discriminate
    end.
Qed.

Lemma run_singleShot (evs : list Event) (s : State) (done : list string) :
  singleShot s done ->
  singleShot (fst (run evs s)) (done ++ completed (snd (run evs s))).
Proof.
  revert s done. induction evs as [|ev evs IH]; intros s done I.
  - cbn [run fst snd completed flat_map]. rewrite app_nil_r. exact I.
  - cbn [run]. pose proof (step_singleShot s ev done I) as I1.
    destruct (step s ev) as [s1 l1]. cbn [fst snd] in I1.
    specialize (IH s1 _ I1).
    destruct (run evs s1) as [s2 l2]. cbn [fst snd] in *.
    rewrite completed_app, app_assoc. exact IH.
Qed.

Lemma shutdownRuns_app (l1 l2 : list Effect) :
  shutdownRuns (l1 ++ l2) = (shutdownRuns l1 + shutdownRuns l2)%nat.
Proof. unfold shutdownRuns. rewrite filter_app, length_app. reflexivity. Qed.

Lemma noShutdown_refl (s : State) : noShutdown s s [].
Proof. reflexivity. Qed.

Lemma noShutdown_trans (s1 s2 s3 : State) (l1 l2 : list Effect) :
  noShutdown s1 s2 l1 -> noShutdown s2 s3 l2 -> noShutdown s1 s3 (l1 ++ l2).
Proof.
  unfold noShutdown. intros H1 H2. rewrite shutdownRuns_app, H1, H2. reflexivity.
Qed.

Lemma handler_noShutdown (ev : Event) :
  ev <> TimeoutFires -> ev <> Unmount -> obeys noShutdown (handler ev).
Proof.
  intros Ht Hu. destruct ev; try congruence; clear Ht Hu;
    unfold handler, onopen, onmessage, onmessage_with, playAudio, onerror, onclose,
      onaudioprocess, onended, timerTick, handleVisibilityChange, endInterviewClick,
      draw, setStatus, handleTermination, setSystemMessageStatus, setTimeout;
    obeys_with noShutdown_refl noShutdown_trans
      ltac:(first [ apply obeys_modify; intro; reflexivity
                  | apply obeys_emit; intro; reflexivity ]).
Qed.

Lemma shutdownRuns_none (l : list Effect) :
  Forall (fun e => isSourcesClear e = false) l -> shutdownRuns l = 0%nat.
Proof.
  induction 1 as [|e l He _ IH]; [reflexivity|].
  unfold shutdownRuns in *. cbn [filter]. rewrite He. exact IH.
Qed.

Lemma disconnectEffects_one_run (s : State) : shutdownRuns (disconnectEffects s) = 1%nat.
Proof.
  unfold disconnectEffects. rewrite !shutdownRuns_app.
  repeat match goal with
         | |- context [shutdownRuns ?l] =>
             lazymatch l with
             | [ESourcesClear] => fail
             | _ =>
                 rewrite (shutdownRuns_none l)
                   by (unfold closeEffects, context_close;
                       repeat match goal with
                              | |- context [match ?x with _ => _ end] => destruct x
                              end;
                       try (apply Forall_map, Forall_forall; intros; reflexivity);
                       repeat constructor)
             end
         end.
  reflexivity.
Qed.

Lemma step_shutdownRuns (s : State) (ev : Event) :
  ev <> Unmount ->
  shutdownRuns (snd (step s ev)) = List.length (completed (snd (step s ev))).
Proof.
  intro Hu. destruct ev; try congruence;
    try (match goal with
         | |- context [step s ?ev] =>
             pose proof (handler_noShutdown ev ltac:(discriminate) ltac:(discriminate) s)
               as N;
             destruct (handler_mayTerminate ev ltac:(discriminate) s) as [C _]
         end;
         unfold step; cbn [snd]; unfold noShutdown in N; rewrite N, C; reflexivity).
  unfold step, handler.
  rewrite (bind_run _ _ s s (timeouts (env s)) []) by reflexivity.
  destruct (timeouts (env s)) as [|[[reason] d] rest].
  - reflexivity.
  - rewrite (bind_run _ _ s (upd_env (set_timeouts rest) s) tt []) by reflexivity.
    cbn [callback]. rewrite runCallback_run.
    unfold effectsOf; cbn [fst snd app].
    rewrite shutdownRuns_app, completed_app, length_app.
    rewrite (completed_none _ (disconnectEffects_notComplete _)).
    change (disconnectEffects (upd_env (set_timeouts rest) s))
      with (disconnectEffects s).
    rewrite disconnectEffects_one_run. reflexivity.
Qed.

Lemma run_shutdownRuns (evs : list Event) (s : State) :
  Forall (fun ev => ev <> Unmount) evs ->
  shutdownRuns (snd (run evs s)) = List.length (completed (snd (run evs s))).
Proof.
  intro H. revert s. induction H as [|ev evs Hev _ IH]; intro s; [reflexivity|].
  cbn [run]. pose proof (step_shutdownRuns s ev Hev) as S1.
  destruct (step s ev) as [s1 l1]. cbn [snd] in S1. specialize (IH s1).
  destruct (run evs s1) as [s2 l2]. cbn [snd] in *.
  rewrite shutdownRuns_app, completed_app, length_app, S1, IH. reflexivity.
Qed.

Lemma handleTermination_repeated (later : list string) (s : State) :
  terminationTriggeredRef (refs s) = true ->
  forEach later handleTermination s = (Returned tt, s, []).
Proof.
  intro H. induction later as [|r later IH]; [reflexivity|].
  cbn [forEach]. rewrite (bind_run _ _ _ _ _ _ (handleTermination_later r s H)).
  rewrite IH. reflexivity.
Qed.

(** C1. Termination is single-shot. From a live session (flag clear,
    nothing scheduled): of any series of direct calls to
    [handleTermination] only the first records its reason and schedules the
    shutdown, the later ones change nothing and call nothing; a call made
    once the flag is set returns at once; and whatever events arrive, in
    whatever order (tool call, click, timer tick, focus loss, transport
    error or close, the scheduled callback itself, ...), there is at most
    one recorded reason, and its shutdown-then-[onComplete] callback is
    either still pending or has run exactly once; and as long as the
    component is not unmounted, the shutdown sequence has been executed as
    many times as [onComplete] was called, so at most once. *)
Theorem termination_single_shot
    (s0 : State) (evs : list Event) (reason : string) (later : list string) :
  terminationTriggeredRef (refs s0) = false ->
  timeouts (env s0) = [] ->
  forEach (reason :: later) handleTermination s0
    = (Returned tt, terminating reason s0,
       [ESetSystemMessage ("Ending: " ++ reason)%string])
  /\ terminationTriggeredRef (refs (terminating reason s0)) = true
  /\ timeouts (env (terminating reason s0)) = [shutdownOf reason]
  /\ (forall r s, terminationTriggeredRef (refs s) = true ->
                  handleTermination r s = (Returned tt, s, []))
  /\ singleShot (fst (run evs s0)) (completed (snd (run evs s0)))
  /\ (Forall (fun ev => ev <> Unmount) evs ->
      shutdownRuns (snd (run evs s0)) = List.length (completed (snd (run evs s0)))).
Proof.
  intros F T. split; [|split; [|split; [|split; [|split]]]].
  - cbn [forEach]. rewrite (bind_run _ _ _ _ _ _ (handleTermination_first reason s0 F)).
    rewrite handleTermination_repeated by reflexivity. reflexivity.
  - reflexivity.
  - cbn. rewrite T. reflexivity.
  - intros r s H. apply handleTermination_later. exact H.
  - apply (run_singleShot evs s0 []). unfold singleShot. rewrite F. auto.
  - apply run_shutdownRuns.
Qed.

Lemma termination_single_shot_witness :
  terminationTriggeredRef (refs liveState) = false
  /\ timeouts (env liveState) = []
  /\ singleShot
       (fst (run [Message (endInterviewMessage None) 0; EndInterviewClick;
                  TimerTick; TimeoutFires; EndInterviewClick] liveState))
       (completed
          (snd (run [Message (endInterviewMessage None) 0; EndInterviewClick;
                     TimerTick; TimeoutFires; EndInterviewClick] liveState))).
Proof.
  split; [reflexivity|]. split; [reflexivity|].
  destruct (termination_single_shot liveState
              [Message (endInterviewMessage None) 0; EndInterviewClick;
               TimerTick; TimeoutFires; EndInterviewClick]
              "Completed" ["User ended session"] eq_refl eq_refl)
    as [_ [_ [_ [_ [H _]]]]].
  exact H.
Defined.

(** ** The shutdown sequence *)

Lemma nondecreasing_cons (a : nat) (l : list nat) :
  Forall (fun x => (a <= x)%nat) l -> nondecreasing l = true ->
  nondecreasing (a :: l) = true.
Proof.
  intros H S. destruct l as [|b l]; [reflexivity|].
  change (((a <=? b)%nat && nondecreasing (b :: l)) = true).
  rewrite S, andb_true_r.
  apply Nat.leb_le. inversion H; assumption.
Qed.

Lemma nondecreasing_tail (a : nat) (l : list nat) :
  nondecreasing (a :: l) = true -> nondecreasing l = true.
Proof.
  destruct l as [|b l]; [reflexivity|].
  change (nondecreasing (a :: b :: l)) with ((a <=? b)%nat && nondecreasing (b :: l)).
  intro H. apply andb_true_iff in H. tauto.
Qed.

Lemma nondecreasing_app (k : nat) (l1 l2 : list nat) :
  Forall (fun x => (x <= k)%nat) l1 -> Forall (fun x => (k <= x)%nat) l2 ->
  nondecreasing l1 = true -> nondecreasing l2 = true ->
  nondecreasing (l1 ++ l2) = true.
Proof.
  intros H1 H2 S1 S2. induction l1 as [|a l1 IH]; [exact S2|].
  cbn [app]. inversion H1 as [|? ? Ha H1']; subst.
  apply nondecreasing_cons.
  - apply Forall_app. split.
    + clear IH H1 H1' Ha. revert a S1. induction l1 as [|b l1 IHl]; intros a S1.
      * constructor.
      * change (nondecreasing (a :: b :: l1))
          with ((a <=? b)%nat && nondecreasing (b :: l1)) in S1.
        apply andb_true_iff in S1. destruct S1 as [L S1].
        apply Nat.leb_le in L. constructor; [exact L|].
        specialize (IHl b S1). eapply Forall_impl; [|exact IHl].
        intros x Hx. cbn in Hx. lia.
    + eapply Forall_impl; [|exact H2]. intros x Hx. cbn in Hx. lia.
  - apply IH; [assumption | eapply nondecreasing_tail; exact S1].
Qed.

Lemma steps_app (l1 l2 : list Effect) : steps (l1 ++ l2) = steps l1 ++ steps l2.
Proof. unfold steps. apply flat_map_app. Qed.

(** A run of calls that all belong to step [st]. *)
Lemma block_ranks (rank : ShutdownStep -> nat) (st : ShutdownStep) (l : list Effect) :
  Forall (fun e => stepOf e = Some st \/ stepOf e = None) l ->
  map rank (steps l) = repeat (rank st) (List.length (steps l)).
Proof.
  induction 1 as [|e l He _ IH]; [reflexivity|].
  unfold steps in *. cbn [flat_map]. destruct He as [He|He]; rewrite He; cbn.
  - rewrite IH. reflexivity.
  - exact IH.
Qed.

Lemma nondecreasing_repeat (k n : nat) : nondecreasing (repeat k n) = true.
Proof.
  induction n as [|n IH]; [reflexivity|].
  cbn [repeat]. apply nondecreasing_cons; [|exact IH].
  apply Forall_forall. intros x Hx. apply repeat_spec in Hx. lia.
Qed.

Lemma nondecreasing_block (k n : nat) (l : list nat) :
  Forall (fun x => (k <= x)%nat) l -> nondecreasing l = true ->
  nondecreasing (repeat k n ++ l) = true.
Proof.
  intros H S. apply (nondecreasing_app k); try assumption.
  - apply Forall_forall. intros x Hx. apply repeat_spec in Hx. lia.
  - apply nondecreasing_repeat.
Qed.

Ltac block_of st :=
  apply (block_ranks codeRank st);
  unfold closeEffects, context_close;
  repeat match goal with
         | |- context [match ?x with _ => _ end] => destruct x
         end;
  try (apply Forall_map, Forall_forall; intros; cbn; auto);
  repeat constructor; cbn; auto.

Ltac above_block :=
  repeat (apply Forall_app; split);
  try (apply Forall_forall; intros ? Hx; apply repeat_spec in Hx; cbn in *; lia);
  repeat constructor; cbn; lia.

(** The calls of [disconnect] follow the order it is written in, whatever
    the state of the resources. *)
Lemma disconnect_inOrder (s : State) :
  inOrder codeRank (disconnectEffects s) = true.
Proof.
  unfold inOrder, disconnectEffects.
  rewrite !steps_app, !map_app.
  match goal with
  | |- nondecreasing (map _ (steps ?b0) ++ map _ (steps ?b1) ++ map _ (steps ?b2)
         ++ map _ (steps ?b3) ++ map _ (steps ?b4) ++ map _ (steps ?b5)
         ++ map _ (steps ?b6) ++ _) = true =>
      replace (map codeRank (steps b0))
        with (repeat (codeRank DetachCapture) (List.length (steps b0)))
        by (symmetry; block_of DetachCapture);
      replace (map codeRank (steps b1))
        with (repeat (codeRank CloseTransport) (List.length (steps b1)))
        by (symmetry; block_of CloseTransport);
      replace (map codeRank (steps b2))
        with (repeat (codeRank ReleaseCaptureDevice) (List.length (steps b2)))
        by (symmetry; block_of ReleaseCaptureDevice);
      replace (map codeRank (steps b3))
        with (repeat (codeRank ReleaseOutputDevice) (List.length (steps b3)))
        by (symmetry; block_of ReleaseOutputDevice);
      replace (map codeRank (steps b4))
        with (repeat (codeRank CancelTimers) (List.length (steps b4)))
        by (symmetry; block_of CancelTimers);
      replace (map codeRank (steps b5))
        with (repeat (codeRank CancelTimers) (List.length (steps b5)))
        by (symmetry; block_of CancelTimers);
      replace (map codeRank (steps b6))
        with (repeat (codeRank StopPlayback) (List.length (steps b6)))
        by (symmetry; block_of StopPlayback)
  end.
  repeat (apply nondecreasing_block; [above_block|]).
  reflexivity.
Qed.

(** C3, as stated: the shutdown calls follow the order
    detach capture, close transport, stop playback, release capture
    device, cancel timers, release output device. On a session in full
    flight they do not: the media tracks are stopped and the output context
    is closed before playback is stopped, and the output context is closed
    before the animation frame is cancelled. *)
Lemma shutdown_spec_order_fails :
  inOrder specRank
    (effectsOf (runCallback (ShutdownThenComplete "Completed") liveState)) <> true.
Proof. vm_compute. discriminate. Qed.

(** C3, amended. The first [handleTermination reason] only records the
    reason and leaves one callback pending with a delay of 2000 ms; nothing
    is shut down and [onComplete] is not called before that callback runs.
    When it runs, the calls are, in this order: clear the capture callback
    and disconnect the node, close the transport session, stop the stream's
    tracks, close the output context, close the input context, cancel the
    animation frame, stop and clear the scheduled sources; and after all of
    them [onComplete] with the newline-joined transcript and the recorded
    reason. *)
Theorem shutdown_order (s : State) (reason : string) :
  terminationTriggeredRef (refs s) = false ->
  handleTermination reason s
    = (Returned tt, terminating reason s,
       [ESetSystemMessage ("Ending: " ++ reason)%string])
  /\ timeouts (env (terminating reason s)) = timeouts (env s) ++ [shutdownOf reason]
  /\ delay (shutdownOf reason) = 2000
  /\ runCallback (callback (shutdownOf reason)) (terminating reason s)
     = (Returned tt, disconnected (terminating reason s),
        disconnectEffects s
        ++ [EOnComplete (join (fullTranscriptHistory (refs s))) reason])
  /\ inOrder codeRank (disconnectEffects s) = true.
Proof.
  intro F. split; [apply handleTermination_first; exact F|].
  split; [reflexivity|]. split; [reflexivity|].
  split; [|apply disconnect_inOrder].
  cbn [shutdownOf callback]. rewrite runCallback_run. reflexivity.
Qed.

Lemma shutdown_order_witness :
  terminationTriggeredRef (refs liveState) = false
  /\ effectsOf (runCallback (callback (shutdownOf "Completed"))
                  (terminating "Completed" liveState))
     = [EClearOnAudioProcess; ENodeDisconnect; ESessionClose;
        ETrackStop 1; ETrackStop 2; EContextClose Output; EContextClose Input;
        ECancelAnimationFrame 1; ESourcesClear; EOnComplete "" "Completed"].
Proof.
  split; [reflexivity|].
  destruct (shutdown_order liveState "Completed" eq_refl) as [_ [_ [_ [H _]]]].
  rewrite H. reflexivity.
Defined.

(** ** Defensive cleanup *)

Lemma closedContext_idem (w : Which) (c : option AudioContext) :
  closedContext w (closedContext w c) = closedContext w c.
Proof.
  destruct c as [[st cl]|]; [|reflexivity].
  destruct st, cl; reflexivity.
Qed.

Lemma dropFrame_idem (id : Z) (e : Env) : dropFrame id (dropFrame id e) = dropFrame id e.
Proof.
  unfold dropFrame. destruct (pendingFrame e) as [p|] eqn:P.
  - destruct (p =? id) eqn:E; cbn; [reflexivity|]. rewrite P, E. reflexivity.
  - rewrite P. reflexivity.
Qed.

Lemma disconnected_idem (s : State) : disconnected (disconnected s) = disconnected s.
Proof.
  unfold disconnected, detachedCapture. cbn [hooks handles refs env audioContextRef
    inputAudioContextRef animationRef scriptProcessorRef].
  rewrite !closedContext_idem.
  destruct (truthy (animationRef (handles s))); [rewrite dropFrame_idem|]; reflexivity.
Qed.

Lemma closeEffects_closedContext (w : Which) (c : option AudioContext) :
  Forall releasesNothing (closeEffects w (closedContext w c)).
Proof.
  destruct c as [[st cl]|]; [|constructor].
  destruct st, cl; repeat constructor.
Qed.

Lemma closedContext_closing (w : Which) (c : option AudioContext) (c' : AudioContext) :
  closedContext w c = Some c' -> ctx_closing c' = true \/ ctx_state c' = closed.
Proof.
  destruct c as [[st cl]|]; [|discriminate].
  destruct st, cl; cbn; intros [= <-]; auto.
Qed.

Lemma closeEffects_open (w : Which) (c : AudioContext) :
  ctx_state c <> closed -> In (EContextClose w) (closeEffects w (Some c)).
Proof.
  intro H. unfold closeEffects, context_close.
  destruct c as [st cl]. cbn in *. destruct st; try contradiction;
    destruct cl; left; reflexivity.
Qed.

Lemma closeEffects_again (w : Which) (c : option AudioContext) :
  closeEffects w (closedContext w c) = []
  \/ closeEffects w (closedContext w c) = [EContextClose w; EPromiseRejected w].
Proof.
  destruct c as [[st cl]|]; [|left; reflexivity].
  destruct st, cl; cbn; auto.
Qed.

Lemma closeEffects_settled (w : Which) (c : option AudioContext) :
  closeEffects w (option_map context_settle (closedContext w c)) = [].
Proof.
  destruct c as [[st cl]|]; [|reflexivity].
  destruct st, cl; reflexivity.
Qed.

Lemma pendingFrame_dropFrame (id : Z) (e : Env) : pendingFrame (dropFrame id e) <> Some id.
Proof.
  unfold dropFrame. destruct (pendingFrame e) as [p|] eqn:P; [|congruence].
  destruct (p =? id) eqn:E; cbn; [discriminate|].
  rewrite P. apply Z.eqb_neq in E. congruence.
Qed.

Lemma scriptProcessor_dropFrame (id : Z) (e : Env) :
  scriptProcessor (dropFrame id e) = scriptProcessor e.
Proof.
  unfold dropFrame. destruct (pendingFrame e) as [p|]; [|reflexivity].
  destruct (p =? id); reflexivity.
Qed.

Lemma filter_release_map {A : Type} (f : A -> Effect) (xs : list A) :
  (forall x, isRelease (f x) = true) -> filter isRelease (map f xs) = map f xs.
Proof.
  intro H. induction xs as [|x xs IH]; [reflexivity|].
  cbn [map filter]. rewrite H, IH. reflexivity.
Qed.

(** The calls [disconnect] makes are those it makes when nothing fails,
    with a [console.error] added for a failing [close()]. *)
Lemma disconnectEffects_withoutFailures (s : State) :
  filter isRelease (disconnectEffects s) = disconnectEffects (withoutFailures s).
Proof.
  unfold disconnectEffects, withoutFailures.
  cbn [handles upd_handles set_sessionRef set_sourcesRef scriptProcessorRef sessionRef
       streamRef audioContextRef inputAudioContextRef animationRef sourcesRef].
  rewrite !filter_app, map_map. cbn [src_id].
  rewrite (filter_release_map (fun src => ESourceStop (src_id src))) by reflexivity.
  f_equal; [destruct (scriptProcessorRef (handles s)); reflexivity|].
  f_equal; [destruct (sessionRef (handles s)) as [[[|]]|]; reflexivity|].
  f_equal; [destruct (streamRef (handles s));
            [apply filter_release_map|]; reflexivity|].
  f_equal; [destruct (audioContextRef (handles s)) as [[st cl]|]; [|reflexivity];
            destruct st, cl; reflexivity|].
  f_equal; [destruct (inputAudioContextRef (handles s)) as [[st cl]|]; [|reflexivity];
            destruct st, cl; reflexivity|].
  f_equal. destruct (truthy (animationRef (handles s))); reflexivity.
Qed.

(** C9. Every shutdown step is safe on an already-released resource.
    Whatever the state of the resources (held or not, contexts already
    closing or closed, a session whose [close()] throws, sources whose
    [stop()] throws), [disconnect] returns normally and releases each of
    the seven resources it holds: capture callback and node, transport
    session, every track, both audio contexts, the animation frame, every
    scheduled source and the set of sources. A failure changes nothing in
    that: the calls made and the state reached are those of the same
    state without failures, a [console.error] apart. Afterwards every
    handle is cleared, the node has no callback, both contexts are
    closing or closed and the frame is no longer pending. A second
    [disconnect] returns normally, changes nothing in the state and makes
    no release call (in particular no second [close()] on the transport);
    the one call it can repeat is [close()] on a context the browser has
    not finished closing, which is answered by a rejected promise, and
    once the browser has settled the contexts it repeats none. *)
Theorem disconnect_defensive (s : State) :
  outcomeOf (disconnect s) = Returned tt
  /\ (scriptProcessorRef (handles s) <> None ->
      In EClearOnAudioProcess (effectsOf (disconnect s)))
  /\ (sessionRef (handles s) <> None -> In ESessionClose (effectsOf (disconnect s)))
  /\ (forall stream t, streamRef (handles s) = Some stream -> In t (tracks stream) ->
      In (ETrackStop t) (effectsOf (disconnect s)))
  /\ (forall src, In src (sourcesRef (handles s)) ->
      In (ESourceStop (src_id src)) (effectsOf (disconnect s)))
  /\ scriptProcessorRef (handles (stateOf (disconnect s))) = None
  /\ sessionRef (handles (stateOf (disconnect s))) = None
  /\ streamRef (handles (stateOf (disconnect s))) = None
  /\ sourcesRef (handles (stateOf (disconnect s))) = []
  /\ isConnectedRef (refs (stateOf (disconnect s))) = false
  /\ outcomeOf (disconnect (stateOf (disconnect s))) = Returned tt
  /\ stateOf (disconnect (stateOf (disconnect s))) = stateOf (disconnect s)
  /\ Forall releasesNothing (effectsOf (disconnect (stateOf (disconnect s))))
  /\ (scriptProcessorRef (handles s) <> None ->
      In ENodeDisconnect (effectsOf (disconnect s)))
  /\ (forall c, audioContextRef (handles s) = Some c -> ctx_state c <> closed ->
      In (EContextClose Output) (effectsOf (disconnect s)))
  /\ (forall c, inputAudioContextRef (handles s) = Some c -> ctx_state c <> closed ->
      In (EContextClose Input) (effectsOf (disconnect s)))
  /\ (animationRef (handles s) <> 0 ->
      In (ECancelAnimationFrame (animationRef (handles s))) (effectsOf (disconnect s)))
  /\ In ESourcesClear (effectsOf (disconnect s))
  /\ filter isRelease (effectsOf (disconnect s))
     = effectsOf (disconnect (withoutFailures s))
  /\ stateOf (disconnect s) = stateOf (disconnect (withoutFailures s))
  /\ (scriptProcessorRef (handles s) <> None ->
      scriptProcessor (env (stateOf (disconnect s)))
      = {| has_onaudioprocess := false; node_connected := false |})
  /\ (forall c, audioContextRef (handles (stateOf (disconnect s))) = Some c ->
      ctx_closing c = true \/ ctx_state c = closed)
  /\ (forall c, inputAudioContextRef (handles (stateOf (disconnect s))) = Some c ->
      ctx_closing c = true \/ ctx_state c = closed)
  /\ (animationRef (handles s) <> 0 ->
      pendingFrame (env (stateOf (disconnect s))) <> Some (animationRef (handles s)))
  /\ (forall w, In (EContextClose w) (effectsOf (disconnect (stateOf (disconnect s)))) ->
      In (EPromiseRejected w) (effectsOf (disconnect (stateOf (disconnect s)))))
  /\ (forall w,
        ~ In (EContextClose w)
            (effectsOf (disconnect (fst (step (stateOf (disconnect s)) ContextsSettle))))).
Proof.
  assert (Truthy : animationRef (handles s) <> 0 ->
                   truthy (animationRef (handles s)) = true).
  { intro H. unfold truthy. apply Z.eqb_neq in H. rewrite H. reflexivity. }
  rewrite !disconnect_run. unfold outcomeOf, stateOf, effectsOf; cbn [fst snd].
  rewrite ?disconnect_run. cbn [fst snd].
  split; [reflexivity|].
  split.
  { intro H. unfold disconnectEffects.
    destruct (scriptProcessorRef (handles s)); [|congruence]. left. reflexivity. }
  split.
  { intro H. unfold disconnectEffects. apply in_or_app. right.
    destruct (sessionRef (handles s)); [|congruence]. left. reflexivity. }
  split.
  { intros stream t H Ht. unfold disconnectEffects. rewrite H.
    apply in_or_app. right. apply in_or_app. right. apply in_or_app. left.
    apply in_map. exact Ht. }
  split.
  { intros src H. unfold disconnectEffects.
    do 6 (apply in_or_app; right). apply in_or_app. left.
    apply (in_map (fun x => ESourceStop (src_id x))). exact H. }
  do 5 (split; [reflexivity|]).
  split; [reflexivity|].
  split; [apply disconnected_idem|].
  split.
  { unfold disconnectEffects, disconnected; cbn [handles scriptProcessorRef sessionRef
      streamRef sourcesRef audioContextRef inputAudioContextRef animationRef map app].
    repeat (apply Forall_app; split);
      try apply closeEffects_closedContext.
    - destruct (truthy _); repeat constructor.
    - repeat constructor. }
  split.
  { intro H. unfold disconnectEffects.
    destruct (scriptProcessorRef (handles s)); [|congruence]. right. left. reflexivity. }
  split.
  { intros c H Hc. unfold disconnectEffects. rewrite H.
    do 3 (apply in_or_app; right). apply in_or_app. left.
    apply closeEffects_open, Hc. }
  split.
  { intros c H Hc. unfold disconnectEffects. rewrite H.
    do 4 (apply in_or_app; right). apply in_or_app. left.
    apply closeEffects_open, Hc. }
  split.
  { intro H. unfold disconnectEffects. rewrite (Truthy H).
    do 5 (apply in_or_app; right). apply in_or_app. left. left. reflexivity. }
  split.
  { unfold disconnectEffects. do 7 (apply in_or_app; right). left. reflexivity. }
  split; [apply disconnectEffects_withoutFailures|].
  split; [reflexivity|].
  split.
  { intro H. unfold disconnected, detachedCapture. cbn [env].
    destruct (truthy _); rewrite ?scriptProcessor_dropFrame;
      destruct (scriptProcessorRef (handles s)); try congruence; reflexivity. }
  split; [intros c; apply closedContext_closing|].
  split; [intros c; apply closedContext_closing|].
  split.
  { intro H. unfold disconnected. cbn [env]. rewrite (Truthy H).
    apply pendingFrame_dropFrame. }
  split.
  { intro w. unfold disconnectEffects, disconnected; cbn [handles scriptProcessorRef
      sessionRef streamRef sourcesRef audioContextRef inputAudioContextRef animationRef
      map app].
    destruct (closeEffects_again Output (audioContextRef (handles s))) as [-> | ->];
      destruct (closeEffects_again Input (inputAudioContextRef (handles s))) as [-> | ->];
      destruct (truthy _); cbn [app In]; destruct w; intuition congruence. }
  intro w. change (fst (step (disconnected s) ContextsSettle))
    with (upd_handles (fun h =>
            set_audioContextRef (option_map context_settle (audioContextRef h))
              (set_inputAudioContextRef
                 (option_map context_settle (inputAudioContextRef h)) h))
            (disconnected s)).
  unfold disconnectEffects, disconnected; cbn [handles upd_handles set_audioContextRef
    set_inputAudioContextRef scriptProcessorRef sessionRef streamRef sourcesRef
    audioContextRef inputAudioContextRef animationRef map app].
  rewrite !closeEffects_settled.
  destruct (truthy _); cbn [app In]; intuition congruence.
Qed.

Lemma disconnect_defensive_witness :
  sessionRef (handles faultyState) <> None
  /\ In {| src_id := 8; stop_throws := false |} (sourcesRef (handles faultyState))
  /\ audioContextRef (handles faultyState)
     = Some {| ctx_state := running; ctx_closing := false |}
  /\ running <> closed
  /\ animationRef (handles faultyState) <> 0
  /\ outcomeOf (disconnect faultyState) = Returned tt
  /\ In ESessionClose (effectsOf (disconnect faultyState))
  /\ In (ESourceStop 8) (effectsOf (disconnect faultyState))
  /\ In (EContextClose Output) (effectsOf (disconnect faultyState))
  /\ In (ECancelAnimationFrame 1) (effectsOf (disconnect faultyState)).
Proof.
  assert (Hs : sessionRef (handles faultyState) <> None) by discriminate.
  assert (Hi : In {| src_id := 8; stop_throws := false |}
                 (sourcesRef (handles faultyState))) by (right; left; reflexivity).
  assert (Hc : running <> closed) by discriminate.
  assert (Ha : animationRef (handles faultyState) <> 0) by discriminate.
  destruct (disconnect_defensive faultyState)
    as [O [_ [C [_ [S [_ [_ [_ [_ [_ [_ [_ [_ [_ [Co [_ [An _]]]]]]]]]]]]]]]]].
  split; [exact Hs|]. split; [exact Hi|]. split; [reflexivity|].
  split; [exact Hc|]. split; [exact Ha|]. split; [exact O|].
  split; [exact (C Hs)|]. split; [exact (S _ Hi)|].
  split; [exact (Co _ eq_refl Hc) | exact (An Ha)].
Defined.

(** ** Transport failure *)

(** C4, as stated: a transport close while connected ends the
    session. On a session in full flight [onclose] triggers no shutdown,
    and the capture side stays live. *)
Lemma transport_close_keeps_session_live :
  ~ shutdownTriggered (step liveState TransportClose)
  /\ isConnectedRef (refs (fst (step liveState TransportClose))) = true
  /\ handles (fst (step liveState TransportClose)) = handles liveState.
Proof.
  split; [|split; reflexivity].
  intros [H|H]; apply H; reflexivity.
Qed.

(** C4, amended. A transport error or close sets the status to ['error'],
    so the status never stays ['connected']; it does nothing else: no
    termination is triggered, no shutdown call is made, no resource is
    released and the connection flag is left as it was. *)
Theorem transport_failure_sets_error (s : State) :
  step s TransportError = (upd_hooks (set_status error) s, [EConsoleError])
  /\ step s TransportClose = (upd_hooks (set_status error) s, [])
  /\ status (hooks (upd_hooks (set_status error) s)) = error
  /\ handles (upd_hooks (set_status error) s) = handles s
  /\ refs (upd_hooks (set_status error) s) = refs s
  /\ env (upd_hooks (set_status error) s) = env s
  /\ steps (snd (step s TransportError)) = []
  /\ steps (snd (step s TransportClose)) = [].
Proof.
  repeat split.
Qed.

(** ** Proctoring *)

Ltac destruct_state s :=
  destruct s as [[? ? ? ? ?] [? ? ? ? ? ? ?] [? ? ? ? ? ? ? ? ?] [? ? ? ? [? ?]]];
  cbn [hooks handles refs env
       status transcriptLines isUserSpeaking systemMessageStatus timeLeft
       audioContextRef inputAudioContextRef scriptProcessorRef sourcesRef
       sessionRef streamRef animationRef
       isMountedRef nextAudioStartTimeRef terminationTriggeredRef isConnectedRef
       isAiSpeakingRef lastUserSpeechTimeRef fullTranscriptHistory
       isWaitingForResponseRef tabSwitchCountRef
       timeouts pendingFrame intervalActive listenerActive scriptProcessor
       has_onaudioprocess node_connected] in *.

Ltac exec :=
  cbn [bind gets modify emit when ret throw tryCatch stateOf effectsOf outcomeOf
       fst snd negb
       hooks handles refs env
       status transcriptLines isUserSpeaking systemMessageStatus timeLeft
       audioContextRef inputAudioContextRef scriptProcessorRef sourcesRef
       sessionRef streamRef animationRef
       isMountedRef nextAudioStartTimeRef terminationTriggeredRef isConnectedRef
       isAiSpeakingRef lastUserSpeechTimeRef fullTranscriptHistory
       isWaitingForResponseRef tabSwitchCountRef
       timeouts pendingFrame intervalActive listenerActive scriptProcessor
       upd_hooks upd_handles upd_refs upd_env
       set_status set_transcriptLines set_isUserSpeaking set_systemMessageStatus
       set_timeLeft
       set_audioContextRef set_inputAudioContextRef set_scriptProcessorRef
       set_sourcesRef set_sessionRef set_streamRef set_animationRef
       set_isMountedRef set_nextAudioStartTimeRef set_terminationTriggeredRef
       set_isConnectedRef set_isAiSpeakingRef set_lastUserSpeechTimeRef
       set_fullTranscriptHistory set_isWaitingForResponseRef set_tabSwitchCountRef
       set_timeouts set_pendingFrame set_intervalActive set_listenerActive
       set_scriptProcessor set_has_onaudioprocess set_node_connected
       has_onaudioprocess node_connected].

(** One focus loss below the threshold: the counter goes up by one and
    the warning is shown; nothing else changes. *)
Lemma focus_loss_below (s : State) :
  listenerActive (env s) = true ->
  tabSwitchCountRef (refs s) + 1 < 3 ->
  step s (VisibilityChange true)
  = (upd_hooks
       (set_systemMessageStatus
          (Some ("Warning: Tab switch detected ("
                 ++ showNumber (tabSwitchCountRef (refs s) + 1) ++ "/3)")%string))
       (upd_refs (set_tabSwitchCountRef (tabSwitchCountRef (refs s) + 1)) s),
     [tabSwitchWarning (tabSwitchCountRef (refs s) + 1)]).
Proof.
  intros L C. destruct_state s. subst.
  apply Z.leb_gt in C.
  unfold step, handler, handleVisibilityChange, setSystemMessageStatus.
  cbv [bind gets modify emit when ret stateOf effectsOf fst snd
       env refs listenerActive tabSwitchCountRef upd_refs upd_hooks
       set_tabSwitchCountRef].
  rewrite C. reflexivity.
Qed.

(** A focus loss that reaches the threshold: counter, warning, and then
    [handleTermination] with the disqualification reason. *)
Lemma focus_loss_at_threshold (s : State) :
  listenerActive (env s) = true ->
  3 <= tabSwitchCountRef (refs s) + 1 ->
  terminationTriggeredRef (refs s) = false ->
  step s (VisibilityChange true)
  = (terminating tabSwitchReason
       (upd_hooks
          (set_systemMessageStatus
             (Some ("Warning: Tab switch detected ("
                    ++ showNumber (tabSwitchCountRef (refs s) + 1) ++ "/3)")%string))
          (upd_refs (set_tabSwitchCountRef (tabSwitchCountRef (refs s) + 1)) s)),
     [tabSwitchWarning (tabSwitchCountRef (refs s) + 1);
      ESetSystemMessage ("Ending: " ++ tabSwitchReason)%string]).
Proof.
  intros L C F. destruct_state s. subst.
  apply Z.leb_le in C.
  unfold step, handler, handleVisibilityChange, setSystemMessageStatus.
  cbv [bind gets modify emit when ret stateOf effectsOf fst snd
       env refs listenerActive tabSwitchCountRef upd_refs upd_hooks
       set_tabSwitchCountRef].
  rewrite C. rewrite handleTermination_first by reflexivity.
  reflexivity.
Qed.

(** Every focus loss, at any count and whether or not the session is
    already terminating, adds one to the counter and shows the warning
    first. *)
Lemma focus_loss_counts (s : State) :
  listenerActive (env s) = true ->
  tabSwitchCountRef (refs (fst (step s (VisibilityChange true))))
  = tabSwitchCountRef (refs s) + 1
  /\ exists rest,
       snd (step s (VisibilityChange true))
       = tabSwitchWarning (tabSwitchCountRef (refs s) + 1) :: rest.
Proof.
  intro L. destruct_state s. subst.
  unfold step, handler, handleVisibilityChange, handleTermination,
    setSystemMessageStatus, setTimeout.
  exec.
  destruct (3 <=? _); exec;
    [match goal with
     | |- context [if ?b then _ else _] => destruct b
     end; exec|];
    (split; [reflexivity | eexists; reflexivity]).
Qed.

(** C7. Focus-loss counter. From a live session with no focus loss yet:
    after two focus losses the counter is 2, two warnings were shown, the
    termination flag is clear and no shutdown is pending; the third focus
    loss shows its warning too, sets the flag and schedules the shutdown
    with the disqualification reason. A visibility change that is not a
    loss of focus does nothing, and every loss of focus, in any state,
    adds one to the counter and shows its warning. *)
Theorem focus_loss_threshold (s : State) :
  listenerActive (env s) = true ->
  tabSwitchCountRef (refs s) = 0 ->
  terminationTriggeredRef (refs s) = false ->
  timeouts (env s) = [] ->
  let two := run [VisibilityChange true; VisibilityChange true] s in
  let three := run [VisibilityChange true; VisibilityChange true;
                    VisibilityChange true] s in
  tabSwitchCountRef (refs (fst two)) = 2
  /\ snd two = [tabSwitchWarning 1; tabSwitchWarning 2]
  /\ terminationTriggeredRef (refs (fst two)) = false
  /\ timeouts (env (fst two)) = []
  /\ tabSwitchCountRef (refs (fst three)) = 3
  /\ snd three = [tabSwitchWarning 1; tabSwitchWarning 2; tabSwitchWarning 3;
                  ESetSystemMessage ("Ending: " ++ tabSwitchReason)%string]
  /\ terminationTriggeredRef (refs (fst three)) = true
  /\ timeouts (env (fst three)) = [shutdownOf tabSwitchReason]
  /\ step s (VisibilityChange false) = (s, [])
  /\ (forall s', listenerActive (env s') = true ->
        tabSwitchCountRef (refs (fst (step s' (VisibilityChange true))))
        = tabSwitchCountRef (refs s') + 1
        /\ exists rest,
             snd (step s' (VisibilityChange true))
             = tabSwitchWarning (tabSwitchCountRef (refs s') + 1) :: rest).
Proof.
  intros L C F T two three.
  assert (S1 : step s (VisibilityChange true)
               = (upd_hooks
                    (set_systemMessageStatus
                       (Some "Warning: Tab switch detected (1/3)"))
                    (upd_refs (set_tabSwitchCountRef 1) s),
                  [tabSwitchWarning 1])).
  { rewrite focus_loss_below by (rewrite ?C; auto; lia). rewrite C. reflexivity. }
  set (s1 := upd_hooks (set_systemMessageStatus
                          (Some "Warning: Tab switch detected (1/3)"))
               (upd_refs (set_tabSwitchCountRef 1) s)) in *.
  assert (S2 : step s1 (VisibilityChange true)
               = (upd_hooks
                    (set_systemMessageStatus
                       (Some "Warning: Tab switch detected (2/3)"))
                    (upd_refs (set_tabSwitchCountRef 2) s1),
                  [tabSwitchWarning 2])).
  { rewrite focus_loss_below; [reflexivity | exact L | cbn; lia]. }
  set (s2 := upd_hooks (set_systemMessageStatus
                          (Some "Warning: Tab switch detected (2/3)"))
               (upd_refs (set_tabSwitchCountRef 2) s1)) in *.
  assert (S3 : step s2 (VisibilityChange true)
               = (terminating tabSwitchReason
                    (upd_hooks
                       (set_systemMessageStatus
                          (Some "Warning: Tab switch detected (3/3)"))
                       (upd_refs (set_tabSwitchCountRef 3) s2)),
                  [tabSwitchWarning 3;
                   ESetSystemMessage ("Ending: " ++ tabSwitchReason)%string])).
  { rewrite focus_loss_at_threshold; [reflexivity | exact L | cbn; lia | exact F]. }
  subst two three. cbn [run]. rewrite S1, S2. cbn [run]. rewrite S3.
  cbn [fst snd app].
  split; [reflexivity|]. split; [reflexivity|]. split; [exact F|].
  split; [exact T|]. split; [reflexivity|]. split; [reflexivity|].
  split; [reflexivity|]. split; [cbn; rewrite T; reflexivity|].
  split; [unfold step, handler, bind, gets; rewrite L; reflexivity|].
  intros s' L'. apply focus_loss_counts. exact L'.
Qed.

Lemma focus_loss_threshold_witness :
  listenerActive (env liveState) = true
  /\ tabSwitchCountRef (refs liveState) = 0
  /\ terminationTriggeredRef (refs liveState) = false
  /\ timeouts (env liveState) = []
  /\ timeouts (env (fst (run [VisibilityChange true; VisibilityChange true;
                               VisibilityChange true] liveState)))
     = [shutdownOf tabSwitchReason].
Proof.
  repeat (split; [reflexivity|]).
  destruct (focus_loss_threshold liveState eq_refl eq_refl eq_refl eq_refl)
    as [_ [_ [_ [_ [_ [_ [_ [H _]]]]]]]].
  exact H.
Defined.

(** *** Countdown *)

Lemma tick_counts_down (s : State) :
  intervalActive (env s) = true ->
  1 < timeLeft (hooks s) ->
  step s TimerTick = (upd_hooks (set_timeLeft (timeLeft (hooks s) - 1)) s, []).
Proof.
  intros A C. destruct_state s. subst. apply Z.leb_gt in C.
  unfold step, handler, timerTick.
  cbv [bind gets modify emit when ret stateOf effectsOf fst snd
       env hooks intervalActive timeLeft upd_hooks].
  rewrite C. reflexivity.
Qed.

Lemma tick_times_out (s : State) :
  intervalActive (env s) = true ->
  timeLeft (hooks s) <= 1 ->
  terminationTriggeredRef (refs s) = false ->
  step s TimerTick
  = (upd_hooks (set_timeLeft 0) (terminating timeLimitReason s),
     [ESetSystemMessage ("Ending: " ++ timeLimitReason)%string]).
Proof.
  intros A C F. destruct_state s. subst. apply Z.leb_le in C.
  unfold step, handler, timerTick.
  cbv [bind gets modify emit when ret stateOf effectsOf fst snd
       env hooks intervalActive timeLeft upd_hooks].
  rewrite C. rewrite handleTermination_first by reflexivity.
  reflexivity.
Qed.

(** A tick never makes the remaining time negative. *)
Lemma tick_nonnegative (s : State) :
  0 <= timeLeft (hooks s) -> 0 <= timeLeft (hooks (fst (step s TimerTick))).
Proof.
  intro H. destruct_state s.
  unfold step, handler, timerTick, handleTermination, setSystemMessageStatus, setTimeout.
  cbv [bind gets modify emit when ret stateOf effectsOf fst snd
       env hooks refs intervalActive timeLeft upd_hooks upd_refs upd_env
       terminationTriggeredRef set_terminationTriggeredRef
       set_systemMessageStatus set_timeLeft].
  repeat match goal with
         | |- context [if ?b then _ else _] => destruct b eqn:?
         end; cbn; try lia.
Qed.

Lemma ticks_nonnegative (n : nat) (s : State) :
  0 <= timeLeft (hooks s) -> 0 <= timeLeft (hooks (fst (ticks n s))).
Proof.
  unfold ticks. revert s. induction n as [|n IH]; intros s H; [exact H|].
  cbn [repeat run]. pose proof (tick_nonnegative s H) as H1.
  destruct (step s TimerTick) as [s1 l1]. cbn [fst] in H1.
  specialize (IH s1 H1). destruct (run (repeat TimerTick n) s1) as [s2 l2].
  exact IH.
Qed.

(** Before the remaining time runs out, [n] ticks only count down. *)
Lemma ticks_count_down (n : nat) (s : State) :
  intervalActive (env s) = true ->
  Z.of_nat n < timeLeft (hooks s) ->
  ticks n s = (upd_hooks (set_timeLeft (timeLeft (hooks s) - Z.of_nat n)) s, []).
Proof.
  unfold ticks. revert s. induction n as [|n IH]; intros s A C.
  - cbn [repeat run]. destruct_state s. cbn. rewrite Z.sub_0_r. reflexivity.
  - cbn [repeat run]. rewrite tick_counts_down by (try assumption; lia).
    rewrite IH; [|exact A|cbn [upd_hooks hooks timeLeft set_timeLeft]; lia].
    destruct_state s. cbn [app upd_hooks hooks timeLeft set_timeLeft].
    match goal with
    | |- context [?x - 1 - Z.of_nat n] =>
        replace (x - 1 - Z.of_nat n) with (x - Z.of_nat (S n)) by lia
    end.
    reflexivity.
Qed.

(** C8. Countdown timeout. With 600 seconds on the clock, the termination
    flag clear and nothing scheduled: fewer than 600 ticks only count the
    remaining time down, without triggering anything; the 600th tick
    triggers the termination with the time-limit reason and leaves the
    remaining time at 0; and the remaining time is never negative, however
    many ticks follow. *)
Theorem countdown_timeout (s : State) :
  intervalActive (env s) = true ->
  timeLeft (hooks s) = 600 ->
  terminationTriggeredRef (refs s) = false ->
  timeouts (env s) = [] ->
  (forall n, (n < 600)%nat ->
     timeLeft (hooks (fst (ticks n s))) = 600 - Z.of_nat n
     /\ terminationTriggeredRef (refs (fst (ticks n s))) = false
     /\ timeouts (env (fst (ticks n s))) = []
     /\ snd (ticks n s) = [])
  /\ timeLeft (hooks (fst (ticks 600 s))) = 0
  /\ terminationTriggeredRef (refs (fst (ticks 600 s))) = true
  /\ timeouts (env (fst (ticks 600 s))) = [shutdownOf timeLimitReason]
  /\ snd (ticks 600 s) = [ESetSystemMessage ("Ending: " ++ timeLimitReason)%string]
  /\ (forall n, 0 <= timeLeft (hooks (fst (ticks n s)))).
Proof.
  intros A L F T.
  assert (Before : forall n, (n < 600)%nat ->
            ticks n s = (upd_hooks (set_timeLeft (600 - Z.of_nat n)) s, [])).
  { intros n Hn. rewrite ticks_count_down by (try assumption; lia).
    rewrite L. reflexivity. }
  split.
  { intros n Hn. rewrite (Before n Hn). cbn [fst snd].
    repeat split; try assumption. }
  assert (Last : ticks 600 s
                 = (upd_hooks (set_timeLeft 0)
                      (terminating timeLimitReason
                         (upd_hooks (set_timeLeft 1) s)),
                    [ESetSystemMessage ("Ending: " ++ timeLimitReason)%string])).
  { assert (E : repeat TimerTick 600 = repeat TimerTick 599 ++ [TimerTick])
      by (change 600%nat with (599 + 1)%nat; rewrite repeat_app; reflexivity).
    unfold ticks. rewrite E.
    assert (Split : forall evs1 evs2 s0,
              run (evs1 ++ evs2) s0
              = (fst (run evs2 (fst (run evs1 s0))),
                 snd (run evs1 s0) ++ snd (run evs2 (fst (run evs1 s0))))).
    { induction evs1 as [|ev evs1 IH]; intros evs2 s0.
      - cbn [app run fst snd]. destruct (run evs2 s0); reflexivity.
      - cbn [app run]. destruct (step s0 ev) as [s1 l1]. rewrite IH.
        destruct (run evs1 s1) as [s2 l2]. cbn [fst snd].
        rewrite app_assoc. reflexivity. }
    rewrite Split. change (run (repeat TimerTick 599) s) with (ticks 599 s).
    rewrite (Before 599%nat) by lia.
    cbn [fst snd app run].
    rewrite tick_times_out;
      [reflexivity | exact A | cbn [upd_hooks hooks timeLeft set_timeLeft]; lia
      | exact F]. }
  rewrite Last. cbn [fst snd].
  repeat split.
  - cbn. rewrite T. reflexivity.
  - intro n. apply ticks_nonnegative. rewrite L. lia.
Qed.

Lemma countdown_timeout_witness :
  intervalActive (env liveState) = true
  /\ timeLeft (hooks liveState) = 600
  /\ terminationTriggeredRef (refs liveState) = false
  /\ timeouts (env liveState) = []
  /\ timeouts (env (fst (ticks 600 liveState))) = [shutdownOf timeLimitReason].
Proof.
  repeat (split; [reflexivity|]).
  apply (countdown_timeout liveState eq_refl eq_refl eq_refl eq_refl).
Defined.

(** ** The transcript *)

Lemma appendsAgent_refl (s : State) : appendsAgent s s [].
Proof.
  split; [|constructor]. exists []. rewrite app_nil_r. split; [reflexivity|constructor].
Qed.

Lemma appendsAgent_trans (s1 s2 s3 : State) (l1 l2 : list Effect) :
  appendsAgent s1 s2 l1 -> appendsAgent s2 s3 l2 -> appendsAgent s1 s3 (l1 ++ l2).
Proof.
  intros [[a1 [E1 A1]] N1] [[a2 [E2 A2]] N2]. split.
  - exists (a1 ++ a2). rewrite E2, E1, app_assoc. split; [reflexivity|].
    apply Forall_app. split; assumption.
  - apply Forall_app. split; assumption.
Qed.

Lemma disconnect_appendsAgent : obeys appendsAgent disconnect.
Proof.
  intro s. rewrite disconnect_run. unfold stateOf, effectsOf; cbn [fst snd].
  split; [|apply disconnectEffects_notComplete].
  exists []. rewrite app_nil_r. split; [reflexivity|constructor].
Qed.

Ltac append_step :=
  first
    [ apply disconnect_appendsAgent
    | apply obeys_modify; intro; split;
      [exists []; rewrite app_nil_r; split; [reflexivity|constructor] | constructor]
    | apply obeys_modify; intro; split;
      [eexists; split;
       [reflexivity | repeat constructor; eexists; reflexivity] | constructor]
    | apply obeys_emit; intro; split;
      [exists []; rewrite app_nil_r; split; [reflexivity|constructor]
      | repeat constructor] ].

Lemma handler_appendsAgent (ev : Event) :
  ev <> TimeoutFires -> obeys appendsAgent (handler ev).
Proof.
  intro Hev. destruct ev; try congruence; clear Hev;
    unfold handler, onopen, onmessage, onmessage_with, playAudio, onerror, onclose,
      onaudioprocess, onended, timerTick, handleVisibilityChange, endInterviewClick,
      draw, unmount, setStatus, handleTermination, setSystemMessageStatus, setTimeout;
    obeys_with appendsAgent_refl appendsAgent_trans ltac:(append_step).
Qed.

Lemma keepsTranscripts_refl (s : State) : keepsTranscripts s s [].
Proof. split; reflexivity. Qed.

Lemma keepsTranscripts_trans (s1 s2 s3 : State) (l1 l2 : list Effect) :
  keepsTranscripts s1 s2 l1 -> keepsTranscripts s2 s3 l2 ->
  keepsTranscripts s1 s3 (l1 ++ l2).
Proof. intros [A1 B1] [A2 B2]. split; congruence. Qed.

Lemma disconnect_keepsTranscripts : obeys keepsTranscripts disconnect.
Proof. intro s. rewrite disconnect_run. split; reflexivity. Qed.

Lemma handler_keepsTranscripts (ev : Event) :
  (forall message currentTime, ev <> Message message currentTime) ->
  obeys keepsTranscripts (handler ev).
Proof.
  intro Hev. destruct ev; try (exfalso; eapply Hev; reflexivity); clear Hev;
    unfold handler, onopen, onerror, onclose, onaudioprocess,
      onended, timerTick, handleVisibilityChange, endInterviewClick,
      draw, unmount, runCallback, setStatus, handleTermination,
      setSystemMessageStatus, setTimeout;
    obeys_with keepsTranscripts_refl keepsTranscripts_trans
      ltac:(first [ apply disconnect_keepsTranscripts
                  | apply obeys_modify; intro; split; reflexivity
                  | apply obeys_emit; intro; split; reflexivity ]).
Qed.

(** What the oldest pending callback does when it fires. *)
Lemma timeout_run (s : State) (reason : string) (d : Z) (rest : list Timeout) :
  timeouts (env s) = {| callback := ShutdownThenComplete reason; delay := d |} :: rest ->
  step s TimeoutFires
  = (disconnected (upd_env (set_timeouts rest) s),
     disconnectEffects (upd_env (set_timeouts rest) s)
     ++ [EOnComplete (join (fullTranscriptHistory (refs s))) reason]).
Proof.
  intro T. unfold step, handler.
  rewrite (bind_run _ _ s s (timeouts (env s)) []) by reflexivity. rewrite T.
  rewrite (bind_run _ _ s (upd_env (set_timeouts rest) s) tt []) by reflexivity.
  cbn [callback]. rewrite runCallback_run. reflexivity.
Qed.

Lemma timeout_idle (s : State) :
  timeouts (env s) = [] -> step s TimeoutFires = (s, []).
Proof.
  intro T. unfold step, handler.
  rewrite (bind_run _ _ s s (timeouts (env s)) []) by reflexivity. rewrite T.
  reflexivity.
Qed.

(** [onComplete] is called by the scheduled callback only, with the join of
    the history as it stands when the callback fires. *)
Lemma step_onComplete (s : State) (ev : Event) (transcript reason : string) :
  In (EOnComplete transcript reason) (snd (step s ev)) ->
  ev = TimeoutFires /\ transcript = join (fullTranscriptHistory (refs s)).
Proof.
  intro H.
  assert (Quiet : forall ev', ev' <> TimeoutFires ->
            ~ In (EOnComplete transcript reason) (snd (step s ev'))).
  { intros ev' Hev' G. destruct (handler_appendsAgent ev' Hev' s) as [_ N].
    rewrite Forall_forall in N. exact (N _ G). }
  destruct ev; try (exfalso; eapply Quiet; [|exact H]; discriminate).
  split; [reflexivity|].
  destruct (timeouts (env s)) as [|[[r] d] rest] eqn:T.
  - rewrite (timeout_idle s T) in H. destruct H.
  - rewrite (timeout_run s r d rest T) in H. cbn [snd] in H.
    apply in_app_or in H. destruct H as [H|[H|[]]].
    + pose proof (disconnectEffects_notComplete (upd_env (set_timeouts rest) s)) as N.
      rewrite Forall_forall in N. destruct (N _ H).
    + congruence.
Qed.

Lemma step_agentOnly (s : State) (ev : Event) :
  agentOnly (fullTranscriptHistory (refs s)) ->
  agentOnly (fullTranscriptHistory (refs (fst (step s ev)))).
Proof.
  intro I.
  assert (Message_ : forall ev', ev' <> TimeoutFires ->
            agentOnly (fullTranscriptHistory (refs (fst (step s ev'))))).
  { intros ev' Hev'. destruct (handler_appendsAgent ev' Hev' s) as [[added [E A]] _].
    unfold step; cbn [fst]. rewrite E. apply Forall_app. split; assumption. }
  destruct ev; try (apply Message_; discriminate).
  destruct (handler_keepsTranscripts TimeoutFires ltac:(discriminate) s) as [E _].
  unfold step; cbn [fst]. rewrite E. exact I.
Qed.

Lemma run_cons (ev : Event) (evs : list Event) (s : State) :
  run (ev :: evs) s
  = (fst (run evs (fst (step s ev))), snd (step s ev) ++ snd (run evs (fst (step s ev)))).
Proof.
  cbn [run]. destruct (step s ev) as [s1 l1]. cbn [fst snd].
  destruct (run evs s1) as [s2 l2]. reflexivity.
Qed.

Lemma run_agentOnly (evs : list Event) (s : State) :
  agentOnly (fullTranscriptHistory (refs s)) ->
  agentOnly (fullTranscriptHistory (refs (fst (run evs s)))).
Proof.
  revert s. induction evs as [|ev evs IH]; intros s I; [exact I|].
  rewrite run_cons. cbn [fst]. apply IH, step_agentOnly, I.
Qed.

Lemma run_onComplete (evs : list Event) (s : State) (transcript reason : string) :
  In (EOnComplete transcript reason) (snd (run evs s)) ->
  exists before after,
    evs = before ++ TimeoutFires :: after
    /\ transcript = join (fullTranscriptHistory (refs (fst (run before s)))).
Proof.
  revert s. induction evs as [|ev evs IH]; intros s H; [destruct H|].
  rewrite run_cons in H. cbn [snd] in H. apply in_app_or in H. destruct H as [H|H].
  - destruct (step_onComplete s ev transcript reason H) as [-> E].
    exists [], evs. split; [reflexivity | exact E].
  - destruct (IH _ H) as [before [after [E1 E2]]].
    exists (ev :: before), after. split.
    + rewrite E1. reflexivity.
    + rewrite run_cons. exact E2.
Qed.

(** The first part's text, when it is defined and not empty, is what the
    text branch of [onmessage] reads. *)
Lemma firstText_some (message : LiveServerMessage) (p : Part) (rest : list Part)
    (t : string) :
  parts message = Some (p :: rest) -> part_text p = Some t -> t <> "" ->
  firstText message = Some t.
Proof.
  intros P T N. unfold firstText, firstPart. rewrite P, T.
  destruct t; [congruence | reflexivity].
Qed.

Lemma firstText_none (message : LiveServerMessage) :
  (forall p rest t, parts message = Some (p :: rest) -> part_text p = Some t -> t = "") ->
  firstText message = None.
Proof.
  intro H. unfold firstText, firstPart.
  destruct (parts message) as [[|p rest]|]; try reflexivity.
  destruct (part_text p) as [[|c t]|] eqn:T; try reflexivity.
  discriminate (H p rest _ eq_refl T).
Qed.

Lemma message_history (s : State) (message : LiveServerMessage) (currentTime : Q) :
  fullTranscriptHistory (refs (fst (step s (Message message currentTime))))
  = if isMountedRef (refs s)
    then match firstText message with
         | Some t => fullTranscriptHistory (refs s) ++ [("AI: " ++ t)%string]
         | None => fullTranscriptHistory (refs s)
         end
    else fullTranscriptHistory (refs s).
Proof.
  destruct_state s.
  unfold step, handler, onmessage, onmessage_with, playAudio, handleTermination,
    setSystemMessageStatus, setTimeout.
  destruct isMountedRef0; exec; [|reflexivity].
  destruct (toolCall message) as [calls|]; exec.
  1: destruct (find _ calls); exec.
  1: destruct terminationTriggeredRef0; exec.
  all: destruct (firstText message); exec.
  all: destruct (turnComplete message); exec.
  all: destruct (firstInlineData message); reflexivity.
Qed.

(** C10. The transcript holds agent utterances only. The history changes
    in one place: an inbound message received while mounted, whose first
    part carries a text that is not empty, appends that text prefixed with
    ["AI: "]; every other event (the capture callback that hears the user
    among them) and every other message leaves the history as it is. So,
    starting from an agent-only history (the empty one of a fresh
    session), every entry is an ["AI: "] entry whatever events arrive; and
    every [onComplete] call is made by a firing shutdown callback and
    hands over the newline-join of the history as it stands at that
    moment, which is agent-only. *)
Theorem transcript_agent_only (s0 : State) (evs : list Event) :
  agentOnly (fullTranscriptHistory (refs s0)) ->
  agentOnly (fullTranscriptHistory (refs (fst (run evs s0))))
  /\ (forall transcript reason,
        In (EOnComplete transcript reason) (snd (run evs s0)) ->
        exists before after,
          evs = before ++ TimeoutFires :: after
          /\ transcript = join (fullTranscriptHistory (refs (fst (run before s0))))
          /\ agentOnly (fullTranscriptHistory (refs (fst (run before s0)))))
  /\ (forall s ev,
        (forall message currentTime, ev <> Message message currentTime) ->
        fullTranscriptHistory (refs (fst (step s ev))) = fullTranscriptHistory (refs s))
  /\ (forall s message currentTime p rest t,
        isMountedRef (refs s) = true ->
        parts message = Some (p :: rest) -> part_text p = Some t -> t <> "" ->
        fullTranscriptHistory (refs (fst (step s (Message message currentTime))))
        = fullTranscriptHistory (refs s) ++ [("AI: " ++ t)%string])
  /\ (forall s message currentTime,
        isMountedRef (refs s) = false
        \/ (forall p rest t,
              parts message = Some (p :: rest) -> part_text p = Some t -> t = "") ->
        fullTranscriptHistory (refs (fst (step s (Message message currentTime))))
        = fullTranscriptHistory (refs s)).
Proof.
  intro I. split; [|split; [|split; [|split]]].
  - apply run_agentOnly, I.
  - intros transcript reason H.
    destruct (run_onComplete evs s0 transcript reason H) as [before [after [E1 E2]]].
    exists before, after. split; [exact E1|]. split; [exact E2|].
    apply run_agentOnly, I.
  - intros s ev Hev. destruct (handler_keepsTranscripts ev Hev s) as [E _]. exact E.
  - intros s message currentTime p rest t Mo P T N.
    rewrite message_history, Mo, (firstText_some message p rest t P T N). reflexivity.
  - intros s message currentTime [Mo|H]; rewrite message_history.
    + rewrite Mo. reflexivity.
    + rewrite (firstText_none message H). destruct (isMountedRef (refs s)); reflexivity.
Qed.

Lemma transcript_agent_only_witness :
  agentOnly (fullTranscriptHistory (refs liveState))
  /\ In (EOnComplete "AI: Hello" "User ended session")
        (snd (run [Message {| toolCall := None;
                              parts := Some [{| part_text := Some "Hello";
                                                inlineData := None |}];
                              turnComplete := false |} 0;
                   EndInterviewClick; TimeoutFires] liveState))
  /\ agentOnly
       (fullTranscriptHistory
          (refs (fst (run [Message {| toolCall := None;
                                      parts := Some [{| part_text := Some "Hello";
                                                        inlineData := None |}];
                                      turnComplete := false |} 0;
                           EndInterviewClick; TimeoutFires] liveState))))
  /\ exists before after,
       [Message {| toolCall := None;
                   parts := Some [{| part_text := Some "Hello";
                                     inlineData := None |}];
                   turnComplete := false |} 0;
        EndInterviewClick; TimeoutFires] = before ++ TimeoutFires :: after
       /\ "AI: Hello" = join (fullTranscriptHistory (refs (fst (run before liveState))))
       /\ agentOnly (fullTranscriptHistory (refs (fst (run before liveState)))).
Proof.
  assert (H : agentOnly (fullTranscriptHistory (refs liveState))) by constructor.
  assert (G : In (EOnComplete "AI: Hello" "User ended session")
                (snd (run [Message {| toolCall := None;
                                      parts := Some [{| part_text := Some "Hello";
                                                        inlineData := None |}];
                                      turnComplete := false |} 0;
                           EndInterviewClick; TimeoutFires] liveState))).
  { vm_compute. repeat (first [left; reflexivity | right]). }
  destruct (transcript_agent_only liveState
              [Message {| toolCall := None;
                          parts := Some [{| part_text := Some "Hello";
                                            inlineData := None |}];
                          turnComplete := false |} 0;
               EndInterviewClick; TimeoutFires] H) as [A [B _]].
  split; [exact H|]. split; [exact G|]. split; [exact A|].
  exact (B "AI: Hello" "User ended session" G).
Defined.

(** ** Voice activity *)

Section VoiceActivityFacts.
Local Open Scope float_scope.

Lemma SFcompare_antisym (f1 f2 : spec_float) :
  SFcompare f2 f1 = option_map CompOpp (SFcompare f1 f2).
Proof.
  destruct f1 as [s1|s1| |s1 m1 e1], f2 as [s2|s2| |s2 m2 e2]; cbn;
    try reflexivity; try (destruct s1; reflexivity); try (destruct s2; reflexivity);
    try (destruct s1, s2; reflexivity).
  destruct s1, s2; try reflexivity; rewrite (Z.compare_antisym e1 e2);
    destruct (e1 ?= e2)%Z; cbn; try reflexivity;
    rewrite (Pos.compare_cont_antisym m1 m2 Eq); cbn;
    destruct (Pos.compare_cont Eq m1 m2); reflexivity.
Qed.

Lemma SFcompare_none (f1 f2 : spec_float) :
  SFcompare f1 f2 = None -> f1 = S754_nan \/ f2 = S754_nan.
Proof.
  destruct f1 as [s1|s1| |s1 m1 e1], f2 as [s2|s2| |s2 m2 e2]; cbn; auto; discriminate.
Qed.

Lemma ltb_asym (x y : float) : (x <? y) = true -> (y <? x) = false.
Proof.
  rewrite !FloatAxioms.ltb_spec. unfold SFltb.
  rewrite (SFcompare_antisym (Prim2SF x) (Prim2SF y)).
  destruct (SFcompare (Prim2SF x) (Prim2SF y)) as [[| |]|]; cbn; congruence.
Qed.

Lemma eqb_not_ltb (x y : float) : (x =? y) = true -> (y <? x) = false.
Proof.
  rewrite FloatAxioms.eqb_spec, FloatAxioms.ltb_spec. unfold SFeqb, SFltb.
  rewrite (SFcompare_antisym (Prim2SF x) (Prim2SF y)).
  destruct (SFcompare (Prim2SF x) (Prim2SF y)) as [[| |]|]; cbn; congruence.
Qed.

Lemma is_nan_spec (x : float) : PrimFloat.is_nan x = true -> Prim2SF x = S754_nan.
Proof.
  unfold PrimFloat.is_nan. rewrite FloatAxioms.eqb_spec. unfold SFeqb.
  destruct (Prim2SF x) as [s1|s1| |s1 m1 e1]; cbn; try reflexivity;
    try (destruct s1; discriminate).
  destruct s1; rewrite Z.compare_refl, Pos.compare_cont_refl; discriminate.
Qed.

Lemma nan_not_ltb (x y : float) : PrimFloat.is_nan x = true -> (y <? x) = false.
Proof.
  intro N. rewrite FloatAxioms.ltb_spec, (is_nan_spec x N). unfold SFltb.
  destruct (Prim2SF y) as [s1|s1| |s1 m1 e1]; reflexivity.
Qed.

(** Against a threshold that is a number, a value is above it, equal to
    it, below it, or not a number. *)
Lemma float_cases (t x : float) :
  PrimFloat.is_nan t = false ->
  (t <? x) = true \/ (x =? t) = true \/ (x <? t) = true \/ PrimFloat.is_nan x = true.
Proof.
  intro T.
  assert (Tn : Prim2SF t <> S754_nan).
  { intro E. revert T. unfold PrimFloat.is_nan.
    rewrite FloatAxioms.eqb_spec, E. discriminate. }
  unfold PrimFloat.is_nan.
  rewrite !FloatAxioms.ltb_spec, !FloatAxioms.eqb_spec. unfold SFltb, SFeqb.
  rewrite (SFcompare_antisym (Prim2SF t) (Prim2SF x)).
  destruct (SFcompare (Prim2SF t) (Prim2SF x)) as [[| |]|] eqn:C; cbn; auto.
  destruct (SFcompare_none _ _ C) as [E|E]; [contradiction|].
  rewrite E. cbn. auto.
Qed.

(** What [onaudioprocess] leaves in the cells of the voice-activity test
    while connected. *)
Lemma onaudioprocess_marks (s : State) (inputData : Frame) (sampleRate dateNow : Z) :
  isConnectedRef (refs s) = true ->
  isUserSpeaking (hooks (stateOf (onaudioprocess inputData sampleRate dateNow s)))
  = speaking inputData
  /\ lastUserSpeechTimeRef (refs (stateOf (onaudioprocess inputData sampleRate dateNow s)))
     = (if speaking inputData then dateNow else lastUserSpeechTimeRef (refs s))
  /\ isWaitingForResponseRef
       (refs (stateOf (onaudioprocess inputData sampleRate dateNow s)))
     = (if speaking inputData then false else isWaitingForResponseRef (refs s)).
Proof.
  intro C. destruct_state s. subst. unfold onaudioprocess. exec.
  destruct (speaking inputData); exec; destruct (0 <? _)%Z; repeat split.
Qed.

(** C6. Voice-activity classification. The RMS the capture callback
    computes is the square root of the mean of the squared samples, summed
    from the first sample to the last in double arithmetic. While
    connected, the callback marks the user as speaking exactly when that
    RMS is strictly above 0.02 (the double nearest to 2/100); a frame whose
    RMS equals 0.02, is below it, or is not a number (an empty frame) is
    marked as not speaking, and these four cases are all there are. A
    frame marked as speaking records the time and clears the waiting flag;
    one that is not leaves both. The mark is a function of the frame's
    samples alone. *)
Theorem vad_strict_threshold (s : State) (inputData : Frame)
    (sampleRate dateNow : Z) :
  isConnectedRef (refs s) = true ->
  rms inputData
  = PrimFloat.sqrt
      (fold_left (fun sum x => sum + x * x) inputData 0
       / PrimFloat.of_uint63 (Uint63.of_Z (Z.of_nat (List.length inputData))))
  /\ (isUserSpeaking (hooks (stateOf (onaudioprocess inputData sampleRate dateNow s)))
      = true
      <-> (0x1.47ae147ae147bp-6 <? rms inputData) = true)
  /\ ((rms inputData =? 0x1.47ae147ae147bp-6) = true ->
      isUserSpeaking (hooks (stateOf (onaudioprocess inputData sampleRate dateNow s)))
      = false)
  /\ ((rms inputData <? 0x1.47ae147ae147bp-6) = true ->
      isUserSpeaking (hooks (stateOf (onaudioprocess inputData sampleRate dateNow s)))
      = false)
  /\ (PrimFloat.is_nan (rms inputData) = true ->
      isUserSpeaking (hooks (stateOf (onaudioprocess inputData sampleRate dateNow s)))
      = false)
  /\ ((0x1.47ae147ae147bp-6 <? rms inputData) = true
      \/ (rms inputData =? 0x1.47ae147ae147bp-6) = true
      \/ (rms inputData <? 0x1.47ae147ae147bp-6) = true
      \/ PrimFloat.is_nan (rms inputData) = true)
  /\ (isUserSpeaking (hooks (stateOf (onaudioprocess inputData sampleRate dateNow s)))
      = true ->
      lastUserSpeechTimeRef
        (refs (stateOf (onaudioprocess inputData sampleRate dateNow s))) = dateNow
      /\ isWaitingForResponseRef
           (refs (stateOf (onaudioprocess inputData sampleRate dateNow s))) = false)
  /\ (isUserSpeaking (hooks (stateOf (onaudioprocess inputData sampleRate dateNow s)))
      = false ->
      lastUserSpeechTimeRef
        (refs (stateOf (onaudioprocess inputData sampleRate dateNow s)))
      = lastUserSpeechTimeRef (refs s)
      /\ isWaitingForResponseRef
           (refs (stateOf (onaudioprocess inputData sampleRate dateNow s)))
         = isWaitingForResponseRef (refs s))
  /\ (forall s' sampleRate' dateNow',
        isConnectedRef (refs s') = true ->
        isUserSpeaking
          (hooks (stateOf (onaudioprocess inputData sampleRate' dateNow' s')))
        = isUserSpeaking
            (hooks (stateOf (onaudioprocess inputData sampleRate dateNow s)))).
Proof.
  intro C.
  destruct (onaudioprocess_marks s inputData sampleRate dateNow C) as [E [L W]].
  rewrite E, L, W. unfold speaking, vadThreshold.
  split; [reflexivity|]. split; [tauto|].
  split; [apply eqb_not_ltb|]. split; [apply ltb_asym|]. split; [apply nan_not_ltb|].
  split; [apply float_cases; reflexivity|].
  split; [intros ->; split; reflexivity|].
  split; [intros ->; split; reflexivity|].
  intros s' sampleRate' dateNow' C'.
  destruct (onaudioprocess_marks s' inputData sampleRate' dateNow' C') as [E' _].
  exact E'.
Qed.

Lemma vad_strict_threshold_witness :
  isConnectedRef (refs liveState) = true
  /\ (rms boundaryFrame =? 0x1.47ae147ae147bp-6) = true
  /\ isUserSpeaking
       (hooks (stateOf (onaudioprocess boundaryFrame 48000 0 liveState)))
     = false.
Proof.
  split; [reflexivity|]. split; [reflexivity|].
  destruct (vad_strict_threshold liveState boundaryFrame 48000 0 eq_refl)
    as [_ [_ [H _]]].
  apply H. reflexivity.
Defined.
End VoiceActivityFacts.

(** ** Resampling *)

Section ResamplingFacts.

Lemma Qfloor_ratio (a c : Z) :
  0 < c -> Qfloor (inject_Z a / inject_Z c) = a / c.
Proof.
  intro Hc. destruct c as [|p|p]; try lia.
  unfold Qdiv, Qinv, Qmult, inject_Z, Qfloor. cbn [Qnum Qden].
  rewrite Z.mul_1_r, Pos.mul_1_l. reflexivity.
Qed.

Lemma Qfloor_sourceIndex (sourceRate targetRate : Z) (k : nat) :
  0 < targetRate ->
  Qfloor (sourceIndex sourceRate targetRate k) = Z.of_nat k * sourceRate / targetRate.
Proof.
  intro Ht. destruct targetRate as [|p|p]; try lia. reflexivity.
Qed.

Lemma sourceIndex_ratio (sourceRate targetRate : Z) (k : nat) :
  0 < targetRate ->
  (sourceIndex sourceRate targetRate k
   == inject_Z (Z.of_nat k) * inject_Z sourceRate / inject_Z targetRate)%Q.
Proof.
  intro Ht. destruct targetRate as [|p|p]; try lia.
  unfold sourceIndex, Qdiv, Qinv, Qmult, inject_Z, Qeq. cbn [Qnum Qden Z.to_pos].
  rewrite !Z.mul_1_r, !Pos.mul_1_l. reflexivity.
Qed.

Lemma resampledLength_floor (inputLen : nat) (sourceRate targetRate : Z) :
  0 < sourceRate -> 0 < targetRate ->
  Z.of_nat (resampledLength inputLen sourceRate targetRate)
  = Z.of_nat inputLen * targetRate / sourceRate.
Proof.
  intros Hs Ht. unfold resampledLength. apply Z2Nat.id.
  apply Z.div_pos; lia.
Qed.

(** The left neighbour of every output sample is a sample of the frame. *)
Lemma sourceIndex_in_frame (inputLen : nat) (sourceRate targetRate : Z) (k : nat) :
  0 < sourceRate -> 0 < targetRate ->
  (k < resampledLength inputLen sourceRate targetRate)%nat ->
  0 <= Z.of_nat k * sourceRate / targetRate < Z.of_nat inputLen.
Proof.
  intros Hs Ht Hk. split; [apply Z.div_pos; lia|].
  apply Z.div_lt_upper_bound; [exact Ht|].
  assert (L : Z.of_nat k + 1 <= Z.of_nat inputLen * targetRate / sourceRate).
  { rewrite <- resampledLength_floor by assumption. lia. }
  pose proof (Z.mul_div_le (Z.of_nat inputLen * targetRate) sourceRate Hs) as D.
  nia.
Qed.

(** C5. Downsampling. For valid (positive) rates the buffer returned for
    a frame has [floor(frame.length * targetRate / sourceRate)] samples,
    and its [k]-th sample is the linear interpolation, at the fractional
    source index [k * sourceRate / targetRate], between the input sample
    at the floor of that index (always a sample of the frame) and its
    right neighbour, weighted by the fractional part. *)
Theorem downsample_length_and_interpolation
    (frame : list Q) (sourceRate targetRate : Z) :
  0 < sourceRate -> 0 < targetRate ->
  Z.of_nat (List.length (downsampleBuffer frame sourceRate targetRate))
  = Qfloor (inject_Z (Z.of_nat (List.length frame) * targetRate) / inject_Z sourceRate)
  /\ forall k,
       (k < List.length (downsampleBuffer frame sourceRate targetRate))%nat ->
       (sourceIndex sourceRate targetRate k
        == inject_Z (Z.of_nat k) * inject_Z sourceRate / inject_Z targetRate)%Q
       /\ 0 <= Qfloor (sourceIndex sourceRate targetRate k)
            < Z.of_nat (List.length frame)
       /\ (0 <= sourceIndex sourceRate targetRate k
                - inject_Z (Qfloor (sourceIndex sourceRate targetRate k)))%Q
       /\ (sourceIndex sourceRate targetRate k
           - inject_Z (Qfloor (sourceIndex sourceRate targetRate k)) < 1)%Q
       /\ nth k (downsampleBuffer frame sourceRate targetRate) 0%Q
          = (nth (Z.to_nat (Qfloor (sourceIndex sourceRate targetRate k))) frame 0
             * (1 - (sourceIndex sourceRate targetRate k
                     - inject_Z (Qfloor (sourceIndex sourceRate targetRate k))))
             + nth (Z.to_nat (Qfloor (sourceIndex sourceRate targetRate k)) + 1)
                 frame 0
               * (sourceIndex sourceRate targetRate k
                  - inject_Z (Qfloor (sourceIndex sourceRate targetRate k))))%Q.
Proof.
  intros Hs Ht.
  assert (Len : List.length (downsampleBuffer frame sourceRate targetRate)
                = resampledLength (List.length frame) sourceRate targetRate).
  { unfold downsampleBuffer. rewrite length_map, length_seq. reflexivity. }
  rewrite Len. split.
  - rewrite Qfloor_ratio by exact Hs. apply resampledLength_floor; assumption.
  - intros k Hk.
    split; [apply sourceIndex_ratio; exact Ht|].
    split; [rewrite Qfloor_sourceIndex by exact Ht;
            apply (sourceIndex_in_frame _ _ _ _ Hs Ht Hk)|].
    pose proof (Qfloor_le (sourceIndex sourceRate targetRate k)) as Lo.
    pose proof (Qlt_floor (sourceIndex sourceRate targetRate k)) as Hi.
    rewrite inject_Z_plus in Hi.
    split; [Lqa.lra|]. split; [change (inject_Z 1) with 1%Q in Hi; Lqa.lra|].
    unfold downsampleBuffer.
    rewrite (nth_indep _ 0%Q (interpolate frame sourceRate targetRate 0%nat))
      by (rewrite length_map, length_seq; exact Hk).
    rewrite map_nth, seq_nth by exact Hk.
    reflexivity.
Qed.

Lemma downsample_length_and_interpolation_witness :
  0 < 48000 /\ 0 < 16000
  /\ Z.of_nat (List.length (downsampleBuffer [0%Q; 3%Q; 6%Q; 9%Q; 12%Q; 15%Q] 48000 16000))
     = Qfloor (inject_Z (Z.of_nat (List.length [0%Q; 3%Q; 6%Q; 9%Q; 12%Q; 15%Q]) * 16000)
               / inject_Z 48000).
Proof.
  split; [reflexivity|]. split; [reflexivity|].
  apply (downsample_length_and_interpolation
           [0%Q; 3%Q; 6%Q; 9%Q; 12%Q; 15%Q] 48000 16000 eq_refl eq_refl).
Defined.
End ResamplingFacts.

(** ** Playback scheduling *)

Section Playback.
Local Open Scope Q_scope.

Lemma starts_app (l1 l2 : list Effect) : starts (l1 ++ l2) = starts l1 ++ starts l2.
Proof. unfold starts. apply flat_map_app. Qed.

(** The variant [part_001] schedules as the design describes. *)
Lemma part_001_follows_schedule (deltas : list (Q * Q)) (s : State) :
  starts (effectsOf (playAll_part_001 deltas s))
  = scheduleSpec (nextAudioStartTimeRef (refs s)) deltas.
Proof.
  unfold playAll_part_001. revert s.
  induction deltas as [|[now d] rest IH]; intro s; [reflexivity|].
  cbn [forEach scheduleSpec fst snd].
  assert (Run : playAudio_part_001 now d s
                = (Returned tt,
                   upd_refs (set_isAiSpeakingRef true)
                     (upd_refs (set_nextAudioStartTimeRef
                                  (Qmax now (nextAudioStartTimeRef (refs s)) + d)) s),
                   [ESourceStart (Qmax now (nextAudioStartTimeRef (refs s))) d]))
    by reflexivity.
  rewrite (bind_run _ _ _ _ _ _ Run).
  unfold effectsOf at 1. cbn [snd]. rewrite starts_app.
  cbn [starts flat_map app]. rewrite IH. reflexivity.
Qed.

Lemma scheduleSpec_gapless (cursor : Q) (deltas : list (Q * Q)) :
  gapless cursor (scheduleSpec cursor deltas).
Proof.
  revert cursor. induction deltas as [|[now d] rest IH]; intro cursor; [exact I|].
  cbn [scheduleSpec gapless]. split; [apply Q.le_max_r | apply IH].
Qed.

(** In a gapless schedule the [k]-th unit starts no earlier than the
    cursor plus the durations of the units before it. *)
Lemma gapless_after_prior (units : list (Q * Q)) (cursor : Q) (k : nat)
    (startTime duration : Q) :
  gapless cursor units ->
  nth_error units k = Some (startTime, duration) ->
  cursor + totalDuration (firstn k units) <= startTime.
Proof.
  revert cursor k. induction units as [|[w d] rest IH]; intros cursor k G N.
  - destruct k; discriminate.
  - destruct G as [G1 G2]. destruct k as [|k].
    + injection N as -> ->. cbn [firstn totalDuration fold_right]. Lqa.lra.
    + cbn [nth_error] in N. specialize (IH (w + d) k G2 N).
      cbn [firstn totalDuration fold_right snd].
      fold (totalDuration (firstn k rest)). Lqa.lra.
Qed.

(** With the schedule of [part_001]: the unit after the first [k+1]
    deltas starts at least the sum of the prior durations after the first
    unit's start, and start times never decrease when durations are not
    negative. *)
Lemma part_001_gapless (deltas : list (Q * Q)) (s : State) (k : nat)
    (first d0 startTime duration : Q) :
  nth_error (starts (effectsOf (playAll_part_001 deltas s))) 0 = Some (first, d0) ->
  nth_error (starts (effectsOf (playAll_part_001 deltas s))) (S k)
    = Some (startTime, duration) ->
  first + totalDuration (firstn (S k) (starts (effectsOf (playAll_part_001 deltas s))))
    <= startTime.
Proof.
  rewrite part_001_follows_schedule.
  pose proof (scheduleSpec_gapless (nextAudioStartTimeRef (refs s)) deltas) as G.
  destruct (scheduleSpec (nextAudioStartTimeRef (refs s)) deltas) as [|[w d] rest];
    [discriminate|].
  intros N0 Nk. injection N0 as -> ->. destruct G as [_ G].
  cbn [nth_error] in Nk.
  pose proof (gapless_after_prior rest _ k _ _ G Nk) as B.
  cbn [firstn totalDuration fold_right snd].
  fold (totalDuration (firstn k rest)). Lqa.lra.
Qed.

(** C2, at a late first delta. The output clock reads 100 s when the
    first 5-second delta arrives and 100.1 s when the second does, with
    the cursor still at its initial 0. [onmessage] starts the buffers at
    the cursor, 0 and 5, not at [max(clock, cursor)]; both are in the
    past, so the second unit begins 0.1 s after the first began and plays
    over it. The variant [part_001] starts them at 100 and 105. *)
Theorem playback_overlaps_at_late_start :
  starts (snd (run [Message (audioMessage 5) 100;
                    Message (audioMessage 5) (1001 # 10)] liveState))
  = [(0, 5); (5, 5)]
  /\ scheduleSpec (nextAudioStartTimeRef (refs liveState)) [(100, 5); (1001 # 10, 5)]
     = [(100, 5); (105, 5)]
  /\ actualStart 100 0 = 100
  /\ actualStart (1001 # 10) 5 = 1001 # 10
  /\ ~ actualStart 100 0 + 5 <= actualStart (1001 # 10) 5
  /\ starts (effectsOf (playAll_part_001 [(100, 5); (1001 # 10, 5)] liveState))
     = [(100, 5); (105, 5)].
Proof.
  repeat split; try (vm_compute; reflexivity).
  vm_compute. intro H. apply H. reflexivity.
Qed.
End Playback.

(** * Further properties *)

(** ** Tool calls *)

Ltac open_state s :=
  destruct s as [[st lines us sm tl] [ac ic sp srcs se strm an]
                 [mo nx fl co ai_ lu hist wt tab] [tos pf ia la [cb nc]]];
  cbn [hooks handles refs env
       status transcriptLines isUserSpeaking systemMessageStatus timeLeft
       audioContextRef inputAudioContextRef scriptProcessorRef sourcesRef
       sessionRef streamRef animationRef
       isMountedRef nextAudioStartTimeRef terminationTriggeredRef isConnectedRef
       isAiSpeakingRef lastUserSpeechTimeRef fullTranscriptHistory
       isWaitingForResponseRef tabSwitchCountRef
       timeouts pendingFrame intervalActive listenerActive scriptProcessor
       has_onaudioprocess node_connected] in *.

Lemma onmessage_termination (s : State) (message : LiveServerMessage) (currentTime : Q) :
  isMountedRef (refs s) = true ->
  terminationTriggeredRef (refs (fst (step s (Message message currentTime))))
  = match endInterviewCall message with
    | Some _ => true
    | None => terminationTriggeredRef (refs s)
    end
  /\ timeouts (env (fst (step s (Message message currentTime))))
     = match endInterviewCall message with
       | Some call =>
           if terminationTriggeredRef (refs s) then timeouts (env s)
           else timeouts (env s) ++ [shutdownOf (reasonOf call)]
       | None => timeouts (env s)
       end.
Proof.
  intro Mo. open_state s. subst.
  unfold endInterviewCall, step, handler, onmessage, onmessage_with, playAudio,
    handleTermination, setSystemMessageStatus, setTimeout.
  exec.
  destruct (toolCall message) as [calls|]; exec.
  1: destruct (find _ calls); exec.
  1: destruct fl; exec.
  all: destruct (firstText message); exec.
  all: destruct (turnComplete message); exec.
  all: destruct (firstInlineData message); exec; split; reflexivity.
Qed.

Lemma find_first {A : Type} (p : A -> bool) (before after : list A) (x : A) :
  Forall (fun y => p y = false) before -> p x = true ->
  find p (before ++ x :: after) = Some x.
Proof.
  intros H Hx. induction H as [|y before Hy _ IH]; cbn [app find].
  - rewrite Hx. reflexivity.
  - rewrite Hy. exact IH.
Qed.

(** X1. Tool-call dispatch. On a mounted session that is not yet ending,
    a message ends the session exactly when its tool call holds a function
    call named [endInterview]; the reason recorded is that of the first
    such call, calls with other names are ignored, a message without one
    schedules nothing, and the reason of a call reads ["Completed"] exactly
    when its [reason] argument is missing, empty or ["Completed"]. *)
Theorem tool_call_dispatch (s : State) (message : LiveServerMessage) (currentTime : Q) :
  isMountedRef (refs s) = true ->
  terminationTriggeredRef (refs s) = false ->
  (terminationTriggeredRef (refs (fst (step s (Message message currentTime)))) = true
   <-> exists calls call,
         toolCall message = Some calls /\ In call calls
         /\ fc_name call = "endInterview")
  /\ (forall calls before call after,
        toolCall message = Some calls ->
        calls = before ++ call :: after ->
        Forall (fun c => fc_name c <> "endInterview") before ->
        fc_name call = "endInterview" ->
        timeouts (env (fst (step s (Message message currentTime))))
        = timeouts (env s) ++ [shutdownOf (reasonOf call)])
  /\ (terminationTriggeredRef (refs (fst (step s (Message message currentTime)))) = false ->
      timeouts (env (fst (step s (Message message currentTime)))) = timeouts (env s))
  /\ (forall call,
        reasonOf call = "Completed"
        <-> args_reason call = None \/ args_reason call = Some ""
            \/ args_reason call = Some "Completed").
Proof.
  intros Mo F. destruct (onmessage_termination s message currentTime Mo) as [HF HT].
  rewrite HF, HT, F. unfold endInterviewCall.
  split; [|split; [|split]].
  - destruct (toolCall message) as [calls|].
    + destruct (find _ calls) as [call|] eqn:E.
      * split; [|reflexivity]. intros _. apply find_some in E. destruct E as [I N].
        exists calls, call. apply String.eqb_eq in N. auto.
      * split; [discriminate|]. intros [calls' [call [C [I N]]]].
        injection C as <-. pose proof (find_none _ _ E call I) as G. cbn in G.
        rewrite N in G. discriminate.
    + split; [discriminate|]. intros [calls' [call [C _]]]. discriminate.
  - intros calls before call after C -> B N. rewrite C.
    rewrite (find_first _ before after call).
    + reflexivity.
    + eapply Forall_impl; [|exact B]. intros c Hc. cbn in Hc.
      apply String.eqb_neq. exact Hc.
    + apply String.eqb_eq. exact N.
  - destruct (toolCall message) as [calls|]; [|reflexivity].
    destruct (find _ calls); [discriminate | reflexivity].
  - intro call. unfold reasonOf. destruct (args_reason call) as [[|c r]|].
    + split; auto.
    + split.
      * intro H. right. right. rewrite H. reflexivity.
      * intros [H|[H|H]]; try discriminate. congruence.
    + split; auto.
Qed.

Lemma tool_call_dispatch_witness :
  isMountedRef (refs liveState) = true
  /\ terminationTriggeredRef (refs liveState) = false
  /\ timeouts (env (fst (step liveState
        (Message {| toolCall := Some [{| fc_name := "log"; args_reason := Some "note" |};
                                      {| fc_name := "endInterview";
                                         args_reason := Some "Candidate asked to stop" |};
                                      {| fc_name := "endInterview"; args_reason := None |}];
                    parts := None; turnComplete := false |} 0))))
      = timeouts (env liveState) ++ [shutdownOf "Candidate asked to stop"].
Proof.
  split; [reflexivity|]. split; [reflexivity|].
  destruct (tool_call_dispatch liveState
              {| toolCall := Some [{| fc_name := "log"; args_reason := Some "note" |};
                                   {| fc_name := "endInterview";
                                      args_reason := Some "Candidate asked to stop" |};
                                   {| fc_name := "endInterview"; args_reason := None |}];
                 parts := None; turnComplete := false |} 0 eq_refl eq_refl)
    as [_ [H _]].
  apply (H _ [{| fc_name := "log"; args_reason := Some "note" |}]
           {| fc_name := "endInterview"; args_reason := Some "Candidate asked to stop" |}
           [{| fc_name := "endInterview"; args_reason := None |}] eq_refl eq_refl).
  - constructor; [discriminate | constructor].
  - reflexivity.
Defined.

(** ** After the unmount *)

Lemma unmount_run (s : State) :
  step s Unmount
  = (disconnected
       (upd_env (set_listenerActive false)
          (upd_env (set_intervalActive false)
             (upd_refs (set_isMountedRef false) s))),
     disconnectEffects s).
Proof.
  unfold step, handler, unmount.
  rewrite (bind_run _ _ s (upd_refs (set_isMountedRef false) s) tt []) by reflexivity.
  rewrite (bind_run _ _ _ (upd_env (set_intervalActive false)
                             (upd_refs (set_isMountedRef false) s)) tt [])
    by reflexivity.
  rewrite (bind_run _ _ _ (upd_env (set_listenerActive false)
                             (upd_env (set_intervalActive false)
                                (upd_refs (set_isMountedRef false) s))) tt [])
    by reflexivity.
  rewrite disconnect_run. reflexivity.
Qed.

Lemma unmount_unmounted (s : State) : unmounted (fst (step s Unmount)).
Proof.
  rewrite unmount_run. cbn [fst]. unfold unmounted, disconnected, detachedCapture.
  cbn [refs env handles scriptProcessorRef upd_env upd_refs set_isConnectedRef
       isMountedRef set_isMountedRef isConnectedRef animationRef].
  repeat split;
    (destruct (truthy _);
     [unfold dropFrame; destruct (pendingFrame _) as [p|]; [destruct (p =? _)|]|]);
    destruct (scriptProcessorRef (handles s)); reflexivity.
Qed.

Lemma stopped_event_is_noop (s : State) (ev : Event) :
  unmounted s -> stoppedByUnmount ev = true -> step s ev = (s, []).
Proof.
  intros [Mo [Ia [La Co]]] Hev. open_state s. subst.
  destruct ev; try discriminate; try reflexivity.
  destruct cb; reflexivity.
Qed.

(** X2. After the cleanup of the effect has run, an open transport, an
    inbound message, a timer tick, a visibility change or a captured frame
    changes nothing and calls nothing, however many of them follow. *)
Theorem nothing_runs_after_unmount (s : State) (evs : list Event) :
  forallb stoppedByUnmount evs = true ->
  run evs (fst (step s Unmount)) = (fst (step s Unmount), []).
Proof.
  intro H. pose proof (unmount_unmounted s) as U.
  generalize dependent (fst (step s Unmount)). intros s' U.
  induction evs as [|ev evs IH]; [reflexivity|].
  cbn [forallb] in H. apply andb_true_iff in H. destruct H as [Hev H].
  cbn [run]. rewrite (stopped_event_is_noop s' ev U Hev), (IH H). reflexivity.
Qed.

Lemma nothing_runs_after_unmount_witness :
  forallb stoppedByUnmount
    [Open; Message (endInterviewMessage None) 0; TimerTick; VisibilityChange true] = true
  /\ run [Open; Message (endInterviewMessage None) 0; TimerTick; VisibilityChange true]
       (fst (step liveState Unmount))
     = (fst (step liveState Unmount), []).
Proof.
  split; [reflexivity|].
  apply (nothing_runs_after_unmount liveState
           [Open; Message (endInterviewMessage None) 0; TimerTick; VisibilityChange true]
           eq_refl).
Defined.

Lemma disconnectEffects_disconnected (s : State) :
  Forall releasesNothing (disconnectEffects (disconnected s)).
Proof.
  unfold disconnectEffects, disconnected; cbn [handles scriptProcessorRef sessionRef
    streamRef sourcesRef audioContextRef inputAudioContextRef animationRef map app].
  repeat (apply Forall_app; split);
    try apply closeEffects_closedContext.
  - destruct (truthy _); repeat constructor.
  - repeat constructor.
Qed.

(** X3. The cleanup does not cancel a scheduled termination. When a
    shutdown callback is pending and the component unmounts, the callback
    still runs afterwards: [disconnect] runs a second time, releasing
    nothing, and [onComplete] is called with the joined transcript and the
    recorded reason. *)
Theorem unmount_keeps_termination_callback
    (s : State) (reason : string) (rest : list Timeout) :
  timeouts (env s) = shutdownOf reason :: rest ->
  exists again,
    snd (run [Unmount; TimeoutFires] s)
    = disconnectEffects s ++ again
      ++ [EOnComplete (join (fullTranscriptHistory (refs s))) reason]
    /\ Forall releasesNothing again
    /\ timeouts (env (fst (run [Unmount; TimeoutFires] s))) = rest.
Proof.
  intro T. cbn [run]. rewrite unmount_run.
  set (s1 := disconnected _).
  assert (T1 : timeouts (env s1) = shutdownOf reason :: rest).
  { subst s1. unfold disconnected. cbn [env].
    destruct (truthy _); rewrite ?timeouts_dropFrame, timeouts_detachedCapture;
      exact T. }
  unfold step, handler.
  rewrite (bind_run _ _ s1 s1 (timeouts (env s1)) []) by reflexivity.
  rewrite T1.
  rewrite (bind_run _ _ s1 (upd_env (set_timeouts rest) s1) tt []) by reflexivity.
  cbn [callback shutdownOf]. rewrite runCallback_run.
  unfold stateOf, effectsOf; cbn [fst snd app].
  exists (disconnectEffects s1). split; [|split].
  - rewrite app_nil_r. reflexivity.
  - apply disconnectEffects_disconnected.
  - unfold disconnected. cbn [env handles animationRef upd_env].
    destruct (truthy _); rewrite ?timeouts_dropFrame, timeouts_detachedCapture;
      reflexivity.
Qed.

Lemma unmount_keeps_termination_callback_witness :
  timeouts (env (terminating "User ended session" liveState))
  = shutdownOf "User ended session" :: []
  /\ exists again,
       snd (run [Unmount; TimeoutFires] (terminating "User ended session" liveState))
       = disconnectEffects (terminating "User ended session" liveState) ++ again
         ++ [EOnComplete
               (join (fullTranscriptHistory
                        (refs (terminating "User ended session" liveState))))
               "User ended session"]
       /\ Forall releasesNothing again
       /\ timeouts (env (fst (run [Unmount; TimeoutFires]
                                 (terminating "User ended session" liveState)))) = [].
Proof.
  split; [reflexivity|].
  exact (unmount_keeps_termination_callback
           (terminating "User ended session" liveState) "User ended session" []
           eq_refl).
Defined.

(** ** After the shutdown *)

Lemma staysDisconnected_refl (s : State) : staysDisconnected s s [].
Proof. intro H. split; [exact H | constructor]. Qed.

Lemma staysDisconnected_trans (s1 s2 s3 : State) (l1 l2 : list Effect) :
  staysDisconnected s1 s2 l1 -> staysDisconnected s2 s3 l2 ->
  staysDisconnected s1 s3 (l1 ++ l2).
Proof.
  intros H1 H2 C. destruct (H1 C) as [C2 N1]. destruct (H2 C2) as [C3 N2].
  split; [exact C3 | apply Forall_app; split; assumption].
Qed.

Lemma disconnectEffects_notSend (s : State) : Forall notSend (disconnectEffects s).
Proof.
  unfold disconnectEffects, closeEffects, context_close.
  repeat (apply Forall_app; split);
    repeat match goal with
           | |- context [match ?x with _ => _ end] => destruct x
           end;
    try (apply Forall_map, Forall_forall; intros; exact I);
    repeat constructor.
Qed.

Lemma disconnect_staysDisconnected : obeys staysDisconnected disconnect.
Proof.
  intro s. rewrite disconnect_run. unfold stateOf, effectsOf; cbn [fst snd].
  intros _. split; [reflexivity | apply disconnectEffects_notSend].
Qed.

Lemma handler_staysDisconnected (ev : Event) :
  ev <> Open -> obeys staysDisconnected (handler ev).
Proof.
  intro Hev. destruct ev; try congruence; clear Hev.
  all: try match goal with
           | |- obeys _ (handler (AudioProcess _ _ _)) =>
               intros s C; open_state s; subst; unfold handler, onaudioprocess;
               destruct cb; cbn; split; auto; constructor
           end.
  all: unfold handler, onmessage, onmessage_with, playAudio, onerror, onclose,
      onended, timerTick, handleVisibilityChange, endInterviewClick,
      draw, unmount, runCallback, setStatus, handleTermination,
      setSystemMessageStatus, setTimeout;
    obeys_with staysDisconnected_refl staysDisconnected_trans
      ltac:(first [ apply disconnect_staysDisconnected
                  | apply obeys_modify; intros ? H; split;
                    [first [exact H | reflexivity] | constructor]
                  | apply obeys_emit; intros ? H; split;
                    [exact H | repeat constructor] ]).
Qed.

(** X4. Once [disconnect] has run, the connection flag stays clear and no
    audio chunk is sent, whatever events follow, short of the transport
    opening again. *)
Theorem no_capture_after_disconnect (s : State) (evs : list Event) :
  Forall (fun ev => ev <> Open) evs ->
  isConnectedRef (refs (fst (run evs (stateOf (disconnect s))))) = false
  /\ Forall notSend (snd (run evs (stateOf (disconnect s)))).
Proof.
  intro H.
  assert (C : isConnectedRef (refs (stateOf (disconnect s))) = false)
    by (rewrite disconnect_run; reflexivity).
  generalize dependent (stateOf (disconnect s)). intros s' C.
  revert s' C. induction H as [|ev evs Hev _ IH]; intros s' C.
  - split; [exact C | constructor].
  - cbn [run]. destruct (handler_staysDisconnected ev Hev s' C) as [C1 N1].
    unfold step. cbn zeta.
    destruct (IH _ C1) as [C2 N2].
    destruct (run evs (stateOf (handler ev s'))) as [s2 l2]. cbn [fst snd] in *.
    split; [exact C2 | apply Forall_app; split; assumption].
Qed.

Lemma no_capture_after_disconnect_witness :
  Forall (fun ev => ev <> Open)
    [AudioProcess boundaryFrame 48000 0; TimerTick; TransportError; AudioProcess boundaryFrame 48000 5]
  /\ Forall notSend
       (snd (run [AudioProcess boundaryFrame 48000 0; TimerTick; TransportError;
                  AudioProcess boundaryFrame 48000 5]
               (stateOf (disconnect liveState)))).
Proof.
  assert (H : Forall (fun ev => ev <> Open)
                [AudioProcess boundaryFrame 48000 0; TimerTick; TransportError;
                 AudioProcess boundaryFrame 48000 5])
    by (repeat constructor; discriminate).
  split; [exact H|].
  apply (no_capture_after_disconnect liveState _ H).
Defined.

(** ** The speaking and waiting flags *)

(** X5. The speaking and waiting flags after a message, on a mounted
    session. Inline audio leaves the agent marked as speaking even when the
    same message completes the turn; a turn completion without audio marks
    it as not speaking even when the message carries text; text alone marks
    it as speaking; otherwise the flag is kept. The waiting flag is set by a
    turn completion and never cleared by a message. *)
Theorem speaking_flags_after_message
    (s : State) (message : LiveServerMessage) (currentTime : Q) :
  isMountedRef (refs s) = true ->
  (firstInlineData message <> None ->
   isAiSpeakingRef (refs (fst (step s (Message message currentTime)))) = true)
  /\ (firstInlineData message = None -> turnComplete message = true ->
      isAiSpeakingRef (refs (fst (step s (Message message currentTime)))) = false)
  /\ (firstInlineData message = None -> turnComplete message = false ->
      firstText message <> None ->
      isAiSpeakingRef (refs (fst (step s (Message message currentTime)))) = true)
  /\ (firstInlineData message = None -> turnComplete message = false ->
      firstText message = None ->
      isAiSpeakingRef (refs (fst (step s (Message message currentTime))))
      = isAiSpeakingRef (refs s))
  /\ isWaitingForResponseRef (refs (fst (step s (Message message currentTime))))
     = (turnComplete message || isWaitingForResponseRef (refs s))%bool.
Proof.
  intro Mo. open_state s. subst.
  unfold step, handler, onmessage, onmessage_with, playAudio,
    handleTermination, setSystemMessageStatus, setTimeout.
  exec.
  destruct (toolCall message) as [calls|]; exec.
  1: destruct (find _ calls); exec.
  1: destruct fl; exec.
  all: destruct (firstText message); exec.
  all: destruct (turnComplete message); exec.
  all: destruct (firstInlineData message); exec.
  all: repeat split; intros; try reflexivity; try congruence.
Qed.

Lemma speaking_flags_after_message_witness :
  isMountedRef (refs liveState) = true
  /\ isWaitingForResponseRef
       (refs (fst (step liveState
                     (Message {| toolCall := None;
                                 parts := Some [{| part_text := Some "Next question.";
                                                   inlineData := None |}];
                                 turnComplete := true |} 0))))
     = (true || isWaitingForResponseRef (refs liveState))%bool.
Proof.
  split; [reflexivity|].
  apply (speaking_flags_after_message liveState
           {| toolCall := None;
              parts := Some [{| part_text := Some "Next question.";
                                inlineData := None |}];
              turnComplete := true |} 0 eq_refl).
Defined.

(** ** Focus loss once the session is ending *)

(** X6. The tab-switch counter is not capped. When the session is already
    ending, a further focus loss still adds one to the counter and replaces
    the displayed message by its warning (which may read 4/3 and so on),
    and schedules nothing. *)
Theorem focus_loss_after_termination (s : State) :
  listenerActive (env s) = true ->
  terminationTriggeredRef (refs s) = true ->
  tabSwitchCountRef (refs (fst (step s (VisibilityChange true))))
  = tabSwitchCountRef (refs s) + 1
  /\ systemMessageStatus (hooks (fst (step s (VisibilityChange true))))
     = Some ("Warning: Tab switch detected ("
             ++ showNumber (tabSwitchCountRef (refs s) + 1) ++ "/3)")%string
  /\ timeouts (env (fst (step s (VisibilityChange true)))) = timeouts (env s)
  /\ snd (step s (VisibilityChange true))
     = [tabSwitchWarning (tabSwitchCountRef (refs s) + 1)].
Proof.
  intros L F. open_state s. subst.
  unfold step, handler, handleVisibilityChange, handleTermination,
    setSystemMessageStatus, setTimeout.
  exec. destruct (3 <=? tab + 1); repeat split.
Qed.

Lemma focus_loss_after_termination_witness :
  listenerActive
    (env (fst (run [VisibilityChange true; VisibilityChange true;
                    VisibilityChange true] liveState))) = true
  /\ terminationTriggeredRef
       (refs (fst (run [VisibilityChange true; VisibilityChange true;
                        VisibilityChange true] liveState))) = true
  /\ systemMessageStatus
       (hooks (fst (step (fst (run [VisibilityChange true; VisibilityChange true;
                                    VisibilityChange true] liveState))
                      (VisibilityChange true))))
     = Some "Warning: Tab switch detected (4/3)".
Proof.
  split; [reflexivity|]. split; [reflexivity|].
  destruct (focus_loss_after_termination
              (fst (run [VisibilityChange true; VisibilityChange true;
                         VisibilityChange true] liveState)) eq_refl eq_refl)
    as [_ [H _]].
  rewrite H. reflexivity.
Defined.

(** ** The playback cursor of [onmessage] *)

Lemma audio_delta_step (s : State) (currentTime duration : Q) :
  isMountedRef (refs s) = true ->
  step s (Message (audioMessage duration) currentTime)
  = (upd_refs (set_isAiSpeakingRef true)
       (upd_refs (set_nextAudioStartTimeRef
                    (nextAudioStartTimeRef (refs s) + duration)%Q) s),
     [ESourceStart (nextAudioStartTimeRef (refs s)) duration]).
Proof.
  intro Mo. open_state s. subst. reflexivity.
Qed.

(** X7. The playback cursor of [onmessage] ignores the output clock. For
    audio deltas delivered to a mounted session, the [k]-th buffer is
    started at the initial cursor plus the durations of the buffers before
    it, whatever the clock read when each arrived, and the cursor ends at
    the initial cursor plus all the durations. *)
Theorem cursor_ignores_clock (deltas : list (Q * Q)) (s : State) :
  isMountedRef (refs s) = true ->
  (forall k d,
     nth_error (map snd deltas) k = Some d ->
     nth_error (starts (snd (run (audioEvents deltas) s))) k
     = Some (fold_left Qplus (firstn k (map snd deltas)) (nextAudioStartTimeRef (refs s)),
             d))
  /\ List.length (starts (snd (run (audioEvents deltas) s))) = List.length deltas
  /\ nextAudioStartTimeRef (refs (fst (run (audioEvents deltas) s)))
     = fold_left Qplus (map snd deltas) (nextAudioStartTimeRef (refs s)).
Proof.
  revert s. induction deltas as [|[now d0] rest IH]; intros s Mo.
  - repeat split. intros [|k] d H; discriminate.
  - cbn [audioEvents map run fst snd]. rewrite audio_delta_step by exact Mo.
    set (s1 := upd_refs _ _).
    assert (Mo1 : isMountedRef (refs s1) = true) by exact Mo.
    destruct (IH s1 Mo1) as [Hk [Hl Hc]]. fold (audioEvents rest).
    destruct (run (audioEvents rest) s1) as [s2 l2]. cbn [fst snd] in *.
    rewrite starts_app. cbn [starts flat_map app].
    split; [|split].
    + intros [|k] d H.
      * cbn in H. injection H as <-. reflexivity.
      * cbn [nth_error] in H |- *. rewrite (Hk k d H). reflexivity.
    + cbn [List.length]. rewrite Hl. reflexivity.
    + rewrite Hc. reflexivity.
Qed.

Lemma cursor_ignores_clock_witness :
  isMountedRef (refs liveState) = true
  /\ nextAudioStartTimeRef
       (refs (fst (run (audioEvents [(100, 5); (1001 # 10, 2); (200, 1 # 2)]%Q) liveState)))
     = fold_left Qplus [5; 2; 1 # 2]%Q (nextAudioStartTimeRef (refs liveState)).
Proof.
  split; [reflexivity|].
  apply (cursor_ignores_clock [(100, 5); (1001 # 10, 2); (200, 1 # 2)]%Q liveState eq_refl).
Defined.

(** ** The two transcripts *)

Lemma message_transcripts (s : State) (message : LiveServerMessage) (currentTime : Q) :
  transcriptInSync s -> transcriptInSync (fst (step s (Message message currentTime))).
Proof.
  intros [H A]. open_state s. subst.
  unfold transcriptInSync, step, handler, onmessage, onmessage_with, playAudio,
    handleTermination, setSystemMessageStatus, setTimeout.
  exec. destruct mo; exec; [|split; [reflexivity | exact A]].
  destruct (toolCall message) as [calls|]; exec.
  1: destruct (find _ calls); exec.
  1: destruct fl; exec.
  all: destruct (firstText message) as [t|]; exec.
  all: destruct (turnComplete message); exec.
  all: destruct (firstInlineData message); exec.
  all: rewrite ?map_app; cbn [map historyEntry text];
    (split; [reflexivity|]);
    try (apply Forall_app; split; [exact A | repeat constructor]);
    try exact A.
Qed.

(** X8. The displayed transcript and the history handed to [onComplete]
    stay in step: whatever events arrive, the history is the list of the
    displayed lines, each prefixed with ["AI: "], in the same order, and
    every displayed line has the agent as its speaker. *)
Theorem transcripts_stay_in_sync (s : State) (evs : list Event) :
  transcriptInSync s -> transcriptInSync (fst (run evs s)).
Proof.
  revert s. induction evs as [|ev evs IH]; intros s I; [exact I|].
  cbn [run].
  assert (I1 : transcriptInSync (fst (step s ev))).
  { destruct ev;
      try (apply message_transcripts; exact I);
      match goal with
      | |- transcriptInSync (fst (step s ?ev)) =>
          destruct (handler_keepsTranscripts ev ltac:(discriminate) s) as [E1 E2]
      end;
      unfold transcriptInSync, step; cbn [fst];
      rewrite E1, E2; exact I. }
  destruct (step s ev) as [s1 l1]. cbn [fst] in I1.
  specialize (IH s1 I1). destruct (run evs s1) as [s2 l2]. exact IH.
Qed.

Lemma transcripts_stay_in_sync_witness :
  transcriptInSync liveState
  /\ transcriptInSync
       (fst (run [Message {| toolCall := None;
                             parts := Some [{| part_text := Some "Hello";
                                               inlineData := None |}];
                             turnComplete := true |} 0;
                  EndInterviewClick; TimeoutFires] liveState)).
Proof.
  assert (H : transcriptInSync liveState) by (split; [reflexivity | constructor]).
  split; [exact H|].
  apply (transcripts_stay_in_sync liveState _ H).
Defined.

(** ** The countdown from any remaining time *)

Lemma run_app (evs1 evs2 : list Event) (s : State) :
  run (evs1 ++ evs2) s
  = (fst (run evs2 (fst (run evs1 s))),
     snd (run evs1 s) ++ snd (run evs2 (fst (run evs1 s)))).
Proof.
  revert s. induction evs1 as [|ev evs1 IH]; intro s.
  - cbn [app run fst snd]. destruct (run evs2 s); reflexivity.
  - cbn [app run]. destruct (step s ev) as [s1 l1]. rewrite IH.
    destruct (run evs1 s1) as [s2 l2]. cbn [fst snd].
    rewrite app_assoc. reflexivity.
Qed.

Lemma ticks_add (n m : nat) (s : State) :
  ticks (n + m) s
  = (fst (ticks m (fst (ticks n s))), snd (ticks n s) ++ snd (ticks m (fst (ticks n s)))).
Proof. unfold ticks. rewrite repeat_app. apply run_app. Qed.

(** Once the time is up and the termination is recorded, a tick changes
    nothing and calls nothing. *)
Lemma tick_after_timeout (s : State) :
  timeLeft (hooks s) = 0 ->
  terminationTriggeredRef (refs s) = true ->
  step s TimerTick = (s, []).
Proof.
  intros T F. open_state s. subst.
  unfold step, handler, timerTick, handleTermination. exec.
  destruct ia; reflexivity.
Qed.

Lemma ticks_after_timeout (m : nat) (s : State) :
  timeLeft (hooks s) = 0 ->
  terminationTriggeredRef (refs s) = true ->
  ticks m s = (s, []).
Proof.
  intros T F. unfold ticks. induction m as [|m IH]; [reflexivity|].
  cbn [repeat run]. rewrite tick_after_timeout by assumption. rewrite IH.
  reflexivity.
Qed.

(** X9. The countdown from any remaining time. With [n + 1] seconds left,
    [n] ticks trigger nothing and leave one second; the next tick records
    the time-limit termination and leaves zero; and every tick after that
    changes nothing and calls nothing. *)
Theorem countdown_from_any_time (s : State) (n m : nat) :
  intervalActive (env s) = true ->
  timeLeft (hooks s) = Z.of_nat (S n) ->
  terminationTriggeredRef (refs s) = false ->
  terminationTriggeredRef (refs (fst (ticks n s))) = false
  /\ timeLeft (hooks (fst (ticks n s))) = 1
  /\ snd (ticks n s) = []
  /\ terminationTriggeredRef (refs (fst (ticks (S n) s))) = true
  /\ timeLeft (hooks (fst (ticks (S n) s))) = 0
  /\ timeouts (env (fst (ticks (S n) s))) = timeouts (env s) ++ [shutdownOf timeLimitReason]
  /\ ticks (S n + m) s
     = (fst (ticks (S n) s), [ESetSystemMessage ("Ending: " ++ timeLimitReason)%string]).
Proof.
  intros A L F.
  assert (Before : ticks n s = (upd_hooks (set_timeLeft 1) s, [])).
  { rewrite ticks_count_down by (try assumption; lia).
    rewrite L. do 3 f_equal. lia. }
  assert (Last : ticks (S n) s
                 = (upd_hooks (set_timeLeft 0)
                      (terminating timeLimitReason (upd_hooks (set_timeLeft 1) s)),
                    [ESetSystemMessage ("Ending: " ++ timeLimitReason)%string])).
  { replace (S n) with (n + 1)%nat by lia. rewrite ticks_add, Before.
    cbn [fst snd app]. unfold ticks. cbn [repeat run].
    rewrite tick_times_out;
      [reflexivity | exact A | cbn [upd_hooks hooks timeLeft set_timeLeft]; lia
      | exact F]. }
  rewrite Before, Last. cbn [fst snd].
  repeat split; try assumption.
  rewrite ticks_add, Last. cbn [fst snd].
  rewrite ticks_after_timeout by reflexivity. reflexivity.
Qed.

Lemma countdown_from_any_time_witness :
  intervalActive (env liveState) = true
  /\ timeLeft (hooks liveState) = Z.of_nat (S 599)
  /\ terminationTriggeredRef (refs liveState) = false
  /\ ticks (S 599 + 60) liveState
     = (fst (ticks (S 599) liveState),
        [ESetSystemMessage ("Ending: " ++ timeLimitReason)%string]).
Proof.
  split; [reflexivity|]. split; [reflexivity|]. split; [reflexivity|].
  apply (countdown_from_any_time liveState 599 60 eq_refl eq_refl eq_refl).
Defined.

(** ** The header's clock *)

Lemma two_digit_seconds (r : Z) :
  0 <= r < 60 ->
  padStart 2 "0" (showNumber r)
  = String (digitChar (r / 10)) (String (digitChar (r mod 10)) "").
Proof.
  intro H. rewrite <- (Z2Nat.id r) by lia.
  assert (N : (Z.to_nat r < 60)%nat) by lia.
  generalize dependent (Z.to_nat r). intros n N.
  do 60 (destruct n as [|n]; [reflexivity|]). lia.
Qed.

(** X10. The header's clock. For a remaining time that is not negative,
    the text is the minutes, a colon and exactly two decimal digits of
    seconds (zero-padded), and minutes and seconds add up to the remaining
    time. *)
Theorem timer_text_minutes_seconds (timeLeft : Z) :
  0 <= timeLeft ->
  exists d1 d2,
    0 <= d1 <= 5 /\ 0 <= d2 <= 9
    /\ timerText timeLeft
       = (showNumber (timeLeft / 60) ++ ":"
          ++ String (digitChar d1) (String (digitChar d2) ""))%string
    /\ timeLeft = 60 * (timeLeft / 60) + (10 * d1 + d2).
Proof.
  intro H. exists ((timeLeft mod 60) / 10), ((timeLeft mod 60) mod 10).
  pose proof (Z.mod_pos_bound timeLeft 60 ltac:(lia)) as B.
  split; [split; [apply Z.div_pos; lia|];
          assert ((timeLeft mod 60) / 10 < 6)
            by (apply Z.div_lt_upper_bound; lia); lia|].
  split; [pose proof (Z.mod_pos_bound (timeLeft mod 60) 10 ltac:(lia)); lia|].
  split.
  - unfold timerText. rewrite Z.rem_mod_nonneg by lia.
    rewrite two_digit_seconds by exact B. reflexivity.
  - rewrite <- (Z.div_mod (timeLeft mod 60) 10) by lia.
    apply Z.div_mod. lia.
Qed.

Lemma timer_text_minutes_seconds_witness :
  0 <= 545
  /\ exists d1 d2,
       0 <= d1 <= 5 /\ 0 <= d2 <= 9
       /\ timerText 545
          = (showNumber (545 / 60) ++ ":"
             ++ String (digitChar d1) (String (digitChar d2) ""))%string
       /\ 545 = 60 * (545 / 60) + (10 * d1 + d2).
Proof.
  assert (H : 0 <= 545) by lia.
  split; [exact H|].
  exact (timer_text_minutes_seconds 545 H).
Defined.

(** ** The candidate form *)

Lemma trimStart_empty (str : Text) :
  trimStart str = [] <-> Forall (fun c => isWhiteSpace c = true) str.
Proof.
  induction str as [|c rest IH]; cbn [trimStart].
  - split; [constructor | reflexivity].
  - destruct (isWhiteSpace c) eqn:W.
    + rewrite IH. split; [intro H; constructor; assumption|].
      intro H. inversion H; assumption.
    + split; [discriminate|]. intro H. inversion H; congruence.
Qed.

Lemma trimStart_head (str : Text) (c : N) (rest : Text) :
  trimStart str = c :: rest -> isWhiteSpace c = false.
Proof.
  induction str as [|d str IH]; cbn [trimStart]; [discriminate|].
  destruct (isWhiteSpace d) eqn:W; [exact IH|].
  intro H. injection H as -> _. exact W.
Qed.

Lemma trimStart_suffix (str : Text) :
  exists dropped, str = dropped ++ trimStart str
                  /\ Forall (fun c => isWhiteSpace c = true) dropped.
Proof.
  induction str as [|c rest [dropped [E F]]]; cbn [trimStart].
  - exists []. split; [reflexivity | constructor].
  - destruct (isWhiteSpace c) eqn:W.
    + exists (c :: dropped). split; [cbn; congruence | constructor; assumption].
    + exists []. split; [reflexivity | constructor].
Qed.

Lemma trim_empty (str : Text) :
  trim str = [] <-> Forall (fun c => isWhiteSpace c = true) str.
Proof.
  unfold trim, trimEnd. split.
  - intro H. apply (f_equal (@rev N)) in H. rewrite rev_involutive in H.
    cbn [rev] in H. apply trimStart_empty in H. apply Forall_rev in H.
    rewrite rev_involutive in H.
    destruct (trimStart str) as [|c rest] eqn:E.
    + apply trimStart_empty. exact E.
    + apply trimStart_head in E. inversion H; congruence.
  - intro H. apply trimStart_empty in H. rewrite H. reflexivity.
Qed.

Lemma nonEmpty_trim (str : Text) : nonEmpty (trim str) = true <-> hasVisible str.
Proof.
  split.
  - intro H. destruct (trim str) eqn:E; [discriminate|].
    assert (N : ~ Forall (fun c => isWhiteSpace c = true) str).
    { intro F. apply trim_empty in F. congruence. }
    apply neg_Forall_Exists_neg in N;
      [|intro c; destruct (isWhiteSpace c); [left | right]; congruence].
    apply Exists_exists in N. destruct N as [c [I W]].
    exists c. split; [exact I|]. destruct (isWhiteSpace c); congruence.
  - intros [c [I W]]. destruct (trim str) eqn:E; [|reflexivity].
    apply trim_empty in E. rewrite Forall_forall in E. specialize (E c I). congruence.
Qed.

Lemma nonEmpty_true (str : Text) : nonEmpty str = true <-> str <> [].
Proof. destruct str; cbn; split; congruence. Qed.

Lemma hasVisible_nonempty (str : Text) : hasVisible str -> str <> [].
Proof. intros [c [I _]] E. rewrite E in I. exact I. Qed.

Lemma submit_condition (form : CandidateInfo) :
  nonEmpty (trim (name form)) && nonEmpty (trim (jobDescription form))
    && nonEmpty (field form) && nonEmpty (language form) = true
  <-> hasVisible (name form) /\ hasVisible (jobDescription form)
      /\ field form <> [] /\ language form <> [].
Proof.
  rewrite !andb_true_iff, !nonEmpty_trim, !nonEmpty_true. tauto.
Qed.

Lemma submit_condition_part_002 (form : CandidateInfo) :
  nonEmpty (name form) && nonEmpty (jobDescription form)
    && nonEmpty (field form) && nonEmpty (language form) = true
  <-> name form <> [] /\ jobDescription form <> []
      /\ field form <> [] /\ language form <> [].
Proof.
  rewrite !andb_true_iff, !nonEmpty_true. tauto.
Qed.

(** X11. The candidate form. [handleSubmit] calls [onSubmit] exactly when
    the name and the job description each hold a character that [trim]
    keeps and the role and the language are not empty; it then hands over
    the four fields as typed, untrimmed; it alerts exactly when it does not
    submit. The variant [part_002] submits whatever [handleSubmit] submits,
    and also any form whose four fields are merely not empty. *)
Theorem form_submission (form : CandidateInfo) :
  (forall info, In (OnSubmit info) (handleSubmit form) <->
     info = form
     /\ hasVisible (name form) /\ hasVisible (jobDescription form)
     /\ field form <> [] /\ language form <> [])
  /\ ((exists info, In (OnSubmit info) (handleSubmit form))
      <-> ~ exists message, In (Alert message) (handleSubmit form))
  /\ (forall info, In (OnSubmit info) (handleSubmit form) ->
        In (OnSubmit info) (handleSubmit_part_002 form))
  /\ (name form <> [] -> jobDescription form <> [] ->
      field form <> [] -> language form <> [] ->
      In (OnSubmit form) (handleSubmit_part_002 form)).
Proof.
  assert (Eta : {| name := name form; jobDescription := jobDescription form;
                   field := field form; language := language form |} = form)
    by (destruct form; reflexivity).
  assert (Main : forall info, In (OnSubmit info) (handleSubmit form) <->
                   info = form
                   /\ hasVisible (name form) /\ hasVisible (jobDescription form)
                   /\ field form <> [] /\ language form <> []).
  { intro info. unfold handleSubmit. rewrite Eta, <- submit_condition.
    destruct (_ && _ && _ && _); cbn [app In]; split.
    - intros [I|[I|[I|[]]]]; try discriminate. injection I as <-. auto.
    - intros [-> _]. auto.
    - intros [I|[I|[I|[]]]]; discriminate.
    - intros [_ H]. discriminate. }
  assert (Variant : name form <> [] -> jobDescription form <> [] ->
                    field form <> [] -> language form <> [] ->
                    In (OnSubmit form) (handleSubmit_part_002 form)).
  { intros H1 H2 H3 H4. unfold handleSubmit_part_002. rewrite Eta.
    rewrite (proj2 (submit_condition_part_002 form)) by auto.
    cbn. auto. }
  split; [exact Main|]. split; [|split; [|exact Variant]].
  - unfold handleSubmit. rewrite Eta.
    destruct (_ && _ && _ && _); cbn [app In]; split.
    + intros _ [message [A|[A|[A|[]]]]]; discriminate.
    + intros _. exists form. auto.
    + intros [info [I|[I|[I|[]]]]]; discriminate.
    + intro N. exfalso. apply N. eexists. right. right. left. reflexivity.
  - intros info I. apply Main in I. destruct I as [-> [H1 [H2 [H3 H4]]]].
    apply Variant; auto using hasVisible_nonempty.
Qed.

Lemma form_submission_witness :
  name blankNameForm <> [] /\ jobDescription blankNameForm <> []
  /\ field blankNameForm <> [] /\ language blankNameForm <> []
  /\ In (OnSubmit blankNameForm) (handleSubmit_part_002 blankNameForm)
  /\ ~ In (OnSubmit blankNameForm) (handleSubmit blankNameForm).
Proof.
  assert (H1 : name blankNameForm <> []) by discriminate.
  assert (H2 : jobDescription blankNameForm <> []) by discriminate.
  assert (H3 : field blankNameForm <> []) by discriminate.
  assert (H4 : language blankNameForm <> []) by discriminate.
  destruct (form_submission blankNameForm) as [_ [_ [_ V]]].
  repeat (split; [assumption|]).
  split; [exact (V H1 H2 H3 H4)|].
  cbn. intros [I|[I|[I|[]]]]; discriminate.
Defined.

(** ** The application shell *)

Lemma disqualifies_true (terminationReason : option string) :
  disqualifies terminationReason = true
  <-> exists r, terminationReason = Some r /\ r <> "" /\ r <> "Completed".
Proof.
  unfold disqualifies. destruct terminationReason as [r|].
  - rewrite andb_true_iff, !negb_true_iff, !String.eqb_neq. split.
    + intros [H1 H2]. exists r. auto.
    + intros [r' [E [H1 H2]]]. injection E as <-. auto.
  - split; [discriminate|]. intros [r [E _]]. discriminate.
Qed.

(** X12. A session that ends with any reason other than ["Completed"]
    (the empty one apart) is not evaluated: [handleInterviewComplete] moves
    to the evaluating step and schedules, 1500 ms later, a failed result
    with rating 0 that carries the reason, whatever the API key and
    whatever the evaluation service would have answered. *)
Theorem early_termination_bypasses_evaluation
    (transcript reason : string) (apiKey : option string)
    (outcome : EvaluationOutcome) (st : AppState) :
  reason <> "" -> reason <> "Completed" ->
  handleInterviewComplete transcript (Some reason) apiKey st
  = ({| appStep := EVALUATING; candidate := candidate st; result := result st |},
     ShowAfter 1500
       {| rating := 0;
          feedback := "Interview terminated early by proctoring system.";
          passed := false; questions := []; terminationReason := Some reason |})
  /\ shownResult transcript (Some reason) apiKey outcome st
     = Some {| rating := 0;
               feedback := "Interview terminated early by proctoring system.";
               passed := false; questions := []; terminationReason := Some reason |}.
Proof.
  intros H1 H2.
  assert (D : disqualifies (Some reason) = true)
    by (apply disqualifies_true; exists reason; auto).
  unfold shownResult, handleInterviewComplete. rewrite D. split; reflexivity.
Qed.

Lemma early_termination_bypasses_evaluation_witness :
  "User ended session" <> "" /\ "User ended session" <> "Completed"
  /\ shownResult "AI: Hello" (Some "User ended session") (Some "key")
       (EvaluationParsed {| data_rating := Some 10; data_feedback := None;
                            data_questions := None |})
       {| appStep := INTERVIEW; candidate := None; result := None |}
     = Some {| rating := 0;
               feedback := "Interview terminated early by proctoring system.";
               passed := false; questions := [];
               terminationReason := Some "User ended session" |}.
Proof.
  assert (H1 : "User ended session" <> "") by discriminate.
  assert (H2 : "User ended session" <> "Completed") by discriminate.
  split; [exact H1|]. split; [exact H2|].
  apply (early_termination_bypasses_evaluation "AI: Hello" "User ended session"
           (Some "key") _ _ H1 H2).
Defined.

(** X13. Every completed session ends with a result, in which [passed]
    holds exactly when the rating is above 6; and the result is a pass
    exactly when the reason does not disqualify and either no API key is
    configured (demo mode) or the evaluation parsed to a rating above 6.
    The result is: for a disqualifying reason, rating 0 with the reason;
    without an API key, the demo result with rating 7; when the evaluation
    throws, rating 0 and ["Evaluation failed."]; when it parses, the
    rating, feedback and questions of the answer, with 0,
    ["Evaluation complete."] and no questions for what is missing. *)
Theorem pass_requires_rating_above_six
    (transcript : string) (reason : option string)
    (apiKey : option string) (outcome : EvaluationOutcome) (st : AppState) :
  exists r,
    shownResult transcript reason apiKey outcome st = Some r
    /\ passed r = (6 <? rating r)
    /\ (passed r = true <->
        disqualifies reason = false
        /\ (apiKey = None \/ apiKey = Some ""
            \/ exists data, outcome = EvaluationParsed data
                            /\ exists n, data_rating data = Some n /\ 6 < n))
    /\ (disqualifies reason = true ->
        r = {| rating := 0;
               feedback := "Interview terminated early by proctoring system.";
               passed := false; questions := [];
               terminationReason := reason |})
    /\ (disqualifies reason = false ->
        apiKey = None \/ apiKey = Some "" ->
        r = {| rating := 7; feedback := "Great interview (Demo Mode).";
               passed := true; questions := []; terminationReason := None |})
    /\ (disqualifies reason = false ->
        apiKey <> None -> apiKey <> Some "" ->
        outcome = EvaluationThrows ->
        r = {| rating := 0; feedback := "Evaluation failed."; passed := false;
               questions := []; terminationReason := None |})
    /\ (forall data,
          disqualifies reason = false ->
          apiKey <> None -> apiKey <> Some "" ->
          outcome = EvaluationParsed data ->
          rating r = match data_rating data with Some n => n | None => 0 end
          /\ feedback r = match data_feedback data with
                          | Some "" | None => "Evaluation complete."
                          | Some f => f
                          end
          /\ questions r = match data_questions data with
                           | Some q => q
                           | None => []
                           end
          /\ terminationReason r = None).
Proof.
  unfold shownResult, handleInterviewComplete.
  destruct (disqualifies reason) eqn:D.
  - eexists. split; [reflexivity|]. split; [reflexivity|].
    split; [cbn; split; [discriminate | intros [H _]; discriminate]|].
    split; [reflexivity|].
    repeat split; intros; discriminate.
  - destruct apiKey as [[|c k]|].
    + eexists. split; [reflexivity|]. split; [reflexivity|].
      split; [cbn; tauto|]. split; [discriminate|]. split; [reflexivity|].
      split; [intros; congruence|]. intros; congruence.
    + destruct outcome as [|data]; eexists; (split; [reflexivity|]);
        (split; [reflexivity|]); cbn [settle result evaluationResult passed snd].
      * split.
        { split; [discriminate|].
          intros [_ [H|[H|[data [H _]]]]]; discriminate. }
        split; [discriminate|].
        split; [intros _ [H|H]; discriminate|].
        split; [reflexivity|]. intros; discriminate.
      * split.
        { unfold ratingOrZero. rewrite Z.ltb_lt. split.
          -- intro H. split; [reflexivity|]. right. right. exists data.
             split; [reflexivity|]. destruct (data_rating data) as [n|]; [|lia].
             exists n. auto.
          -- intros [_ [H|[H|[data' [E [n [R L]]]]]]]; try discriminate.
             injection E as <-. rewrite R. exact L. }
        split; [discriminate|].
        split; [intros _ [H|H]; discriminate|].
        split; [intros; discriminate|].
        intros data' _ _ _ [= <-]. repeat split.
    + eexists. split; [reflexivity|]. split; [reflexivity|].
      split; [cbn; tauto|]. split; [discriminate|]. split; [reflexivity|].
      split; [intros; congruence|]. intros; congruence.
Qed.

(** *** The screens *)

Lemma appStepOn_consistent (a : AppState * option Pending) (ev : AppEvent) :
  appConsistent a ->
  (appStep (fst a) = INSTRUCTIONS -> candidate (fst a) <> None) ->
  appConsistent (appStepOn a ev)
  /\ (appStep (fst (appStepOn a ev)) = INSTRUCTIONS ->
      candidate (fst (appStepOn a ev)) <> None).
Proof.
  destruct a as [[stp c r] p]. unfold appConsistent, appStepOn, screen.
  cbn [fst snd appStep candidate result].
  intros I J.
  destruct ev, stp, c, r, p; cbn in *;
    repeat match goal with
           | |- context [handleInterviewComplete ?t ?tr ?k ?s] =>
               unfold handleInterviewComplete;
               destruct (disqualifies tr); [|destruct k as [[|? ?]|]]; cbn
           end;
    intuition (try discriminate; try congruence).
Qed.

(** X14. From its initial state, whatever the screens' callbacks and the
    pending continuations do, [App] always has a screen to render, and a
    continuation is pending exactly while the evaluating step is shown. *)
Theorem app_always_shows_a_screen (evs : list AppEvent) :
  screen (fst (appRun evs appStart)) <> None
  /\ (appStep (fst (appRun evs appStart)) = EVALUATING
      <-> snd (appRun evs appStart) <> None).
Proof.
  assert (I : appConsistent (appRun evs appStart)
              /\ (appStep (fst (appRun evs appStart)) = INSTRUCTIONS ->
                  candidate (fst (appRun evs appStart)) <> None)).
  { unfold appRun.
    assert (G : forall a, appConsistent a ->
                  (appStep (fst a) = INSTRUCTIONS -> candidate (fst a) <> None) ->
                  appConsistent (fold_left appStepOn evs a)
                  /\ (appStep (fst (fold_left appStepOn evs a)) = INSTRUCTIONS ->
                      candidate (fst (fold_left appStepOn evs a)) <> None)).
    { induction evs as [|ev evs IH]; intros a I J; [auto|].
      cbn [fold_left]. destruct (appStepOn_consistent a ev I J) as [I1 J1].
      apply IH; assumption. }
    apply G; cbn; [reflexivity | discriminate]. }
  destruct I as [I _]. destruct (appRun evs appStart) as [[stp c r] p].
  unfold appConsistent, screen in *. cbn [fst snd appStep candidate result] in *.
  destruct stp, c, r; cbn; intuition (try discriminate; try congruence).
Qed.

(** ** The mute button of [part_001] *)

Lemma toggles_run (m : MuteState) (tracks : list bool) (n : nat) :
  audioTracksEnabled m = Some tracks ->
  Nat.iter (S n) toggleMute m
  = {| isMuted := if Nat.even n then negb (isMuted m) else isMuted m;
       audioTracksEnabled :=
         Some (map (fun _ => if Nat.even n then negb (isMuted m) else isMuted m)
                 tracks) |}.
Proof.
  intro T. induction n as [|n IH].
  - cbn [Nat.iter nat_rect Nat.even]. unfold toggleMute. rewrite T. reflexivity.
  - change (Nat.iter (S (S n)) toggleMute m)
      with (toggleMute (Nat.iter (S n) toggleMute m)).
    rewrite IH. unfold toggleMute. cbn [isMuted audioTracksEnabled].
    rewrite map_map. rewrite Nat.even_succ, <- Nat.negb_even.
    destruct (Nat.even n); cbn [negb]; rewrite ?negb_involutive; reflexivity.
Qed.

(** X15. The mute button of [part_001]. With a stream, every click flips
    [isMuted] and sets every audio track's [enabled] to the new value of
    [isMuted]: after any number of clicks the tracks are enabled exactly
    when the button reads as muted. *)
Theorem mute_button_enables_when_muted (m : MuteState) (tracks : list bool) (n : nat) :
  audioTracksEnabled m = Some tracks ->
  isMuted (Nat.iter (S n) toggleMute m)
  = (if Nat.even n then negb (isMuted m) else isMuted m)
  /\ audioTracksEnabled (Nat.iter (S n) toggleMute m)
     = Some (map (fun _ => isMuted (Nat.iter (S n) toggleMute m)) tracks).
Proof.
  intro T. rewrite (toggles_run m tracks n T). split; reflexivity.
Qed.

Lemma mute_button_enables_when_muted_witness :
  audioTracksEnabled {| isMuted := false; audioTracksEnabled := Some [true] |}
  = Some [true]
  /\ audioTracksEnabled
       (Nat.iter 1 toggleMute {| isMuted := false; audioTracksEnabled := Some [true] |})
     = Some (map (fun _ =>
                    isMuted (Nat.iter 1 toggleMute
                               {| isMuted := false;
                                  audioTracksEnabled := Some [true] |})) [true]).
Proof.
  split; [reflexivity|].
  apply (mute_button_enables_when_muted
           {| isMuted := false; audioTracksEnabled := Some [true] |} [true] 0 eq_refl).
Defined.

(** ** Where a termination reason comes from *)

Lemma schedulesOnly_refl (P : string -> Prop) (s : State) : schedulesOnly P s s [].
Proof.
  split; [reflexivity|]. exists []. rewrite app_nil_r. split; [reflexivity|constructor].
Qed.

Lemma schedulesOnly_trans (P : string -> Prop) (s1 s2 s3 : State) (l1 l2 : list Effect) :
  schedulesOnly P s1 s2 l1 -> schedulesOnly P s2 s3 l2 ->
  schedulesOnly P s1 s3 (l1 ++ l2).
Proof.
  intros [C1 [a1 [E1 F1]]] [C2 [a2 [E2 F2]]]. split.
  - rewrite completed_app, C1, C2. reflexivity.
  - exists (a1 ++ a2). rewrite E2, E1, app_assoc. split; [reflexivity|].
    apply Forall_app. split; assumption.
Qed.

Lemma handleTermination_schedulesOnly (P : string -> Prop) (reason : string) :
  P reason -> obeys (schedulesOnly P) (handleTermination reason).
Proof.
  intros HP s. destruct (terminationTriggeredRef (refs s)) eqn:F.
  - rewrite handleTermination_later by exact F. apply schedulesOnly_refl.
  - rewrite handleTermination_first by exact F. split; [reflexivity|].
    exists [shutdownOf reason]. split; [reflexivity|]. repeat constructor. exact HP.
Qed.

Lemma disconnect_schedulesOnly (P : string -> Prop) : obeys (schedulesOnly P) disconnect.
Proof.
  intro s. rewrite disconnect_run. unfold stateOf, effectsOf; cbn [fst snd]. split.
  - apply completed_none, disconnectEffects_notComplete.
  - exists []. rewrite app_nil_r. split; [|constructor].
    unfold disconnected; cbn [env].
    destruct (truthy (animationRef (handles s)));
      rewrite ?timeouts_dropFrame; apply timeouts_detachedCapture.
Qed.

Ltac schedules_step P :=
  first
    [ apply (disconnect_schedulesOnly P)
    | apply obeys_modify; intro; split;
      [reflexivity
      | exists []; rewrite app_nil_r; split; [reflexivity | constructor]]
    | apply obeys_emit; intro; split;
      [reflexivity
      | exists []; rewrite app_nil_r; split; [reflexivity | constructor]] ].

Lemma handler_schedulesOnly (ev : Event) :
  ev <> TimeoutFires ->
  obeys (schedulesOnly (fun r => builtinReason r \/ toolReasonOf ev r)) (handler ev).
Proof.
  intro Hev. set (P := fun r => builtinReason r \/ toolReasonOf ev r).
  assert (B : forall r, builtinReason r -> P r) by (intros r H; left; exact H).
  destruct ev; try congruence; clear Hev.
  2: { (* an inbound message *)
    unfold handler, onmessage, onmessage_with.
    apply (obeys_bind _ (schedulesOnly_trans P)); [apply (obeys_gets _ (schedulesOnly_refl P))|].
    intro mounted. destruct (negb mounted); [apply (obeys_ret _ (schedulesOnly_refl P))|].
    apply (obeys_bind _ (schedulesOnly_trans P)).
    - destruct (toolCall message) as [calls|] eqn:E1;
        [|apply (obeys_ret _ (schedulesOnly_refl P))].
      destruct (find _ calls) as [call|] eqn:E2;
        [|apply (obeys_ret _ (schedulesOnly_refl P))].
      apply handleTermination_schedulesOnly. right. cbn.
      apply find_some in E2. destruct E2 as [I N]. apply String.eqb_eq in N.
      exists calls, call. auto.
    - intros _. unfold playAudio.
      obeys_with (schedulesOnly_refl P) (schedulesOnly_trans P)
        ltac:(schedules_step P). }
  all: unfold handler, onopen, onerror, onclose, onaudioprocess,
      onended, timerTick, handleVisibilityChange, endInterviewClick,
      draw, unmount, setStatus, setSystemMessageStatus;
    obeys_with (schedulesOnly_refl P) (schedulesOnly_trans P)
      ltac:(first [ apply handleTermination_schedulesOnly; apply B;
                    unfold builtinReason, timeLimitReason, tabSwitchReason; auto
                  | schedules_step P ]).
Qed.

Lemma schedulesOnly_weaken (P Q : string -> Prop) (s s' : State) (l : list Effect) :
  (forall r, P r -> Q r) -> schedulesOnly P s s' l -> schedulesOnly Q s s' l.
Proof.
  intros W [C [added [E F]]]. split; [exact C|]. exists added. split; [exact E|].
  eapply Forall_impl; [|exact F]. intros t. apply W.
Qed.

Lemma step_reasons (Q : string -> Prop) (s : State) (ev : Event) :
  (forall r, builtinReason r \/ toolReasonOf ev r -> Q r) ->
  Forall (fun t => Q (reasonOfTimeout t)) (timeouts (env s)) ->
  Forall (fun t => Q (reasonOfTimeout t)) (timeouts (env (fst (step s ev))))
  /\ Forall Q (completed (snd (step s ev))).
Proof.
  intros W I.
  destruct ev;
    try (match goal with
         | |- context [step s ?ev] =>
             destruct (schedulesOnly_weaken _ Q _ _ _ W
                         (handler_schedulesOnly ev ltac:(discriminate) s))
               as [C [added [E F]]]
         end;
         unfold step; cbn [fst snd]; rewrite C, E; split;
         [apply Forall_app; split; assumption | constructor]).
  unfold step, handler.
  rewrite (bind_run _ _ s s (timeouts (env s)) []) by reflexivity.
  destruct (timeouts (env s)) as [|[[reason] d] rest] eqn:T.
  - unfold stateOf, effectsOf; cbn. rewrite T. split; [exact I | constructor].
  - rewrite (bind_run _ _ s (upd_env (set_timeouts rest) s) tt []) by reflexivity.
    cbn [callback]. rewrite runCallback_run.
    unfold stateOf, effectsOf; cbn [fst snd app].
    inversion I as [|? ? Ht Irest]; subst. split.
    + unfold disconnected; cbn [env handles animationRef upd_env].
      destruct (truthy _); rewrite ?timeouts_dropFrame, timeouts_detachedCapture;
        exact Irest.
    + rewrite completed_app, (completed_none _ (disconnectEffects_notComplete _)).
      cbn. constructor; [exact Ht | constructor].
Qed.

Lemma run_reasons (Q : string -> Prop) (evs : list Event) (s : State) :
  (forall ev r, In ev evs -> builtinReason r \/ toolReasonOf ev r -> Q r) ->
  Forall (fun t => Q (reasonOfTimeout t)) (timeouts (env s)) ->
  Forall (fun t => Q (reasonOfTimeout t)) (timeouts (env (fst (run evs s))))
  /\ Forall Q (completed (snd (run evs s))).
Proof.
  revert s. induction evs as [|ev evs IH]; intros s W I.
  - split; [exact I | constructor].
  - cbn [run].
    destruct (step_reasons Q s ev (fun r H => W ev r (or_introl eq_refl) H) I)
      as [I1 C1].
    destruct (step s ev) as [s1 l1]. cbn [fst snd] in I1, C1.
    destruct (IH s1 (fun ev' r H => W ev' r (or_intror H)) I1) as [I2 C2].
    destruct (run evs s1) as [s2 l2]. cbn [fst snd] in *.
    split; [exact I2|]. rewrite completed_app. apply Forall_app. split; assumption.
Qed.

(** X16. Where a reason comes from. On a session with nothing scheduled,
    every reason handed to [onComplete] is one of the three written in the
    component (time limit, tab switching, user ended) or the reason of an
    [endInterview] call of a delivered message; and the result [App] shows
    for it can be a pass only if such a call was delivered whose [reason]
    argument is missing, empty or ["Completed"]. *)
Theorem only_the_agent_ends_an_evaluated_interview
    (s : State) (evs : list Event) (transcript reason : string)
    (apiKey : option string) (outcome : EvaluationOutcome) (st : AppState) :
  timeouts (env s) = [] ->
  In reason (completed (snd (run evs s))) ->
  (builtinReason reason
   \/ exists message currentTime calls call,
        In (Message message currentTime) evs
        /\ toolCall message = Some calls /\ In call calls
        /\ fc_name call = "endInterview" /\ reasonOf call = reason)
  /\ (forall r, shownResult transcript (Some reason) apiKey outcome st = Some r ->
        passed r = true ->
        exists message currentTime calls call,
          In (Message message currentTime) evs
          /\ toolCall message = Some calls /\ In call calls
          /\ fc_name call = "endInterview"
          /\ (args_reason call = None \/ args_reason call = Some ""
              \/ args_reason call = Some "Completed")).
Proof.
  intros T I.
  set (Q := fun r => builtinReason r
                     \/ exists message currentTime calls call,
                          In (Message message currentTime) evs
                          /\ toolCall message = Some calls /\ In call calls
                          /\ fc_name call = "endInterview" /\ reasonOf call = r).
  assert (HQ : Q reason).
  { destruct (run_reasons Q evs s) as [_ C].
    - intros ev r Hin [H|H]; [left; exact H|]. right.
      destruct ev; try contradiction. cbn in H.
      destruct H as [calls [call H]]. exists message, currentTime, calls, call.
      split; [exact Hin | exact H].
    - rewrite T. constructor.
    - rewrite Forall_forall in C. apply C. exact I. }
  split; [exact HQ|].
  intros r S Pa.
  assert (ND : disqualifies (Some reason) = false).
  { destruct (disqualifies (Some reason)) eqn:D; [|reflexivity].
    unfold shownResult, handleInterviewComplete in S. rewrite D in S.
    cbn in S. injection S as <-. discriminate. }
  assert (RC : reason = "" \/ reason = "Completed").
  { unfold disqualifies in ND. apply andb_false_iff in ND.
    destruct ND as [N|N]; apply negb_false_iff, String.eqb_eq in N; auto. }
  destruct HQ as [[B|[B|B]]|[message [currentTime [calls [call [Hin [C [Ic [N R]]]]]]]]].
  - destruct RC; subst; discriminate.
  - destruct RC; subst; discriminate.
  - destruct RC; subst; discriminate.
  - exists message, currentTime, calls, call. repeat (split; [assumption|]).
    unfold reasonOf in R. destruct (args_reason call) as [[|c a]|]; auto.
    destruct RC as [E|E]; [congruence|]. right. right. congruence.
Qed.

Lemma only_the_agent_ends_an_evaluated_interview_witness :
  timeouts (env liveState) = []
  /\ In "Completed"
       (completed (snd (run [Message (endInterviewMessage None) 0; TimeoutFires]
                          liveState)))
  /\ (builtinReason "Completed"
      \/ exists message currentTime calls call,
           In (Message message currentTime)
             [Message (endInterviewMessage None) 0; TimeoutFires]
           /\ toolCall message = Some calls /\ In call calls
           /\ fc_name call = "endInterview" /\ reasonOf call = "Completed").
Proof.
  assert (H : In "Completed"
                (completed (snd (run [Message (endInterviewMessage None) 0;
                                      TimeoutFires] liveState))))
    by (left; reflexivity).
  split; [reflexivity|]. split; [exact H|].
  apply (only_the_agent_ends_an_evaluated_interview liveState
           [Message (endInterviewMessage None) 0; TimeoutFires]
           "" "Completed" None EvaluationThrows
           {| appStep := INTERVIEW; candidate := None; result := None |}
           eq_refl H).
Defined.

(** ** Parts of a message beyond the first *)

(** X17. Only the first part of a message is read. Replacing the parts
    after the first changes nothing in what [onmessage] does; and when the
    first part carries neither text nor audio, nothing is appended to the
    history and no buffer is started, whatever the later parts carry. *)
Theorem only_first_part_is_read
    (s : State) (calls : option (list FunctionCall)) (p : Part)
    (rest rest' : list Part) (done : bool) (currentTime : Q) :
  step s (Message {| toolCall := calls; parts := Some (p :: rest);
                     turnComplete := done |} currentTime)
  = step s (Message {| toolCall := calls; parts := Some (p :: rest');
                       turnComplete := done |} currentTime)
  /\ fullTranscriptHistory
       (refs (fst (step s (Message {| toolCall := calls;
                                      parts := Some ({| part_text := None;
                                                        inlineData := None |} :: rest);
                                      turnComplete := done |} currentTime))))
     = fullTranscriptHistory (refs s)
  /\ starts
       (snd (step s (Message {| toolCall := calls;
                                parts := Some ({| part_text := None;
                                                  inlineData := None |} :: rest);
                                turnComplete := done |} currentTime)))
     = [].
Proof.
  split; [reflexivity|].
  open_state s.
  unfold step, handler, onmessage, onmessage_with, handleTermination,
    setSystemMessageStatus, setTimeout.
  cbn [toolCall parts turnComplete firstText firstInlineData firstPart
       part_text inlineData].
  exec. destruct mo; exec; [|split; reflexivity].
  destruct calls as [calls|]; exec.
  1: destruct (find _ calls); exec.
  1: destruct fl; exec.
  all: destruct done; exec; split; reflexivity.
Qed.
